(** * FraudgraphRAG: graph-context retrieval and GNN scoring

    A shallow embedding of [backend/models/graphrag.py] and
    [backend/models/gnn.py].

    - Python values are modelled as the code has them: [int] as [Z], [float]
      as the kernel's IEEE-754 binary64 [float], [str] as [string], lists as
      [list], [set] as [gset], dictionaries with a fixed set of keys as
      records.
    - A Python call either returns or raises: [result A].
    - Methods that mutate [self] or the process (the model's mode flag, the
      weights, torch's grad mode and random generator, the graph store, the
      disk) run in a state-and-exception monad over [World].
    - The numeric kernels of torch and torch_geometric (convolution, pooling,
      loss, autograd, Adam) are not part of this repository: they are the
      fields of the class [TorchLib]. *)

From Stdlib Require Import ZArith PrimFloat FloatOps SpecFloat Uint63.
From stdpp Require Import gmap strings list.

Open Scope Z_scope.

(** ** Python exceptions and results *)

Module Py.

Inductive exn : Type :=
  | ValueError
  | IndexError
  | KeyError
  | TypeError
  | AttributeError
  | RuntimeError
  | ZeroDivisionError
  | FileNotFoundError
  | ConstraintError
  (** the server's verdict on a query it cannot parse *)
  | CypherSyntaxError
  (** torch's "Overflow when unpacking long": a [RuntimeError] or a
      [ValueError], by the version of torch *)
  | Overflow.

Inductive result (A : Type) : Type :=
  | Ok (a : A)
  | Raise (e : exn).
Arguments Ok {A} a.
Arguments Raise {A} e.

#[export] Instance result_ret : MRet result := fun A a => Ok a.
#[export] Instance result_bind : MBind result := fun A B f r =>
  match r with
  | Ok a => f a
  | Raise e => Raise e
  end.
#[export] Instance result_fmap : FMap result := fun A B f r =>
  match r with
  | Ok a => Ok (f a)
  | Raise e => Raise e
  end.

Definition is_ok {A} (r : result A) : bool :=
  match r with Ok _ => true | Raise _ => false end.

(** [float(i)] for a Python [int]: round to nearest even. *)
Definition float_of_Z (z : Z) : float :=
  SF2Prim (binary_normalize prec emax z 0 false).

(** [float(len(l))]: a length is below [2^63]. *)
Definition float_of_len (n : nat) : float :=
  PrimFloat.of_uint63 (Uint63.of_Z (Z.of_nat n)).

(** [x / n] for a float (or the int [0]) [x] and [n = len(l)]. *)
Definition div_len (x : float) (n : nat) : result float :=
  match n with
  | O => Raise ZeroDivisionError
  | S _ => Ok (PrimFloat.div x (float_of_len n))
  end.

End Py.
Export Py.

(** ** Tensors

    A tensor of rank one or two, as [torch.tensor] builds it from a list or
    from a list of lists.  The element carrier of a float tensor is [float];
    the rounding to 32 bits belongs to the kernels. *)

Module Torch.

Inductive tensor (A : Type) : Type :=
  | T1 (v : list A)
  | T2 (rows : list (list A)).
Arguments T1 {A} v.
Arguments T2 {A} rows.

Definition rank {A} (t : tensor A) : nat :=
  match t with T1 _ => 1%nat | T2 _ => 2%nat end.

Definition shape {A} (t : tensor A) : list nat :=
  match t with
  | T1 v => [length v]
  | T2 rows => [length rows; match rows with [] => 0%nat | r :: _ => length r end]
  end.

(** All the scalars a tensor holds, row by row. *)
Definition entries {A} (t : tensor A) : list A :=
  match t with
  | T1 v => v
  | T2 rows => concat rows
  end.

Definition uniform {A} (rows : list (list A)) : bool :=
  match rows with
  | [] => true
  | r :: rest => forallb (fun r' => Nat.eqb (length r') (length r)) rest
  end.

(** [torch.tensor(rows)] for a list of lists: the empty list gives the
    rank-one tensor of shape (0,); rows of different lengths are refused. *)
Definition tensor_of_rows {A} (rows : list (list A)) : result (tensor A) :=
  match rows with
  | [] => Ok (T1 [])
  | _ => if uniform rows then Ok (T2 rows) else Raise ValueError
  end.

(** [dtype=torch.long]: a Python int outside 64 bits is refused, with the
    overflow error of the torch at hand. *)
Definition to_long (z : Z) : result Z :=
  if decide (- 2 ^ 63 <= z < 2 ^ 63) then Ok z else Raise Overflow.

Definition long_tensor (l : list Z) : result (tensor Z) :=
  v ← mapM to_long l; Ok (T1 v).

(** [t.t()]: a rank-one tensor is returned as it is, a matrix is transposed. *)
Definition transpose {A} (rows : list (list A)) : list (list A) :=
  match rows with
  | [] => []
  | r :: _ => (fun j => omap (fun row => row !! j) rows) <$> seq 0 (length r)
  end.

Definition t_ {A} (t : tensor A) : tensor A :=
  match t with
  | T1 v => T1 v
  | T2 rows => T2 (transpose rows)
  end.

(** An elementwise operation. *)
Definition tmap {A B} (f : A -> B) (t : tensor A) : tensor B :=
  match t with
  | T1 v => T1 (List.map f v)
  | T2 rows => T2 (List.map (List.map f) rows)
  end.

(** [torch_geometric.data.Data(x=, edge_index=, y=)]; [batch] is never set
    in this code base, so [data.batch] is [None]. *)
Record Data : Type := mkData {
  x : tensor float;
  edge_index : tensor Z;
  y : option (tensor Z)
}.

Definition num_nodes (d : Data) : nat :=
  match shape (x d) with
  | n :: _ => n
  | [] => 0%nat
  end.

End Torch.
Export Torch.

(** ** graphrag.py: the tensor builder *)

Module GraphRAG_build.

(** The dictionaries [_get_subgraph] produces. *)
Record NodeDict : Type := mkNodeDict {
  nd_id : Z;
  nd_features : list float
}.

Record EdgeDict : Type := mkEdgeDict {
  source : Z;
  target : Z;
  ed_type : string
}.

Definition edge_rows (edges : list EdgeDict) : result (list (list Z)) :=
  mapM (fun edge => s ← to_long (source edge); t ← to_long (target edge); Ok [s; t]) edges.

(** [GraphRAG._create_graph_data] *)
Definition _create_graph_data (nodes : list NodeDict) (edges : list EdgeDict)
    (labels : option (list Z)) : result Data :=
  node_features ← tensor_of_rows (nd_features <$> nodes);
  rows ← edge_rows edges;
  ei ← tensor_of_rows rows;
  let edge_index := t_ ei in
  y ← match labels with
      | None | Some [] => Ok None
      | Some l => Some <$> long_tensor l
      end;
  Ok (mkData node_features edge_index y).

(** What a build is made of, for the statements below. *)
Definition in_long (z : Z) : Prop := - 2 ^ 63 <= z < 2 ^ 63.

Definition raw_rows (edges : list EdgeDict) : list (list Z) :=
  List.map (fun e => [source e; target e]) edges.

(** The edge index of a build: the transposed rows of raw identifiers. *)
Definition raw_edge_index (edges : list EdgeDict) : tensor Z :=
  match edges with
  | [] => T1 []
  | _ => T2 [List.map source edges; List.map target edges]
  end.

Definition labels_tensor (labels : option (list Z)) : option (tensor Z) :=
  match labels with
  | None | Some [] => None
  | Some l => Some (T1 l)
  end.

Definition features_tensor (nodes : list NodeDict) : tensor float :=
  match nodes with
  | [] => T1 []
  | _ => T2 (List.map nd_features nodes)
  end.

End GraphRAG_build.
Export GraphRAG_build.

(** ** The graph store

    Neo4j is reached through Cypher text only.  The store is modelled as the
    nodes and relationships it holds, and each query of [graphrag.py] by the
    meaning of its text. *)

Module Neo4j.

(** Property values. *)
Inductive value : Type :=
  | VNull
  | VBool (b : bool)
  | VInt (z : Z)
  | VFloat (f : float)
  | VStr (s : string)
  | VFloats (l : list float).

Definition props : Type := list (string * value).

Definition prop (k : string) (ps : props) : value :=
  match List.find (fun kv => String.eqb (fst kv) k) ps with
  | Some kv => snd kv
  | None => VNull
  end.

(** Cypher's [=] on property values, as a pattern [{k: v}] uses it: null
    equals nothing. *)
Definition value_eqb (a b : value) : bool :=
  match a, b with
  | VBool p, VBool q => Bool.eqb p q
  | VInt n, VInt m => Z.eqb n m
  | VFloat f, VFloat g => PrimFloat.eqb f g
  | VInt n, VFloat g => PrimFloat.eqb (float_of_Z n) g
  | VFloat f, VInt m => PrimFloat.eqb f (float_of_Z m)
  | VStr s, VStr t => String.eqb s t
  | VFloats l, VFloats m =>
      Nat.eqb (length l) (length m)
      && forallb (fun fg => PrimFloat.eqb (fst fg) (snd fg)) (combine l m)
  | _, _ => false
  end.

(** [node.id] is the store's own integer identifier; the application's
    identifier is the property ["id"]. *)
Record Node : Type := mkNode {
  node_id : Z;
  labels : list string;
  node_props : props
}.

Record Relationship : Type := mkRel {
  rel_id : Z;
  start_id : Z;
  end_id : Z;
  rel_type : string;
  rel_props : props
}.

Record Store : Type := mkStore {
  nodes : list Node;
  rels : list Relationship;
  (** [CREATE CONSTRAINT ... FOR (n:Label) ON (n.key) IS UNIQUE] *)
  unique : list (string * string);
  next_node_id : Z;
  next_rel_id : Z
}.

Definition has_label (l : string) (n : Node) : bool :=
  existsb (String.eqb l) (labels n).

(** The node pattern [(n {id: v})]. *)
Definition has_id (v : value) (n : Node) : bool :=
  value_eqb (prop "id" (node_props n)) v.

Definition find_node (g : Store) (i : Z) : option Node :=
  List.find (fun n => Z.eqb (node_id n) i) (nodes g).

(** A path as the driver returns it. *)
Record Path : Type := mkPath {
  path_nodes : list Node;
  path_rels : list Relationship
}.

Definition other_end (r : Relationship) (cur : Z) : option Z :=
  if Z.eqb (start_id r) cur then Some (end_id r)
  else if Z.eqb (end_id r) cur then Some (start_id r)
  else None.

(** The walks [-[*1..depth]-] from [cur]: one to [depth] relationships,
    taken in either direction, none of them twice in one walk. *)
Fixpoint walks (g : Store) (depth : nat) (cur : Node) (used : list Z)
    : list (list (Relationship * Node)) :=
  match depth with
  | O => []
  | S d =>
      r ← rels g;
      if bool_decide (rel_id r ∈ used) then []
      else match other_end r (node_id cur) ≫= find_node g with
           | None => []
           | Some nxt =>
               [(r, nxt)] :: (cons (r, nxt) <$> walks g d nxt (rel_id r :: used))
           end
  end.

(** [MATCH path = (start:Transaction {id: $node_id})-[*1..$depth]-(related)
    RETURN path, start, related]: one record per walk, with [depth] as the
    upper bound of the pattern.  These are the records of a server that
    takes the parameter [$depth] in that place; whether the server at hand
    does is the matter of [Session] below. *)
Definition subgraph_query (g : Store) (node_id : string) (depth : Z) : list Path :=
  start ← List.filter (fun n => has_label "Transaction" n && has_id (VStr node_id) n) (nodes g);
  (fun w => mkPath (start :: w.*2) w.*1) <$> walks g (Z.to_nat depth) start [].

(** [MATCH (t:Transaction {id: $transaction_id})
    OPTIONAL MATCH (t)-[:BELONGS_TO]->(u:User)
    OPTIONAL MATCH (t)-[:CONNECTED_TO]->(r:Transaction)
    RETURN t, u, collect(r) as related_transactions] *)
Definition out_neighbours (g : Store) (t : Node) (ty lbl : string) : list Node :=
  r ← List.filter (fun r => Z.eqb (start_id r) (node_id t) && String.eqb (rel_type r) ty) (rels g);
  match find_node g (end_id r) with
  | Some n => if has_label lbl n then [n] else []
  | None => []
  end.

Definition explanation_query (g : Store) (transaction_id : string)
    : list (Node * option Node * list Node) :=
  t ← List.filter (fun n => has_label "Transaction" n && has_id (VStr transaction_id) n) (nodes g);
  let related := out_neighbours g t "CONNECTED_TO" "Transaction" in
  match out_neighbours g t "BELONGS_TO" "User" with
  | [] => [(t, None, related)]
  | us => (fun u => (t, Some u, related)) <$> us
  end.

(** The dictionary [{"related_id": ..., "properties": {...}}] of
    [update_graph]'s [relationships]. *)
Record RelSpec : Type := mkRelSpec {
  related_id : value;
  properties : props
}.

(** A uniqueness constraint refuses a node whose constrained property equals
    that of a node already there. *)
Definition violates (g : Store) (n : Node) : bool :=
  existsb (fun c =>
    has_label (fst c) n
    && existsb (fun m => has_label (fst c) m
                         && value_eqb (prop (snd c) (node_props m)) (prop (snd c) (node_props n)))
               (nodes g))
    (unique g).

(** [SET r += m]: on a new relationship, the map without its nulls. *)
Definition set_props (m : props) : props :=
  List.filter (fun kv => match snd kv with VNull => false | _ => true end) m.

Definition create_rel (g : Store) (ty : string) (ps : props) (t related : Node) : Store :=
  mkStore (nodes g)
          (rels g ++ [mkRel (next_rel_id g) (node_id t) (node_id related) ty (set_props ps)])
          (unique g) (next_node_id g) (next_rel_id g + 1).

(** [CREATE (t:Transaction $transaction_data)
    WITH t
    UNWIND $relationships as rel
    MATCH (related {id: rel.related_id})
    CREATE (t)-[r:CONNECTED_TO]->(related)
    SET r += rel.properties]

    The node is created first; each row of the [UNWIND] then goes on only
    with the nodes its [MATCH] finds, [t] among the candidates. *)
Definition update_query (g : Store) (transaction_data : props)
    (relationships : list RelSpec) : result Store :=
  let t := mkNode (next_node_id g) ["Transaction"] transaction_data in
  if violates g t then Raise ConstraintError
  else
    let g1 := mkStore (nodes g ++ [t]) (rels g) (unique g)
                      (next_node_id g + 1) (next_rel_id g) in
    Ok (foldl (fun g' rel =>
                 foldl (fun g'' related =>
                          create_rel g'' "CONNECTED_TO" (properties rel) t related)
                       g'
                       (List.filter (has_id (related_id rel)) (nodes g1)))
              g1 relationships).

End Neo4j.
Export Neo4j.

(** ** graphrag.py: subgraph retrieval *)

Module GraphRAG_retrieve.

(** [GraphRAG._extract_node_features]: the properties that are [int] or
    [float] ([bool] is an [int] in Python), in the order of [node.keys()]. *)
Definition _extract_node_features (node : Node) : list float :=
  omap (fun kv =>
          match snd kv with
          | VInt z => Some (float_of_Z z)
          | VFloat f => Some f
          | VBool b => Some (float_of_Z (if b then 1 else 0))
          | _ => None
          end)
       (node_props node).

(** The locals of [_get_subgraph]'s loop. *)
Record Acc : Type := mkAcc {
  acc_nodes : list NodeDict;
  acc_edges : list EdgeDict;
  seen_nodes : gset Z;
  seen_edges : gset (Z * Z)
}.

Definition visit_node (a : Acc) (node : Node) : Acc :=
  if decide (node_id node ∈ seen_nodes a) then a
  else mkAcc (acc_nodes a ++ [mkNodeDict (node_id node) (_extract_node_features node)])
             (acc_edges a)
             ({[node_id node]} ∪ seen_nodes a)
             (seen_edges a).

Definition edge_key (rel : Relationship) : Z * Z := (start_id rel, end_id rel).

Definition visit_rel (a : Acc) (rel : Relationship) : Acc :=
  if decide (edge_key rel ∈ seen_edges a) then a
  else mkAcc (acc_nodes a)
             (acc_edges a ++ [mkEdgeDict (start_id rel) (end_id rel) (rel_type rel)])
             (seen_nodes a)
             ({[edge_key rel]} ∪ seen_edges a).

Definition visit_record (a : Acc) (path : Path) : Acc :=
  foldl visit_rel (foldl visit_node a (path_nodes path)) (path_rels path).

(** The body of [_get_subgraph] over the records of the query. *)
Definition collect (records : list Path) : list NodeDict * list EdgeDict :=
  let a := foldl visit_record (mkAcc [] [] ∅ ∅) records in
  (acc_nodes a, acc_edges a).

(** [GraphRAG._get_subgraph] *)
Definition _get_subgraph (g : Store) (node_id : string) (depth : Z)
    : list NodeDict * list EdgeDict :=
  collect (subgraph_query g node_id depth).

(** [GraphRAG.update_graph] *)
Definition update_graph (g : Store) (transaction_data : props)
    (relationships : list RelSpec) : result Store :=
  update_query g transaction_data relationships.

End GraphRAG_retrieve.
Export GraphRAG_retrieve.

(** ** gnn.py: the model *)

Module GNN.

(** The parameters of a [GCNConv] and of an [nn.Linear]. *)
Record GCNConv : Type := mkGCNConv {
  lin_weight : tensor float;
  conv_bias : tensor float
}.

Record Linear : Type := mkLinear {
  weight : tensor float;
  bias : tensor float
}.

(** [FraudGNN]: the attributes [__init__] sets, and [nn.Module]'s mode flag
    [training]. *)
Record FraudGNN : Type := mkFraudGNN {
  num_layers : Z;
  dropout : float;
  conv_layers : list GCNConv;
  fc1 : Linear;
  fc2 : Linear;
  training : bool
}.

Definition set_training (b : bool) (m : FraudGNN) : FraudGNN :=
  mkFraudGNN (num_layers m) (dropout m) (conv_layers m) (fc1 m) (fc2 m) b.

(** The trainable parameters of [m'] put into [m]. *)
Definition set_parameters (m m' : FraudGNN) : FraudGNN :=
  mkFraudGNN (num_layers m) (dropout m) (conv_layers m') (fc1 m') (fc2 m') (training m).

(** The keys of [state_dict()]: ["conv_layers.i.bias"],
    ["conv_layers.i.lin.weight"], ["fc1.weight"], ["fc1.bias"],
    ["fc2.weight"], ["fc2.bias"]. *)
Inductive pname : Type :=
  | ConvBias (i : nat)
  | ConvLinWeight (i : nat)
  | Fc1Weight
  | Fc1Bias
  | Fc2Weight
  | Fc2Bias.

#[export] Instance pname_eq_dec : EqDecision pname.
Proof. solve_decision. Defined.

Definition state_dict_t : Type := list (pname * tensor float).

Definition conv_entries (i : nat) (c : GCNConv) : state_dict_t :=
  [(ConvBias i, conv_bias c); (ConvLinWeight i, lin_weight c)].

(** [for i, conv in enumerate(conv_layers)], from [i] on. *)
Fixpoint conv_dict (i : nat) (cs : list GCNConv) : state_dict_t :=
  match cs with
  | [] => []
  | c :: cs' => conv_entries i c ++ conv_dict (S i) cs'
  end.

(** [m.state_dict()] *)
Definition state_dict (m : FraudGNN) : state_dict_t :=
  conv_dict 0 (conv_layers m)
  ++ [(Fc1Weight, weight (fc1 m)); (Fc1Bias, bias (fc1 m));
      (Fc2Weight, weight (fc2 m)); (Fc2Bias, bias (fc2 m))].

Definition sd_lookup (k : pname) (sd : state_dict_t) : option (tensor float) :=
  snd <$> List.find (fun kv => bool_decide (fst kv = k)) sd.

(** What [load_state_dict] leaves in a parameter [own] named [k]: the
    stored tensor when there is one of the same shape. *)
Definition loaded (sd : state_dict_t) (k : pname) (own : tensor float) : tensor float :=
  match sd_lookup k sd with
  | Some t => if decide (shape t = shape own) then t else own
  | None => own
  end.

Definition load_ok (sd : state_dict_t) (m : FraudGNN) : bool :=
  let own := state_dict m in
  forallb (fun kv => match sd_lookup (fst kv) sd with
                     | Some t => bool_decide (shape t = shape (snd kv))
                     | None => false
                     end) own
  && forallb (fun kv => bool_decide (fst kv ∈ own.*1)) sd.

Fixpoint load_convs (sd : state_dict_t) (i : nat) (cs : list GCNConv) : list GCNConv :=
  match cs with
  | [] => []
  | c :: cs' =>
      mkGCNConv (loaded sd (ConvLinWeight i) (lin_weight c))
                (loaded sd (ConvBias i) (conv_bias c))
      :: load_convs sd (S i) cs'
  end.

Definition load_parameters (sd : state_dict_t) (m : FraudGNN) : FraudGNN :=
  mkFraudGNN (num_layers m) (dropout m)
    (load_convs sd 0 (conv_layers m))
    (mkLinear (loaded sd Fc1Weight (weight (fc1 m))) (loaded sd Fc1Bias (bias (fc1 m))))
    (mkLinear (loaded sd Fc2Weight (weight (fc2 m))) (loaded sd Fc2Bias (bias (fc2 m))))
    (training m).

(** Two models of one architecture: as many layers, parameters of the same
    shapes, the same dropout rate. *)
Definition same_conv (c c' : GCNConv) : Prop :=
  shape (lin_weight c) = shape (lin_weight c') /\ shape (conv_bias c) = shape (conv_bias c').

Definition same_linear (l l' : Linear) : Prop :=
  shape (weight l) = shape (weight l') /\ shape (bias l) = shape (bias l').

Definition same_architecture (m m' : FraudGNN) : Prop :=
  Forall2 same_conv (conv_layers m) (conv_layers m')
  /\ same_linear (fc1 m) (fc1 m') /\ same_linear (fc2 m) (fc2 m')
  /\ dropout m = dropout m'.

(** The kernels of torch and torch_geometric. *)
Class TorchLib : Type := {
  (** the state of torch's random generator *)
  rng_t : Type;
  (** [GCNConv.forward(x, edge_index)] *)
  gcn_conv : GCNConv -> tensor float -> tensor Z -> result (tensor float);
  (** [F.relu], [torch.sigmoid] *)
  relu : tensor float -> tensor float;
  sigmoid : tensor float -> tensor float;
  (** the random mask of [F.dropout] in training mode *)
  dropout_mask : float -> tensor float -> rng_t -> tensor float * rng_t;
  (** [global_mean_pool(x, None)] *)
  global_mean_pool : tensor float -> result (tensor float);
  (** [nn.Linear.forward] *)
  linear : Linear -> tensor float -> result (tensor float);
  (** an element of [probabilities > threshold] *)
  gt : float -> float -> bool;
  (** [nn.BCELoss()(output, target).item()] *)
  bce_loss : tensor float -> tensor float -> result float;
  (** [torch.optim.Adam(parameters, lr)], its state *)
  opt_t : Type;
  adam : FraudGNN -> float -> result opt_t;
  (** [loss.backward()]: the gradients of the loss of this forward pass *)
  grads_t : Type;
  backward : FraudGNN -> Data -> rng_t -> result grads_t;
  (** [optimizer.step()]: the new optimizer state and parameters *)
  adam_step : opt_t -> grads_t -> FraudGNN -> result (opt_t * FraudGNN)
}.

(** What the training loop does that is of interest, in order. *)
Inductive event : Type :=
  | EvLoss (v : float)
  | EvStep.

Section Process.
Context {L : TorchLib}.

(** The state of the process: the one [FraudGNN] instance shared by
    [fraud_detector] and [graphrag] ([api/routes.py]), torch's random
    generator and grad mode, the graph store, the disk, what was printed,
    and the history of the training loop. *)
Record World : Type := mkWorld {
  model : FraudGNN;
  rng : rng_t;
  grad_enabled : bool;
  store : Store;
  disk : gmap string state_dict_t;
  stdout : list (Z * Z * float);
  history : list event
}.

Definition M (A : Type) : Type := World -> result A * World.

#[export] Instance M_ret : MRet M := fun A a w => (Ok a, w).
#[export] Instance M_bind : MBind M := fun A B f m w =>
  match m w with
  | (Ok a, w') => f a w'
  | (Raise e, w') => (Raise e, w')
  end.

Definition lift {A} (r : result A) : M A := fun w => (r, w).
Definition raise {A} (e : exn) : M A := fun w => (Raise e, w).
Definition get : M World := fun w => (Ok w, w).
Definition put (w : World) : M unit := fun _ => (Ok tt, w).

Definition with_model (m : FraudGNN) (w : World) : World :=
  mkWorld m (rng w) (grad_enabled w) (store w) (disk w) (stdout w) (history w).
Definition with_rng (r : rng_t) (w : World) : World :=
  mkWorld (model w) r (grad_enabled w) (store w) (disk w) (stdout w) (history w).
Definition with_grad (b : bool) (w : World) : World :=
  mkWorld (model w) (rng w) b (store w) (disk w) (stdout w) (history w).
Definition with_disk (d : gmap string state_dict_t) (w : World) : World :=
  mkWorld (model w) (rng w) (grad_enabled w) (store w) d (stdout w) (history w).
Definition with_stdout (o : list (Z * Z * float)) (w : World) : World :=
  mkWorld (model w) (rng w) (grad_enabled w) (store w) (disk w) o (history w).
Definition record_event (e : event) (w : World) : World :=
  mkWorld (model w) (rng w) (grad_enabled w) (store w) (disk w) (stdout w) (history w ++ [e]).

Definition modify (f : World -> World) : M unit := fun w => (Ok tt, f w).

(** [for a in l: acc = body(acc, a)] *)
Fixpoint for_each {A B} (body : B -> A -> M B) (acc : B) (l : list A) : M B :=
  match l with
  | [] => mret acc
  | a :: l' => acc' ← body acc a; for_each body acc' l'
  end.

(** [F.dropout(x, p, training)] *)
Definition F_dropout (t : tensor float) (p : float) (train_mode : bool) : M (tensor float) :=
  if (PrimFloat.ltb p PrimFloat.zero || PrimFloat.ltb PrimFloat.one p)%bool
  then raise ValueError
  else if train_mode
       then fun w => let '(t', r') := dropout_mask p t (rng w) in (Ok t', with_rng r' w)
       else mret t.

(** [FraudGNN.forward] *)
Definition forward (data : Data) : M (tensor float) :=
  w ← get;
  let self := model w in
  x ← for_each (fun x conv =>
                  x ← lift (gcn_conv conv x (edge_index data));
                  let x := relu x in
                  F_dropout x (dropout self) (training self))
               (x data) (conv_layers self);
  x ← lift (global_mean_pool x);
  x ← lift (linear (fc1 self) x);
  let x := relu x in
  x ← F_dropout x (dropout self) (training self);
  x ← lift (linear (fc2 self) x);
  mret (sigmoid x).

(** [with torch.no_grad(): body]: the grad mode is put back on the way out,
    also when [body] raises. *)
Definition no_grad {A} (body : M A) : M A := fun w =>
  let '(r, w') := body (with_grad false w) in
  (r, with_grad (grad_enabled w) w').

(** [FraudGNN.predict] *)
Definition predict (data : Data) (threshold : float) : M (tensor float * tensor float) :=
  modify (fun w => with_model (set_training false (model w)) w);;
  no_grad (
    probabilities ← forward data;
    let predictions :=
      tmap (fun p => if gt p threshold then PrimFloat.one else PrimFloat.zero) probabilities in
    mret (probabilities, predictions)).

(** [batch.y.unsqueeze(1).float()] *)
Definition target_of (batch : Data) : result (tensor float) :=
  match y batch with
  | None => Raise AttributeError
  | Some (T1 v) => Ok (T2 ((fun l => [float_of_Z l]) <$> v))
  | Some (T2 _) => Raise ValueError
  end.

(** The body of the inner loop of [FraudDetector.train].  Moving the batch
    to the device and clearing the gradients change nothing of what [World]
    holds; the gradients are those of this pass, taken on the model and the
    generator the pass started from.  A loss that was computed with the
    grad mode off has no graph behind it: [loss.backward()] raises
    [RuntimeError] on it.  [backward] and [step] may raise as well. *)
Definition train_batch (st : opt_t * float) (batch : Data) : M (opt_t * float) :=
  let '(optimizer, total_loss) := st in
  w ← get;
  output ← forward batch;
  target ← lift (target_of batch);
  loss ← lift (bce_loss output target);
  modify (record_event (EvLoss loss));;
  (if grad_enabled w then mret tt else raise RuntimeError);;
  g ← lift (backward (model w) batch (rng w));
  w' ← get;
  '(optimizer', m') ← lift (adam_step optimizer g (model w'));
  put (record_event EvStep (with_model (set_parameters (model w') m') w'));;
  mret (optimizer', PrimFloat.add total_loss loss).

(** The body of the outer loop. *)
Definition train_epoch (train_data : list Data) (epochs : Z)
    (optimizer : opt_t) (epoch : nat) : M opt_t :=
  '(optimizer, total_loss) ← for_each train_batch (optimizer, PrimFloat.zero) train_data;
  avg_loss ← lift (div_len total_loss (length train_data));
  (if decide ((Z.of_nat epoch + 1) mod 10 = 0)
   then modify (fun w => with_stdout (stdout w ++ [(Z.of_nat epoch + 1, epochs, avg_loss)]) w)
   else mret tt);;
  mret optimizer.

(** [FraudDetector.train] *)
Definition train (train_data : list Data) (epochs : Z) (learning_rate : float)
    (batch_size : Z) : M unit :=
  modify (fun w => with_model (set_training true (model w)) w);;
  w ← get;
  optimizer ← lift (adam (model w) learning_rate);
  for_each (train_epoch train_data epochs) optimizer (seq 0 (Z.to_nat epochs));;
  mret tt.

(** [FraudDetector.save_model]: [torch.save(self.model.state_dict(), path)] *)
Definition save_model (path : string) : M unit :=
  modify (fun w => with_disk (<[path := state_dict (model w)]> (disk w)) w).

(** [nn.Module.load_state_dict(sd)], strict: the tensors that fit are
    copied, then missing, unexpected or ill-shaped keys are reported. *)
Definition load_state_dict (sd : state_dict_t) : M unit :=
  w ← get;
  modify (with_model (load_parameters sd (model w)));;
  if load_ok sd (model w) then mret tt else raise RuntimeError.

(** [FraudDetector.load_model]: [self.model.load_state_dict(torch.load(path))] *)
Definition load_model (path : string) : M unit :=
  w ← get;
  match disk w !! path with
  | None => raise FileNotFoundError
  | Some sd => load_state_dict sd
  end.

(** For the statements: the forward pass without its dropout masks, as a
    function of the model and the input alone, and what [predict] makes of
    its result. *)
Definition dropout_off (x : tensor float) (p : float) : result (tensor float) :=
  if (PrimFloat.ltb p PrimFloat.zero || PrimFloat.ltb PrimFloat.one p)%bool
  then Raise ValueError
  else Ok x.

Fixpoint convs_eval (p : float) (ei : tensor Z) (x : tensor float) (cs : list GCNConv)
    : result (tensor float) :=
  match cs with
  | [] => Ok x
  | conv :: cs' =>
      x ← gcn_conv conv x ei;
      x ← dropout_off (relu x) p;
      convs_eval p ei x cs'
  end.

Definition forward_eval (m : FraudGNN) (data : Data) : result (tensor float) :=
  x ← convs_eval (dropout m) (edge_index data) (x data) (conv_layers m);
  x ← global_mean_pool x;
  x ← linear (fc1 m) x;
  x ← dropout_off (relu x) (dropout m);
  x ← linear (fc2 m) x;
  Ok (sigmoid x).

Definition thresholded (threshold : float) (probabilities : tensor float)
    : tensor float * tensor float :=
  (probabilities,
   tmap (fun p => if gt p threshold then PrimFloat.one else PrimFloat.zero) probabilities).

End Process.

End GNN.
Export GNN.

(** ** graphrag.py: scoring *)

Module GraphRAG.

(** The dictionary [_get_explanation_context] returns; [{}] is [None]. *)
Record Explanation : Type := mkExplanation {
  ex_transaction : props;
  ex_user : option props;
  ex_related_transactions : list props
}.

(** The dictionary [predict_fraud] returns. *)
Record Scoring : Type := mkScoring {
  transaction_id : string;
  fraud_probability : float;
  is_fraudulent : bool;
  context : option Explanation
}.

(** [t[0]] *)
Definition index0 {A} (t : tensor A) : result (tensor A) :=
  match t with
  | T1 [] | T2 [] => Raise IndexError
  | T1 (a :: _) => Ok (T1 [a])
  | T2 (r :: _) => Ok (T1 r)
  end.

(** [float(t)] and [bool(t)]: for a tensor of one element. *)
Definition float_ (t : tensor float) : result float :=
  match entries t with
  | [a] => Ok a
  | _ => Raise ValueError
  end.

Definition bool_ (t : tensor float) : result bool :=
  match entries t with
  | [a] => Ok (negb (PrimFloat.eqb a PrimFloat.zero))
  | _ => Raise RuntimeError
  end.

Section Scoring.
Context {L : TorchLib}.

(** [GraphRAG.retrieve_context] *)
Definition retrieve_context (transaction_id : string) (depth : Z) : M Data :=
  w ← get;
  let '(nodes, edges) := _get_subgraph (store w) transaction_id depth in
  lift (_create_graph_data nodes edges None).

(** [GraphRAG._get_explanation_context]; [result.single()] is the first
    record, or [None] when there is none. *)
Definition _get_explanation_context (transaction_id : string) : M (option Explanation) :=
  w ← get;
  match explanation_query (store w) transaction_id with
  | [] => mret None
  | (t, u, related_transactions) :: _ =>
      mret (Some (mkExplanation (node_props t) (node_props <$> u)
                                (node_props <$> related_transactions)))
  end.

(** [GraphRAG.predict_fraud] *)
Definition predict_fraud (transaction_id : string) (threshold : float) : M Scoring :=
  graph_data ← retrieve_context transaction_id 2;
  '(probabilities, predictions) ← predict graph_data threshold;
  context ← _get_explanation_context transaction_id;
  p ← lift (index0 probabilities ≫= float_);
  b ← lift (index0 predictions ≫= bool_);
  mret (mkScoring transaction_id p b context).

End Scoring.

End GraphRAG.
Export GraphRAG.

(** ** The session: what the server says of the subgraph query

    The query of [_get_subgraph] has the parameter [$depth] as the upper
    bound of its variable-length pattern, [-[*1..$depth]-].  Cypher's
    grammar has an integer literal in that place, so a server that follows
    it refuses the query whatever its arguments are, and [session.run]
    raises [CypherSyntaxError].  [subgraph_query] above is what a server
    that takes the parameter makes of the pattern; here the outcome of
    [session.run] comes first. *)

Module Session.

(** The server at hand: whether it takes a parameter as the bound of a
    variable-length pattern. *)
Class Server : Type := { takes_parameter_bound : bool }.

Section Session.
Context {S : Server} {L : TorchLib}.

(** [session.run(query, node_id=node_id, depth=depth)] *)
Definition session_run (g : Store) (node_id : string) (depth : Z) : result (list Path) :=
  if takes_parameter_bound
  then Ok (subgraph_query g node_id depth)
  else Raise CypherSyntaxError.

(** [GraphRAG._get_subgraph] *)
Definition _get_subgraph (g : Store) (node_id : string) (depth : Z)
    : result (list NodeDict * list EdgeDict) :=
  records ← session_run g node_id depth;
  Ok (collect records).

(** [GraphRAG.retrieve_context] *)
Definition retrieve_context (transaction_id : string) (depth : Z) : M Data :=
  w ← get;
  '(nodes, edges) ← lift (_get_subgraph (store w) transaction_id depth);
  lift (_create_graph_data nodes edges None).

(** [GraphRAG.predict_fraud] *)
Definition predict_fraud (transaction_id : string) (threshold : float) : M Scoring :=
  graph_data ← retrieve_context transaction_id 2;
  '(probabilities, predictions) ← predict graph_data threshold;
  context ← _get_explanation_context transaction_id;
  p ← lift (index0 probabilities ≫= float_);
  b ← lift (index0 predictions ≫= bool_);
  mret (mkScoring transaction_id p b context).

End Session.

(** The two kinds of server. *)
Definition strict : Server := {| takes_parameter_bound := false |}.
Definition lenient : Server := {| takes_parameter_bound := true |}.

End Session.

(** ** A library to run the model on

    Kernels that keep torch's shapes and return constants: every activation
    is zero, every probability is [prob], every loss the criterion returns
    is [loss_value], and a step of the optimizer counts and leaves the
    weights.  A convolution and
    the pooling read the size of the node dimension, [x.size(-2)], which a
    tensor of rank one does not have: they raise [IndexError] on it.  Adam
    refuses a negative learning rate. *)

Module ConstLib.

Definition zeros_like (t : tensor float) : list float :=
  List.map (fun _ => PrimFloat.zero) (entries t).

Definition const_conv (c : GCNConv) (x : tensor float) (ei : tensor Z)
    : result (tensor float) :=
  match x with
  | T1 _ => Raise IndexError
  | T2 rows => Ok (T2 (List.map (fun _ => zeros_like (conv_bias c)) rows))
  end.

Definition const_pool (x : tensor float) : result (tensor float) :=
  match x with
  | T1 _ => Raise IndexError
  | T2 [] => Ok (T2 [[]])
  | T2 (r :: _) => Ok (T2 [List.map (fun _ => PrimFloat.zero) r])
  end.

Definition const_linear (l : Linear) (x : tensor float) : result (tensor float) :=
  match x with
  | T1 _ => Ok (T1 (zeros_like (bias l)))
  | T2 rows => Ok (T2 (List.map (fun _ => zeros_like (bias l)) rows))
  end.

Definition const_adam (m : FraudGNN) (lr : float) : result nat :=
  if PrimFloat.ltb lr PrimFloat.zero then Raise ValueError else Ok 0%nat.

(** The loss: as [nn.BCELoss] it refuses an output that is not within
    [0, 1], so also NaN, and it returns no value that is not finite (the
    kernel clamps its logarithms at -100). *)
Definition in_unit (p : float) : bool :=
  PrimFloat.leb PrimFloat.zero p && PrimFloat.leb p PrimFloat.one.

Definition hundred : float := Eval cbv in PrimFloat.of_uint63 100.

Definition const_bce (loss_value : float) (output target : tensor float) : result float :=
  if forallb in_unit (entries output)
  then Ok (if PrimFloat.is_finite loss_value then loss_value else hundred)
  else Raise RuntimeError.

Definition lib (prob loss_value : float) : TorchLib := {|
  rng_t := nat;
  gcn_conv := const_conv;
  relu := fun x => x;
  sigmoid := tmap (fun _ => prob);
  dropout_mask := fun _ x r => (x, S r);
  global_mean_pool := const_pool;
  linear := const_linear;
  gt := fun p threshold => PrimFloat.ltb threshold p;
  bce_loss := const_bce loss_value;
  opt_t := nat;
  adam := const_adam;
  grads_t := unit;
  backward := fun _ _ _ => Ok tt;
  adam_step := fun o _ m => Ok (S o, m)
|}.

End ConstLib.

(** ** The vocabulary of the statements *)

Module Vocabulary.

(** The two loops of [_get_subgraph] are one scheme: keep an item unless its
    key was seen. *)
Section DedupScheme.
Context {X Y K : Type} `{Countable K}.
Variables (key : X -> K) (okey : Y -> K) (mk : X -> Y).

Definition keep (st : list Y * gset K) (x : X) : list Y * gset K :=
  if decide (key x ∈ st.2) then st else (st.1 ++ [mk x], {[key x]} ∪ st.2).

Definition first_with {A} (f : A -> K) (k : K) (l : list A) : option A :=
  List.find (fun a => bool_decide (f a = k)) l.

Definition keep_inv (st : list Y * gset K) (xs : list X) : Prop :=
  (forall k, k ∈ st.2 <-> k ∈ key <$> xs)
  /\ (forall k, k ∈ okey <$> st.1 <-> k ∈ st.2)
  /\ NoDup (okey <$> st.1)
  /\ (forall k, first_with okey k st.1 = mk <$> first_with key k xs).

End DedupScheme.

(** The keys and the dictionaries of [_get_subgraph]. *)
Definition dict_key (e : EdgeDict) : Z * Z := (source e, target e).

Definition edge_of (rel : Relationship) : EdgeDict :=
  mkEdgeDict (start_id rel) (end_id rel) (rel_type rel).

Definition node_of (node : Node) : NodeDict :=
  mkNodeDict (node_id node) (_extract_node_features node).

Definition edges_state (a : Acc) : list EdgeDict * gset (Z * Z) :=
  (acc_edges a, seen_edges a).

Definition nodes_state (a : Acc) : list NodeDict * gset Z :=
  (acc_nodes a, seen_nodes a).

(** No node of the store is a transaction with this identifier. *)
Definition unknown (g : Store) (root_id : string) : Prop :=
  Forall (fun n => (has_label "Transaction" n && has_id (VStr root_id) n)%bool = false)
         (nodes g).

(** The rows that survive the [MATCH] of the update query: each declared
    relationship with each node that carries its target identifier. *)
Definition matched (ns : list Node) (relationships : list RelSpec) : list (RelSpec * Node) :=
  rel ← relationships;
  related ← List.filter (has_id (related_id rel)) ns;
  [(rel, related)].

(** The relationships the query creates from these rows. *)
Fixpoint created (next : Z) (t : Node) (rows : list (RelSpec * Node)) : list Relationship :=
  match rows with
  | [] => []
  | (rel, related) :: rest =>
      mkRel next (node_id t) (node_id related) "CONNECTED_TO" (set_props (properties rel))
      :: created (next + 1) t rest
  end.

Definition create_row (t : Node) (g : Store) (row : RelSpec * Node) : Store :=
  create_rel g "CONNECTED_TO" (properties row.1) t row.2.

(** The keys of the fully connected layers. *)
Definition is_fc (k : pname) : Prop :=
  match k with ConvBias _ | ConvLinWeight _ => False | _ => True end.

(** A parameter finds in [sd] a tensor of its shape. *)
Definition fits (sd : state_dict_t) (kv : pname * tensor float) : bool :=
  match sd_lookup kv.1 sd with
  | Some t => bool_decide (shape t = shape kv.2)
  | None => false
  end.

(** A loss and the step that follows it, for each of [losses]. *)
Definition pairs (losses : list float) : list event :=
  v ← losses; [EvLoss v; EvStep].

Section Frames.
Context {L : TorchLib}.

(** The forward pass changes the random generator at most. *)
Definition rng_only (w w' : World) : Prop := w' = with_rng (rng w') w.

End Frames.

(** What [retrieve_context] builds from no node and no edge: both tensors of
    shape (0,). *)
Definition empty_data : Data := mkData (T1 []) (T1 []) None.

(** The dictionary for an unknown transaction, from what the model returns
    on the empty tensor. *)
Definition scoring_of (root_id : string) (out : tensor float * tensor float)
    : result Scoring :=
  p ← index0 out.1 ≫= float_;
  b ← index0 out.2 ≫= bool_;
  Ok (mkScoring root_id p b None).

End Vocabulary.
Export Vocabulary.

(** ** Concrete inputs *)

Module Samples.

Definition f0 : float := Eval cbv in PrimFloat.zero.
Definition f1 : float := Eval cbv in PrimFloat.one.
Definition half : float := Eval cbv in PrimFloat.div PrimFloat.one PrimFloat.two.
Definition fnan : float := Eval cbv in PrimFloat.nan.

(** One input feature, a hidden layer of two, one output. *)
Definition gnn : FraudGNN :=
  mkFraudGNN 2 f0
    [mkGCNConv (T2 [[f0]; [f0]]) (T1 [f0; f0]);
     mkGCNConv (T2 [[f0; f0]; [f0; f0]]) (T1 [f0; f0])]
    (mkLinear (T2 [[f0; f0]]) (T1 [f0]))
    (mkLinear (T2 [[f0]]) (T1 [f0]))
    false.

(** The same architecture with other weights. *)
Definition gnn' : FraudGNN :=
  mkFraudGNN 2 f0
    [mkGCNConv (T2 [[f1]; [f1]]) (T1 [f1; f0]);
     mkGCNConv (T2 [[f0; f1]; [f1; f0]]) (T1 [f0; f1])]
    (mkLinear (T2 [[f1; f1]]) (T1 [f1]))
    (mkLinear (T2 [[f1]]) (T1 [f1]))
    true.

Definition empty_store : Store := mkStore [] [] [] 0 0.

Definition world (l : TorchLib) (m : FraudGNN) (g : Store) (r : @rng_t l) : @World l :=
  mkWorld m r true g ∅ [] [].

(** A graph of one node with a self loop, labelled fraudulent. *)
Definition example : Data := mkData (T2 [[f1]]) (T2 [[0]; [0]]) (Some (T1 [1])).

(** Two transactions and two users. *)
Definition node_T1 : Node :=
  mkNode 0 ["Transaction"] [("id", VStr "T1"); ("amount", VFloat f1)].
Definition node_U1 : Node :=
  mkNode 1 ["User"] [("id", VStr "U1"); ("risk_score", VFloat half)].
Definition node_T2 : Node :=
  mkNode 2 ["Transaction"] [("id", VStr "T2"); ("amount", VInt 3)].
Definition node_U2 : Node :=
  mkNode 3 ["User"] [("id", VStr "U2"); ("risk_score", VFloat f0)].

(** [T1 -[BELONGS_TO]-> U1] and [T1 -[CONNECTED_TO]-> U1]. *)
Definition store_parallel : Store :=
  mkStore [node_T1; node_U1]
          [mkRel 0 0 1 "BELONGS_TO" []; mkRel 1 0 1 "CONNECTED_TO" []] [] 2 2.

(** [T1 -[BELONGS_TO]-> U1], [T1 -[CONNECTED_TO]-> T2], [T2 -[BELONGS_TO]-> U2]. *)
Definition store_chain : Store :=
  mkStore [node_T1; node_U1; node_T2; node_U2]
          [mkRel 0 0 1 "BELONGS_TO" []; mkRel 1 0 2 "CONNECTED_TO" [];
           mkRel 2 2 3 "BELONGS_TO" []] [] 4 3.

(** The relationship [api/routes.py] declares, and its transaction. *)
Definition belongs_to_U1 : RelSpec :=
  mkRelSpec (VStr "U1") [("type", VStr "BELONGS_TO")].

Definition T1_data : props := [("id", VStr "T1"); ("user_id", VStr "U1")].

(** A store that knows the user, with the constraints of [init_data.py]. *)
Definition user_U1 : Node := mkNode 0 ["User"] [("id", VStr "U1")].

Definition store_U1 : Store :=
  mkStore [user_U1] [] [("User", "id"); ("Transaction", "id")] 1 0.

(** The default learning rate, 0.001. *)
Definition lr : float := Eval cbv in PrimFloat.div PrimFloat.one (PrimFloat.of_uint63 1000).

End Samples.

(** ** api/routes.py: the handlers

    A handler returns a value or raises [HTTPException(500, detail)]; the
    detail is the text of the exception caught, kept here as the exception
    itself.  [routes.py] does not import [torch]: where it names it, Python
    raises [NameError]. *)

Module Routes.

(** The request body of [/predict]. *)
Record Transaction : Type := mkTransaction {
  tx_id : string;
  tx_amount : float;
  tx_timestamp : string;
  tx_user_id : string;
  tx_features : list float
}.

(** [transaction.dict()] *)
Definition dict_ (t : Transaction) : props :=
  [("id", VStr (tx_id t)); ("amount", VFloat (tx_amount t));
   ("timestamp", VStr (tx_timestamp t)); ("user_id", VStr (tx_user_id t));
   ("features", VFloats (tx_features t))].

Inductive route_exn : Type :=
  | Lib (e : exn)
  | NameError.

Inductive outcome (A : Type) : Type :=
  | Returns (a : A)
  | Raises (e : route_exn).
Arguments Returns {A} a.
Arguments Raises {A} e.

(** What a handler answers. *)
Inductive response (A : Type) : Type :=
  | Answer (a : A)
  | HTTPException500 (detail : route_exn).
Arguments Answer {A} a.
Arguments HTTPException500 {A} detail.

(** [node[key]] for a node of the driver: the property, and [None] for a
    key the node does not have. *)
Definition node_get (k : string) (n : Node) : result value :=
  match List.find (fun kv => String.eqb (fst kv) k) (node_props n) with
  | Some kv => Ok (snd kv)
  | None => Ok VNull
  end.

(** [WHERE t.fraud_probability >= $threshold]: a number that is at least
    the threshold; null and values that are no numbers do not pass. *)
Definition at_least (threshold : float) (v : value) : bool :=
  match v with
  | VInt z => PrimFloat.leb threshold (float_of_Z z)
  | VFloat f => PrimFloat.leb threshold f
  | _ => false
  end.

Definition is_null (v : value) : bool :=
  match v with VNull => true | _ => false end.

(** [MATCH (t:Transaction)-[:BELONGS_TO]->(u:User {id: $user_id}) RETURN t],
    before the [ORDER BY]: one row for each such relationship. *)
Definition user_transaction_rows (g : Store) (user_id : string) : list Node :=
  r ← List.filter (fun r => String.eqb (rel_type r) "BELONGS_TO") (rels g);
  match find_node g (start_id r), find_node g (end_id r) with
  | Some t, Some u =>
      if (has_label "Transaction" t && has_label "User" u && has_id (VStr user_id) u)%bool
      then [t] else []
  | _, _ => []
  end.

(** [MATCH (t:Transaction) WHERE t.fraud_probability >= $threshold RETURN t],
    before the [ORDER BY]. *)
Definition alert_rows (g : Store) (threshold : float) : list Node :=
  List.filter (fun t => has_label "Transaction" t
                        && at_least threshold (prop "fraud_probability" (node_props t)))
              (nodes g).

(** [MATCH (t:Transaction) WHERE t.label IS NOT NULL RETURN t] *)
Definition labelled_rows (g : Store) : list Node :=
  List.filter (fun t => has_label "Transaction" t
                        && negb (is_null (prop "label" (node_props t))))
              (nodes g).

(** The subgraph query for an identifier of any type. *)
Definition subgraph_query_by (g : Store) (node_id : value) (depth : Z) : list Path :=
  start ← List.filter (fun n => has_label "Transaction" n && has_id node_id n) (nodes g);
  (fun w => mkPath (start :: w.*2) w.*1) <$> walks g (Z.to_nat depth) start [].

Section Handlers.
Context {L : TorchLib}.

(** The store's [ORDER BY key DESC]. *)
Variable order_by_desc : string -> list Node -> list Node.

Definition with_store (g : Store) (w : World) : World :=
  mkWorld (model w) (rng w) (grad_enabled w) g (disk w) (stdout w) (history w).

(** [graphrag.update_graph] on the store of the process. *)
Definition graphrag_update_graph (transaction_data : props)
    (relationships : list RelSpec) : M unit := fun w =>
  match update_graph (store w) transaction_data relationships with
  | Ok g => (Ok tt, with_store g w)
  | Raise e => (Raise e, w)
  end.

(** [graphrag.retrieve_context(v)] for the value of a node's ["id"]. *)
Definition retrieve_context_by (transaction_id : value) (depth : Z) : M Data :=
  w ← get;
  let '(nodes, edges) := collect (subgraph_query_by (store w) transaction_id depth) in
  lift (_create_graph_data nodes edges None).

(** The body of a handler: a computation that may also raise [NameError]. *)
Definition R (A : Type) : Type := World -> outcome A * World.

#[export] Instance R_ret : MRet R := fun A a w => (Returns a, w).
#[export] Instance R_bind : MBind R := fun A B f m w =>
  match m w with
  | (Returns a, w') => f a w'
  | (Raises e, w') => (Raises e, w')
  end.

Definition run {A} (m : M A) : R A := fun w =>
  match m w with
  | (Ok a, w') => (Returns a, w')
  | (Raise e, w') => (Raises (Lib e), w')
  end.

(** [torch.tensor(...)] in [routes.py]. *)
Definition torch_tensor {A} : R A := fun w => (Raises NameError, w).

(** [try: body except Exception as e: raise HTTPException(500, str(e))] *)
Definition handler {A} (body : R A) (w : World) : response A * World :=
  match body w with
  | (Returns a, w') => (Answer a, w')
  | (Raises e, w') => (HTTPException500 e, w')
  end.

Fixpoint for_each_R {A B} (body : B -> A -> R B) (acc : B) (l : list A) : R B :=
  match l with
  | [] => mret acc
  | a :: l' => acc' ← body acc a; for_each_R body acc' l'
  end.

(** [POST /predict] *)
Definition route_predict_fraud (transaction : Transaction) : World -> response Scoring * World :=
  handler (
    let transaction_data := dict_ transaction in
    let relationships :=
      [mkRelSpec (VStr (tx_user_id transaction)) [("type", VStr "BELONGS_TO")]] in
    run (graphrag_update_graph transaction_data relationships);;
    run (predict_fraud (tx_id transaction) Samples.half)).

(** [GET /transaction/{transaction_id}] *)
Definition route_get_transaction (transaction_id : string) : World -> response Scoring * World :=
  handler (run (predict_fraud transaction_id Samples.half)).

(** [GET /user/{user_id}/transactions] *)
Definition route_get_user_transactions (user_id : string)
    : World -> response (list props) * World :=
  handler (
    w ← run get;
    mret (node_props <$> order_by_desc "timestamp" (user_transaction_rows (store w) user_id))).

(** [GET /alerts] *)
Definition route_get_fraud_alerts (threshold : float)
    : World -> response (list props) * World :=
  handler (
    w ← run get;
    mret (node_props <$> order_by_desc "fraud_probability" (alert_rows (store w) threshold))).

(** The loop of [/train] over the labelled transactions. *)
Definition labelled_data : R (list Data) :=
  w ← run get;
  for_each_R (fun training_data transaction =>
                id ← run (lift (node_get "id" transaction));
                graph_data ← run (retrieve_context_by id 2);
                label ← torch_tensor;
                mret (training_data ++ [mkData (x graph_data) (edge_index graph_data) (Some label)]))
             [] (labelled_rows (store w)).

(** [POST /train] *)
Definition route_train_model (epochs : Z) : World -> response string * World :=
  handler (
    training_data ← labelled_data;
    run (train training_data epochs Samples.lr 32);;
    mret "Model training completed successfully").

End Handlers.

End Routes.
Export Routes.

(** ** gnn.py: construction and evaluation *)

Module Detector.

(** The elements a loop over a tensor meets, as [list.extend] takes them:
    the scalars of a vector, the rows of a matrix. *)
Definition items {A} (t : tensor A) : list (list A) :=
  match t with
  | T1 v => (fun a => [a]) <$> v
  | T2 rows => rows
  end.

(** [1 if p > 0.5 else 0] for an element of [all_preds]: the truth value of
    an array is that of its one element. *)
Definition above_half (p : list float) : result Z :=
  match p with
  | [a] => Ok (if PrimFloat.ltb Samples.half a then 1 else 0)
  | _ => Raise ValueError
  end.

(** [batch.y.cpu().numpy()] *)
Definition labels_of (batch : Data) : result (list (list Z)) :=
  match y batch with
  | None => Raise AttributeError
  | Some t => Ok (items t)
  end.

Section Evaluation.
Context {L : TorchLib}.

(** [sklearn.metrics.accuracy_score] and [roc_auc_score]. *)
Variable accuracy_score : list (list Z) -> list Z -> result float.
Variable roc_auc_score : list (list Z) -> list (list float) -> result float.

(** The body of the loop of [FraudDetector.evaluate]. *)
Definition evaluate_batch (acc : list (list float) * list (list Z)) (batch : Data)
    : M (list (list float) * list (list Z)) :=
  let '(all_preds, all_labels) := acc in
  '(probabilities, predictions) ← predict batch Samples.half;
  labels ← lift (labels_of batch);
  mret (all_preds ++ items probabilities, all_labels ++ labels).

(** What [evaluate] does with the two lists. *)
Definition metrics (acc : list (list float) * list (list Z)) : result (float * float) :=
  let '(all_preds, all_labels) := acc in
  predicted ← mapM above_half all_preds;
  accuracy ← accuracy_score all_labels predicted;
  auc ← roc_auc_score all_labels all_preds;
  Ok (accuracy, auc).

(** [FraudDetector.evaluate] *)
Definition evaluate (test_data : list Data) : M (float * float) :=
  modify (fun w => with_model (set_training false (model w)) w);;
  acc ← no_grad (for_each evaluate_batch ([], []) test_data);
  lift (metrics acc).

(** For the statements: the two lists as a function of the model and the
    data. *)
Fixpoint gathered (m : FraudGNN) (acc : list (list float) * list (list Z))
    (test_data : list Data) : result (list (list float) * list (list Z)) :=
  match test_data with
  | [] => Ok acc
  | batch :: rest =>
      probabilities ← forward_eval m batch;
      labels ← labels_of batch;
      gathered m (acc.1 ++ items probabilities, acc.2 ++ labels) rest
  end.

End Evaluation.

Section Construction.
Context {L : TorchLib}.

(** [GCNConv(in_channels, out_channels, dropout=dropout)] and
    [nn.Linear(in_features, out_features)]: they draw the first weights
    from the random generator. *)
Variable new_conv : Z -> Z -> float -> rng_t -> result (GCNConv * rng_t).
Variable new_linear : Z -> Z -> rng_t -> result (Linear * rng_t).

(** [[GCNConv(hidden_dim, hidden_dim, dropout=dropout) for _ in range(n)]] *)
Fixpoint hidden_convs (n : nat) (hidden_dim : Z) (dropout : float) (r : rng_t)
    : result (list GCNConv * rng_t) :=
  match n with
  | O => Ok ([], r)
  | S n' =>
      '(c, r) ← new_conv hidden_dim hidden_dim dropout r;
      '(cs, r) ← hidden_convs n' hidden_dim dropout r;
      Ok (c :: cs, r)
  end.

(** [FraudGNN.__init__]; a new module is in training mode. *)
Definition FraudGNN_init (input_dim hidden_dim output_dim num_layers : Z) (dropout : float)
    (r : rng_t) : result (FraudGNN * rng_t) :=
  '(first, r) ← new_conv input_dim hidden_dim dropout r;
  '(middle, r) ← hidden_convs (Z.to_nat (num_layers - 2)) hidden_dim dropout r;
  '(last, r) ← new_conv hidden_dim hidden_dim dropout r;
  '(fc1, r) ← new_linear hidden_dim (hidden_dim / 2) r;
  '(fc2, r) ← new_linear (hidden_dim / 2) output_dim r;
  Ok (mkFraudGNN num_layers dropout ([first] ++ middle ++ [last]) fc1 fc2 true, r).

(** The shapes of the parameters of a layer are those its dimensions give,
    whatever the dropout rate and the state of the random generator. *)
Definition conv_shapes : Prop :=
  forall i o d d' r1 r2 c1 c2 r1' r2',
    new_conv i o d r1 = Ok (c1, r1') ->
    new_conv i o d' r2 = Ok (c2, r2') ->
    same_conv c1 c2.

Definition linear_shapes : Prop :=
  forall i o r1 r2 l1 l2 r1' r2',
    new_linear i o r1 = Ok (l1, r1') ->
    new_linear i o r2 = Ok (l2, r2') ->
    same_linear l1 l2.

End Construction.

End Detector.
Export Detector.

(** Constructors to evaluate with: all weights zero, the random generator
    counts the layers made, negative dimensions are refused. *)
Module ConstInit.

Definition zeros (rows cols : Z) : tensor float :=
  T2 (replicate (Z.to_nat rows) (replicate (Z.to_nat cols) PrimFloat.zero)).

Definition new_conv (i o : Z) (d : float) (r : nat) : result (GCNConv * nat) :=
  if ((i <? 0) || (o <? 0))%bool then Raise RuntimeError
  else Ok (mkGCNConv (zeros o i) (T1 (replicate (Z.to_nat o) PrimFloat.zero)), S r).

Definition new_linear (i o : Z) (r : nat) : result (Linear * nat) :=
  if ((i <? 0) || (o <? 0))%bool then Raise RuntimeError
  else Ok (mkLinear (zeros o i) (T1 (replicate (Z.to_nat o) PrimFloat.zero)), S r).

End ConstInit.

(** ** routes.py: the model status *)

Module Status.

(** The dictionary [get_model_status] returns. *)
Record ModelStatus : Type := mkModelStatus {
  accuracy : float;
  auc : float;
  model_path : string
}.

Section Handler.
Context {L : TorchLib}.
Variable accuracy_score : list (list Z) -> list Z -> result float.
Variable roc_auc_score : list (list Z) -> list (list float) -> result float.

(** [settings.MODEL_PATH] *)
Variable MODEL_PATH : string.

(** The loop of [/model/status] over the rows of
    [MATCH (t:Transaction) WHERE t.label IS NOT NULL RETURN t LIMIT 100]. *)
Definition test_data : R (list Data) :=
  w ← run get;
  for_each_R (fun test_data transaction =>
                id ← run (lift (node_get "id" transaction));
                graph_data ← run (retrieve_context_by id 2);
                label ← torch_tensor;
                mret (test_data ++ [mkData (x graph_data) (edge_index graph_data) (Some label)]))
             [] (take 100 (labelled_rows (store w))).

(** [GET /model/status] *)
Definition route_get_model_status : World -> response ModelStatus * World :=
  handler (
    test_data ← test_data;
    '(accuracy, auc) ← run (evaluate accuracy_score roc_auc_score test_data);
    mret (mkModelStatus accuracy auc MODEL_PATH)).

End Handler.

(** A store with one labelled transaction. *)
Definition node_L1 : Node :=
  mkNode 0 ["Transaction"] [("id", VStr "L1"); ("amount", VFloat Samples.f1); ("label", VInt 1)].

Definition store_labelled : Store := mkStore [node_L1] [] [] 1 0.

End Status.
Export Status.

(** ** database.py and main.py: the connections of the process *)

Module Database.

(** [DatabaseManager]: its two attributes.  A client or a driver is named by
    the order in which the process made it. *)
Record DatabaseManager : Type := mkDatabaseManager {
  supabase : option nat;
  neo4j_driver : option nat
}.

(** The process around [db_manager]: the drivers made so far, each open
    ([true]) or closed, the number of Supabase clients made, and the errors
    [verify_connections] printed. *)
Record Process : Type := mkProcess {
  db_manager : DatabaseManager;
  drivers : list bool;
  clients : nat;
  printed : list exn
}.

(** [DatabaseManager()] in a new process. *)
Definition started : Process := mkProcess (mkDatabaseManager None None) [] 0 [].

(** What [/health] reports. *)
Record Health : Type := mkHealth {
  status : string;
  neo4j : bool;
  supabase_ : bool
}.

(** What becomes of [startup_event]. *)
Inductive startup : Type :=
  | Up
  | Failed (message : string).

Section Manager.

(** [create_client(settings.SUPABASE_URL, settings.SUPABASE_KEY)] and
    [GraphDatabase.driver(settings.NEO4J_URI, auth=...)]: whether the
    settings of the process are accepted. *)
Variable create_client : result unit.
Variable GraphDatabase_driver : result unit.

(** [DatabaseManager.init_supabase] *)
Definition init_supabase (p : Process) : result nat * Process :=
  match supabase (db_manager p) with
  | Some c => (Ok c, p)
  | None =>
      match create_client with
      | Ok _ =>
          let c := clients p in
          (Ok c, mkProcess (mkDatabaseManager (Some c) (neo4j_driver (db_manager p)))
                           (drivers p) (S c) (printed p))
      | Raise e => (Raise e, p)
      end
  end.

(** [DatabaseManager.init_neo4j] *)
Definition init_neo4j (p : Process) : result nat * Process :=
  match neo4j_driver (db_manager p) with
  | Some d => (Ok d, p)
  | None =>
      match GraphDatabase_driver with
      | Ok _ =>
          let d := length (drivers p) in
          (Ok d, mkProcess (mkDatabaseManager (supabase (db_manager p)) (Some d))
                           (drivers p ++ [true]) (clients p) (printed p))
      | Raise e => (Raise e, p)
      end
  end.

(** [DatabaseManager.close_neo4j] *)
Definition close_neo4j (p : Process) : Process :=
  match neo4j_driver (db_manager p) with
  | Some d =>
      mkProcess (mkDatabaseManager (supabase (db_manager p)) None)
                (<[d := false]> (drivers p)) (clients p) (printed p)
  | None => p
  end.

Definition print (e : exn) (p : Process) : Process :=
  mkProcess (db_manager p) (drivers p) (clients p) (printed p ++ [e]).

(** [DatabaseManager.verify_connections]; [table_query] and [count_query]
    are what the two requests to the servers come to. *)
Definition verify_connections (table_query count_query : result unit) (p : Process)
    : bool * Process :=
  match init_supabase p with
  | (Raise e, p1) => (false, print e p1)
  | (Ok _, p1) =>
      match table_query with
      | Raise e => (false, print e p1)
      | Ok _ =>
          match init_neo4j p1 with
          | (Raise e, p2) => (false, print e p2)
          | (Ok _, p2) =>
              match count_query with
              | Raise e => (false, print e p2)
              | Ok _ => (true, p2)
              end
          end
      end
  end.

(** [get_supabase], [get_neo4j] and [close_neo4j] of the module. *)
Definition get_supabase : Process -> result nat * Process := init_supabase.
Definition get_neo4j : Process -> result nat * Process := init_neo4j.

(** [main.py]: [startup_event], [shutdown_event] and [health_check]. *)
Definition startup_event (table_query count_query : result unit) (p : Process)
    : startup * Process :=
  let '(ok, p') := verify_connections table_query count_query p in
  (if ok then Up else Failed "Failed to connect to databases", p').

Definition shutdown_event (p : Process) : Process := close_neo4j p.

Definition health_check (p : Process) : Health :=
  mkHealth "healthy"
           (bool_decide (neo4j_driver (db_manager p) <> None))
           (bool_decide (supabase (db_manager p) <> None)).

(** The calls a process can make, and a run of them. *)
Inductive call : Type :=
  | GetSupabase
  | GetNeo4j
  | CloseNeo4j
  | VerifyConnections (table_query count_query : result unit).

Definition step (p : Process) (c : call) : Process :=
  match c with
  | GetSupabase => (get_supabase p).2
  | GetNeo4j => (get_neo4j p).2
  | CloseNeo4j => close_neo4j p
  | VerifyConnections table_query count_query =>
      (verify_connections table_query count_query p).2
  end.

Definition calls (cs : list call) (p : Process) : Process := foldl step p cs.

(** The open drivers are the one the manager holds, if it holds one; the
    clients made are the one it holds. *)
Definition tidy (p : Process) : Prop :=
  (forall d, drivers p !! d = Some true <-> neo4j_driver (db_manager p) = Some d)
  /\ clients p = match supabase (db_manager p) with Some _ => 1%nat | None => 0%nat end.

End Manager.

End Database.
Export Database.

(** ** kafka_consumer.py: the transaction processor, and the loops of
    kafka_client.py that drive it *)

Module Kafka.

(** A message once deserialized: a dictionary. *)
Definition dict : Type := gmap string value.

(** [d[k]] *)
Definition getitem (k : string) (d : dict) : result value :=
  match d !! k with
  | Some v => Ok v
  | None => Raise KeyError
  end.

(** [d.get(k, 0)] *)
Definition get_or_0 (k : string) (d : dict) : value := default (VInt 0) (d !! k).

(** The literal [0.7]. *)
Definition c07 : float :=
  Eval cbv in PrimFloat.div (PrimFloat.of_uint63 7) (PrimFloat.of_uint63 10).

(** [v > 0.7]: numbers compare by value, an integer exactly; anything else
    does not compare with a float. *)
Definition gt_07 (v : value) : result bool :=
  match v with
  | VBool b => Ok b
  | VInt z => Ok (1 <=? z)
  | VFloat f => Ok (PrimFloat.ltb c07 f)
  | VNull | VStr _ | VFloats _ => Raise TypeError
  end.

(** [v == 1] *)
Definition eq_1 (v : value) : bool :=
  match v with
  | VBool b => b
  | VInt z => z =? 1
  | VFloat f => PrimFloat.eqb f PrimFloat.one
  | VNull | VStr _ | VFloats _ => false
  end.

(** The fields of the Alert schema in [kafka_client.py]. *)
Definition alert_schema_fields : list string :=
  ["transaction_id"; "fraud_probability"; "is_fraudulent"; "timestamp"; "context"].

(** [TransactionProcessor]: its counters and its flag. *)
Record TransactionProcessor : Type := mkTransactionProcessor {
  running : bool;
  processed_count : Z;
  fraud_count : Z
}.

(** The lines the processor and the loops print. *)
Inductive line : Type :=
  | GeneratedAlert (id : value)
  | Processed (n : Z)
  | Fraudulent (n : Z)
  | FraudRate (fraud processed : Z)
  | ReceivedAlert (id : value)
  | TransactionID (id : value)
  | RiskScore (v : value)
  | Status (v : value)
  | Rule
  | ConsumerError (code : Z)
  | ErrorProcessingMessage (e : exn)
  | ErrorInConsumer (e : exn)
  | ProcessorStarted.

Section Processor.

(** The state of the Kafka client and of what is behind it, and
    [KafkaClient.produce_alert] on it. *)
Variable K : Type.
Variable produce_alert : dict -> K -> result unit * K.

(** [f"{v}"] *)
Variable str_ : value -> string.

(** The process: the processor, the client, what was printed, and the
    alerts that were handed to [produce_alert]. *)
Record Consumer : Type := mkConsumer {
  processor : TransactionProcessor;
  kafka : K;
  output : list line;
  handed : list dict
}.

(** [TransactionProcessor(kafka_client)] *)
Definition new (k : K) : Consumer :=
  mkConsumer (mkTransactionProcessor false 0 0) k [] [].

Definition say (l : list line) (s : Consumer) : Consumer :=
  mkConsumer (processor s) (kafka s) (output s ++ l) (handed s).

(** The dictionary [alert] of [process_transaction]. *)
Definition build_alert (transaction : dict) : result dict :=
  id ← getitem "id" transaction;
  transaction_id ← getitem "id" transaction;
  user_id ← getitem "user_id" transaction;
  amount ← getitem "amount" transaction;
  timestamp ← getitem "timestamp" transaction;
  risk_score ← getitem "fraud_probability" transaction;
  Ok (<["id" := VStr ("alert_" +:+ str_ id)]>
      (<["transaction_id" := transaction_id]>
      (<["user_id" := user_id]>
      (<["amount" := amount]>
      (<["timestamp" := timestamp]>
      (<["risk_score" := risk_score]>
      (<["alert_type" := VStr "high_risk_transaction"]>
      (<["status" := VStr "new"]> ∅)))))))).

(** The statistics at every hundredth transaction. *)
Definition statistics (s : Consumer) : result unit * Consumer :=
  let n := processed_count (processor s) in
  if decide (n mod 100 = 0)
  then if decide (n = 0)
       then (Raise ZeroDivisionError,
             say [Processed n; Fraudulent (fraud_count (processor s))] s)
       else (Ok tt, say [Processed n; Fraudulent (fraud_count (processor s));
                         FraudRate (fraud_count (processor s)) n] s)
  else (Ok tt, s).

(** [TransactionProcessor.process_transaction] *)
Definition process_transaction (transaction : dict) (s : Consumer) : result unit * Consumer :=
  let p := processor s in
  let s1 := mkConsumer (mkTransactionProcessor (running p) (processed_count p + 1)
                                               (fraud_count p))
                       (kafka s) (output s) (handed s) in
  match gt_07 (get_or_0 "fraud_probability" transaction) with
  | Raise e => (Raise e, s1)
  | Ok high =>
      if (high || eq_1 (get_or_0 "label" transaction))%bool
      then
        let s2 := mkConsumer (mkTransactionProcessor (running p) (processed_count p + 1)
                                                     (fraud_count p + 1))
                             (kafka s) (output s) (handed s) in
        match build_alert transaction with
        | Raise e => (Raise e, s2)
        | Ok alert =>
            let '(r, k) := produce_alert alert (kafka s2) in
            let s3 := mkConsumer (processor s2) k (output s2) (handed s2 ++ [alert]) in
            match r with
            | Raise e => (Raise e, s3)
            | Ok _ =>
                match getitem "id" transaction with
                | Raise e => (Raise e, s3)
                | Ok id => statistics (say [GeneratedAlert id] s3)
                end
            end
        end
      else statistics s1
  end.

(** [TransactionProcessor.process_alerts] *)
Definition process_alerts (alert : dict) (s : Consumer) : result unit * Consumer :=
  match getitem "id" alert with
  | Raise e => (Raise e, s)
  | Ok id =>
      let s := say [ReceivedAlert id] s in
      match getitem "transaction_id" alert with
      | Raise e => (Raise e, s)
      | Ok t =>
          let s := say [TransactionID t] s in
          match getitem "risk_score" alert with
          | Raise e => (Raise e, s)
          | Ok v =>
              let s := say [RiskScore v] s in
              match getitem "status" alert with
              | Raise e => (Raise e, s)
              | Ok st => (Ok tt, say [Status st; Rule] s)
              end
          end
      end
  end.

(** What [consumer.poll(1.0)] comes to. *)
Inductive polled : Type :=
  | NoMessage
  | PartitionEOF
  | OtherError (code : Z)
  | Message (payload : string)
  | PollRaises (e : exn).

(** A poll after which the loop goes on, and the number of polls that are
    errors of the consumer. *)
Definition goes_on (p : polled) : Prop :=
  match p with
  | OtherError _ | PollRaises _ => False
  | NoMessage | PartitionEOF | Message _ => True
  end.

Definition is_error (p : polled) : bool :=
  match p with OtherError _ => true | _ => false end.

Definition errors (polls : list polled) : nat := length (List.filter is_error polls).

(** How far a loop got on the polls it was given: it left by [break], it
    raised, or it is still polling. *)
Inductive ending : Type :=
  | Broke (rest : list polled)
  | Raised (e : exn)
  | Polling.

(** The [while True] loop of [consume_transactions] and [consume_alerts],
    on the first polls of the consumer. *)
Fixpoint consume_loop (deserializer : string -> result dict)
    (callback : dict -> Consumer -> result unit * Consumer)
    (polls : list polled) (s : Consumer) : ending * Consumer :=
  match polls with
  | [] => (Polling, s)
  | NoMessage :: rest => consume_loop deserializer callback rest s
  | PartitionEOF :: rest => consume_loop deserializer callback rest s
  | OtherError code :: rest => (Broke rest, say [ConsumerError code] s)
  | PollRaises e :: _ => (Raised e, say [ErrorInConsumer e] s)
  | Message payload :: rest =>
      match deserializer payload with
      | Raise e =>
          consume_loop deserializer callback rest (say [ErrorProcessingMessage e] s)
      | Ok message =>
          match callback message s with
          | (Raise e, s') =>
              consume_loop deserializer callback rest (say [ErrorProcessingMessage e] s')
          | (Ok _, s') => consume_loop deserializer callback rest s'
          end
      end
  end.

(** The two deserializers of the client. *)
Variable transaction_deserializer : string -> result dict.
Variable alert_deserializer : string -> result dict.

(** [TransactionProcessor.start_processing], with the consumer at hand and
    its subscriptions accepted. *)
Definition start_processing (polls : list polled) (s : Consumer) : ending * Consumer :=
  let s := mkConsumer (mkTransactionProcessor true (processed_count (processor s))
                                              (fraud_count (processor s)))
                      (kafka s) (output s) (handed s) in
  match consume_loop transaction_deserializer process_transaction polls s with
  | (Broke rest, s1) =>
      match consume_loop alert_deserializer process_alerts rest s1 with
      | (Broke rest', s2) => (Broke rest', say [ProcessorStarted] s2)
      | other => other
      end
  | other => other
  end.

(** For the statements: the messages of a list of polls, up to the first
    error that ends the loop. *)
Fixpoint delivered (deserializer : string -> result dict) (polls : list polled) : list dict :=
  match polls with
  | [] => []
  | NoMessage :: rest | PartitionEOF :: rest => delivered deserializer rest
  | OtherError _ :: _ | PollRaises _ :: _ => []
  | Message payload :: rest =>
      match deserializer payload with
      | Ok message => message :: delivered deserializer rest
      | Raise _ => delivered deserializer rest
      end
  end.

(** The state after a list of calls of a callback, whatever they raise. *)
Definition after (callback : dict -> Consumer -> result unit * Consumer)
    (messages : list dict) (s : Consumer) : Consumer :=
  foldl (fun s message => (callback message s).2) s messages.

End Processor.

Arguments processor {K} c.
Arguments kafka {K} c.
Arguments output {K} c.
Arguments handed {K} c.

End Kafka.

(** ** The vocabulary of the training run *)

Module TrainVocabulary.

Section Kept.
Context {L : TorchLib}.

(** What a training run has no business with: the mode flag, the
    attributes [num_layers] and [dropout], the grad mode, the graph store
    and the files. *)
Definition train_kept (w w' : World) : Prop :=
  training (model w') = training (model w)
  /\ GNN.num_layers (model w') = GNN.num_layers (model w)
  /\ GNN.dropout (model w') = GNN.dropout (model w)
  /\ grad_enabled w' = grad_enabled w
  /\ store w' = store w
  /\ disk w' = disk w.

(** The contract of the criterion, as [nn.BCELoss] keeps it: it returns no
    loss that is not finite. *)
Definition finite_losses : Prop :=
  forall output target v, bce_loss output target = Ok v -> PrimFloat.is_finite v = true.

(** A loss the criterion returned. *)
Definition returned (v : float) : Prop :=
  exists output target, bce_loss output target = Ok v.

End Kept.

(** What a run adds to the history: a loss and its step for each of
    [losses], and at the end the loss of a pass that did not get to its
    step, if there is one. *)
Definition observed (losses : list float) (last : option float) : list event :=
  pairs losses ++ (EvLoss <$> option_list last).

(** A step of the optimizer that comes after a loss that is not finite. *)
Definition steps_after_nonfinite_loss (h : list event) : Prop :=
  exists i j v,
    h !! i = Some (EvLoss v) /\ PrimFloat.is_finite v = false
    /\ (i < j)%nat /\ h !! j = Some EvStep.

(** The passes that end with a line of output: every tenth. *)
Definition tenth (epoch : nat) : Prop := (Z.of_nat epoch + 1) mod 10 = 0.

#[export] Instance tenth_dec epoch : Decision (tenth epoch) :=
  decide ((Z.of_nat epoch + 1) mod 10 = 0).

(** The epoch numbers a run of [len] passes from pass [start] on prints. *)
Definition due (start len : nat) : list Z :=
  (fun epoch => Z.of_nat epoch + 1) <$> filter tenth (seq start len).

Definition line_epochs (lines : list (Z * Z * float)) : list Z :=
  (fun line => line.1.1) <$> lines.

End TrainVocabulary.
Export TrainVocabulary.

(** ** More vocabulary *)

Module Vocabulary2.

(** The values [_extract_node_features] keeps. *)
Definition is_number (v : value) : bool :=
  match v with
  | VInt _ | VFloat _ | VBool _ => true
  | _ => false
  end.

(** No relationship of the store starts or ends at the identifier the next
    node will get. *)
Definition next_id_free (g : Store) : Prop :=
  Forall (fun r => start_id r <> next_node_id g /\ end_id r <> next_node_id g) (rels g).

(** Along a walk, every relationship joins nodes of the walk. *)
Definition joined (cur : Node) (w : list (Relationship * Node)) : Prop :=
  Forall (fun rn => start_id rn.1 ∈ node_id cur :: (node_id <$> w.*2)
                    /\ end_id rn.1 ∈ node_id cur :: (node_id <$> w.*2)) w.

(** The dictionary [_get_explanation_context] returns on a store. *)
Definition explanation_of (g : Store) (transaction_id : string) : option Explanation :=
  match explanation_query g transaction_id with
  | [] => None
  | (t, u, related_transactions) :: _ =>
      Some (mkExplanation (node_props t) (node_props <$> u)
                          (node_props <$> related_transactions))
  end.

(** The dictionary [predict_fraud] returns, from what the model returned. *)
Definition scoring_with (transaction_id : string) (context : option Explanation)
    (out : tensor float * tensor float) : result Scoring :=
  p ← index0 out.1 ≫= float_;
  b ← index0 out.2 ≫= bool_;
  Ok (mkScoring transaction_id p b context).

(** The tensor [retrieve_context] builds on a store. *)
Definition context_tensor (g : Store) (transaction_id : string) (depth : Z) : result Data :=
  _create_graph_data (_get_subgraph g transaction_id depth).1
                     (_get_subgraph g transaction_id depth).2 None.

End Vocabulary2.
Export Vocabulary2.

(** * Properties *)

(** ** The tensor builder *)

Section Build.

Lemma to_long_ok z : in_long z -> to_long z = Ok z.
Proof. intros Hz. unfold to_long. destruct (decide _) as [|Hn]; [done | by destruct Hn]. Qed.

Lemma long_list_ok (l : list Z) : Forall in_long l -> mapM to_long l = Ok l.
Proof.
  induction 1 as [|z l Hz _ IH]; [done |].
  cbn. rewrite (to_long_ok z Hz). cbn. fold (mapM to_long l). rewrite IH. done.
Qed.

Lemma edge_rows_ok edges :
  Forall (fun e => in_long (source e) /\ in_long (target e)) edges ->
  edge_rows edges = Ok (raw_rows edges).
Proof.
  induction 1 as [|e l [Hs Ht] _ IH]; [done |].
  unfold edge_rows in *. cbn. rewrite (to_long_ok _ Hs). cbn.
  rewrite (to_long_ok _ Ht). cbn.
  rewrite IH. done.
Qed.

Lemma raw_rows_uniform edges : uniform (raw_rows edges) = true.
Proof.
  destruct edges as [|e l]; [done |]. cbn.
  induction l as [|e' l IH]; [done |]. cbn. exact IH.
Qed.

Lemma raw_rows_column0 edges :
  omap (fun row : list Z => row !! 0%nat) (raw_rows edges) = List.map source edges.
Proof. induction edges as [|e l IH]; [done |]. cbn. f_equal. exact IH. Qed.

Lemma raw_rows_column1 edges :
  omap (fun row : list Z => row !! 1%nat) (raw_rows edges) = List.map target edges.
Proof. induction edges as [|e l IH]; [done |]. cbn. f_equal. exact IH. Qed.

Lemma edge_index_raw edges :
  (tensor_of_rows (raw_rows edges) ≫= fun ei => Ok (t_ ei)) = Ok (raw_edge_index edges).
Proof.
  destruct edges as [|e l]; [done |].
  unfold tensor_of_rows. rewrite raw_rows_uniform.
  change (raw_rows (e :: l)) with ([source e; target e] :: raw_rows l).
  cbn [mbind result_bind t_ transpose length seq fmap list_fmap].
  change ([source e; target e] :: raw_rows l) with (raw_rows (e :: l)).
  by rewrite raw_rows_column0, raw_rows_column1.
Qed.

(** What [_create_graph_data] returns when the feature rows have one length
    and the integers fit 64 bits. *)
Lemma create_graph_data_ok nodes edges labels :
  uniform (List.map nd_features nodes) = true ->
  Forall (fun e => in_long (source e) /\ in_long (target e)) edges ->
  Forall in_long (default [] labels) ->
  _create_graph_data nodes edges labels
  = Ok (mkData (features_tensor nodes) (raw_edge_index edges) (labels_tensor labels)).
Proof.
  intros Hu He Hl. unfold _create_graph_data.
  assert (tensor_of_rows (nd_features <$> nodes) = Ok (features_tensor nodes)) as ->.
  { destruct nodes as [|n ns]; [done |]. unfold tensor_of_rows.
    change (nd_features <$> n :: ns) with (List.map nd_features (n :: ns)).
    rewrite Hu. done. }
  cbn [mbind result_bind]. rewrite (edge_rows_ok _ He). cbn [mbind result_bind].
  pose proof (edge_index_raw edges) as Hei.
  destruct (tensor_of_rows (raw_rows edges)) as [ei|]; [| discriminate].
  cbn [mbind result_bind] in *. injection Hei as ->.
  destruct labels as [[|z l]|]; [done | | done].
  unfold long_tensor. rewrite (long_list_ok (z :: l) Hl). done.
Qed.

End Build.

Section BuildClaims.
Import Samples.

(** C1 (as the code has it): [_create_graph_data] copies the source and
    target identifiers of the edges into the edge index as they are, first
    all sources, then all targets.  It keeps no node-to-row mapping and never
    looks an identifier up in [nodes]: a build whose feature rows have one
    length and whose integers fit 64 bits succeeds, whether or not the
    edges name nodes of the list. *)
Theorem create_graph_data_edge_index_raw nodes edges labels :
  uniform (List.map nd_features nodes) = true ->
  Forall (fun e => in_long (source e) /\ in_long (target e)) edges ->
  Forall in_long (default [] labels) ->
  exists d,
    _create_graph_data nodes edges labels = Ok d
    /\ entries (edge_index d) = List.map source edges ++ List.map target edges.
Proof.
  intros Hu He Hl. eexists. split; [by apply create_graph_data_ok |].
  destruct edges as [|e l]; [done |]. cbn. by rewrite app_nil_r.
Qed.

Lemma create_graph_data_edge_index_raw_witness :
  exists d,
    _create_graph_data [mkNodeDict 7 [f1]] [mkEdgeDict 7 9 "CONNECTED_TO"] None = Ok d
    /\ entries (edge_index d) = [7; 9].
Proof.
  apply (create_graph_data_edge_index_raw
           [mkNodeDict 7 [f1]] [mkEdgeDict 7 9 "CONNECTED_TO"] None).
  - reflexivity.
  - repeat constructor; cbn; unfold in_long; lia.
  - constructor.
Defined.

(** C1 fails as stated: one node, and an edge from it to a node that is not
    in the list.  The build returns, and neither entry of the edge index is a
    row of the one-row feature matrix. *)
Lemma create_graph_data_index_out_of_range :
  exists d,
    _create_graph_data [mkNodeDict 7 [f1]] [mkEdgeDict 7 9 "CONNECTED_TO"] None = Ok d
    /\ num_nodes d = 1%nat
    /\ Forall (fun i => ~ (0 <= i < Z.of_nat (num_nodes d))) (entries (edge_index d)).
Proof.
  eexists. split; [reflexivity |]. split; [reflexivity |].
  repeat constructor; cbn; lia.
Qed.

(** C7 (as the code has it): the builder does not compare the length of
    [labels] with the number of nodes.  A non-empty [labels] becomes the
    label vector as it is, whatever its length; an absent or empty one gives
    no label vector. *)
Theorem create_graph_data_labels_unchecked nodes edges labels :
  uniform (List.map nd_features nodes) = true ->
  Forall (fun e => in_long (source e) /\ in_long (target e)) edges ->
  Forall in_long (default [] labels) ->
  exists d,
    _create_graph_data nodes edges labels = Ok d
    /\ y d = match labels with
             | None | Some [] => None
             | Some l => Some (T1 l)
             end.
Proof.
  intros Hu He Hl. eexists. split; [by apply create_graph_data_ok | done].
Qed.

Lemma create_graph_data_labels_unchecked_witness :
  exists d,
    _create_graph_data [mkNodeDict 7 [f1]; mkNodeDict 8 [f1]] [] (Some [1; 0; 1]) = Ok d
    /\ y d = Some (T1 [1; 0; 1]).
Proof.
  apply (create_graph_data_labels_unchecked
           [mkNodeDict 7 [f1]; mkNodeDict 8 [f1]] [] (Some [1; 0; 1])).
  - reflexivity.
  - constructor.
  - repeat constructor; unfold in_long; lia.
Defined.

(** C7 fails as stated: two nodes and one label.  The build returns a tensor
    whose label vector has one entry for two rows. *)
Lemma create_graph_data_label_mismatch_accepted :
  _create_graph_data [mkNodeDict 7 [f1]; mkNodeDict 8 [f1]] [] (Some [1])
  = Ok (mkData (T2 [[f1]; [f1]]) (T1 []) (Some (T1 [1]))).
Proof. reflexivity. Qed.

End BuildClaims.

(** ** Subgraph retrieval *)

Section Dedup.
Context {X Y K : Type} `{Countable K}.
Variables (key : X -> K) (okey : Y -> K) (mk : X -> Y).
Hypothesis okey_mk : forall x, okey (mk x) = key x.

Lemma find_snoc {A} (f : A -> bool) l a :
  List.find f (l ++ [a])
  = match List.find f l with
    | Some b => Some b
    | None => if f a then Some a else None
    end.
Proof.
  induction l as [|b l IH]; [done |]. cbn. destruct (f b); [done | exact IH].
Qed.

Lemma first_with_none {A} (f : A -> K) k l :
  first_with f k l = None <-> k ∉ f <$> l.
Proof.
  unfold first_with. split.
  - intros Hn [a [-> Ha]]%list_elem_of_fmap.
    apply list_elem_of_In in Ha. pose proof (find_none _ _ Hn a Ha) as Hf.
    cbn in Hf. by case_bool_decide.
  - intros Hk. destruct (List.find _ l) as [a|] eqn:Hf; [| done].
    apply find_some in Hf as [Ha Hf]. case_bool_decide; [| done]. subst k.
    destruct Hk. apply list_elem_of_fmap. exists a. split; [done |].
    by apply list_elem_of_In.
Qed.

Lemma keep_inv_step st xs x :
  keep_inv key okey mk st xs -> keep_inv key okey mk (keep key mk st x) (xs ++ [x]).
Proof.
  intros (Hseen & Hkeys & Hnd & Hfirst). unfold keep.
  destruct (decide (key x ∈ st.2)) as [Hin|Hout].
  - split; [| split; [| split]]; [| exact Hkeys | exact Hnd |].
    + intros k. rewrite fmap_app, elem_of_app, <- Hseen. cbn.
      rewrite list_elem_of_singleton. split; [auto | intros [?| ->]; auto].
    + intros k. rewrite Hfirst. unfold first_with at 2. rewrite find_snoc.
      fold (first_with key k xs).
      destruct (first_with key k xs) as [b|] eqn:Hb; [done |].
      case_bool_decide as Hk; [| done]. subst k.
      apply first_with_none in Hb. destruct Hb. by apply Hseen.
  - unfold keep_inv. cbn [fst snd]. split; [| split; [| split]].
    + intros k. rewrite fmap_app, elem_of_app, <- Hseen. cbn.
      rewrite list_elem_of_singleton, elem_of_union, elem_of_singleton. tauto.
    + intros k. rewrite fmap_app, elem_of_app, Hkeys. cbn. rewrite okey_mk.
      rewrite list_elem_of_singleton, elem_of_union, elem_of_singleton. tauto.
    + rewrite fmap_app. apply NoDup_app. split; [exact Hnd |]. split.
      * intros k Hk Hk'. cbn in Hk'. rewrite okey_mk in Hk'.
        apply list_elem_of_singleton in Hk'. subst k. by apply Hkeys in Hk.
      * cbn. apply NoDup_singleton.
    + intros k. unfold first_with. rewrite !find_snoc.
      fold (first_with okey k st.1). fold (first_with key k xs).
      rewrite Hfirst. destruct (first_with key k xs); [done |]. cbn.
      rewrite okey_mk. by case_bool_decide.
Qed.

Lemma keep_inv_fold xs : keep_inv key okey mk (foldl (keep key mk) ([], ∅) xs) xs.
Proof.
  induction xs as [|x xs IH] using rev_ind.
  - split; [| split; [| split]]; cbn; [set_solver | set_solver | constructor | done].
  - rewrite foldl_snoc. by apply keep_inv_step.
Qed.

End Dedup.

Section Retrieve.

Lemma visit_rel_edges a rel :
  edges_state (visit_rel a rel) = keep edge_key edge_of (edges_state a) rel.
Proof. unfold visit_rel, keep. cbn. by destruct (decide _). Qed.

Lemma visit_rel_nodes a rel : nodes_state (visit_rel a rel) = nodes_state a.
Proof. unfold visit_rel. by destruct (decide _). Qed.

Lemma visit_node_nodes a node :
  nodes_state (visit_node a node) = keep node_id node_of (nodes_state a) node.
Proof. unfold visit_node, keep. cbn. by destruct (decide _). Qed.

Lemma visit_node_edges a node : edges_state (visit_node a node) = edges_state a.
Proof. unfold visit_node. by destruct (decide _). Qed.

Lemma visit_nodes_edges ns a : edges_state (foldl visit_node a ns) = edges_state a.
Proof.
  revert a. induction ns as [|n ns IH]; intros a; [done |].
  cbn. by rewrite IH, visit_node_edges.
Qed.

Lemma visit_rels_nodes rs a : nodes_state (foldl visit_rel a rs) = nodes_state a.
Proof.
  revert a. induction rs as [|r rs IH]; intros a; [done |].
  cbn. by rewrite IH, visit_rel_nodes.
Qed.

Lemma visit_rels_edges rs a :
  edges_state (foldl visit_rel a rs) = foldl (keep edge_key edge_of) (edges_state a) rs.
Proof.
  revert a. induction rs as [|r rs IH]; intros a; [done |].
  cbn. by rewrite IH, visit_rel_edges.
Qed.

Lemma visit_nodes_nodes ns a :
  nodes_state (foldl visit_node a ns) = foldl (keep node_id node_of) (nodes_state a) ns.
Proof.
  revert a. induction ns as [|n ns IH]; intros a; [done |].
  cbn. by rewrite IH, visit_node_nodes.
Qed.

Lemma visit_records_edges records a :
  edges_state (foldl visit_record a records)
  = foldl (keep edge_key edge_of) (edges_state a) (concat (path_rels <$> records)).
Proof.
  revert a. induction records as [|p ps IH]; intros a; [done |].
  cbn. rewrite IH, foldl_app. f_equal. unfold visit_record.
  by rewrite visit_rels_edges, visit_nodes_edges.
Qed.

Lemma visit_records_nodes records a :
  nodes_state (foldl visit_record a records)
  = foldl (keep node_id node_of) (nodes_state a) (concat (path_nodes <$> records)).
Proof.
  revert a. induction records as [|p ps IH]; intros a; [done |].
  cbn. rewrite IH, foldl_app. f_equal. unfold visit_record.
  by rewrite visit_rels_nodes, visit_nodes_nodes.
Qed.

(** The loop of [_get_subgraph] over any sequence of records: the edges
    kept have distinct (source, target) pairs, the edge kept for a pair is
    made from the first relationship with that pair in the order of the
    records, whatever its type; the same for nodes and [node.id]. *)
Lemma collect_first records :
  NoDup (dict_key <$> (collect records).2)
  /\ (forall k, first_with dict_key k (collect records).2
                = edge_of <$> first_with edge_key k (concat (path_rels <$> records)))
  /\ NoDup (nd_id <$> (collect records).1)
  /\ (forall i, first_with nd_id i (collect records).1
                = node_of <$> first_with node_id i (concat (path_nodes <$> records))).
Proof.
  unfold collect. cbn [fst snd].
  pose proof (visit_records_edges records (mkAcc [] [] ∅ ∅)) as He.
  pose proof (visit_records_nodes records (mkAcc [] [] ∅ ∅)) as Hn.
  pose proof (keep_inv_fold edge_key dict_key edge_of (fun _ => eq_refl)
                (concat (path_rels <$> records))) as (_ & _ & He1 & He2).
  pose proof (keep_inv_fold node_id nd_id node_of (fun _ => eq_refl)
                (concat (path_nodes <$> records))) as (_ & _ & Hn1 & Hn2).
  change (edges_state (mkAcc [] [] ∅ ∅)) with (@nil EdgeDict, ∅ : gset (Z * Z)) in He.
  change (nodes_state (mkAcc [] [] ∅ ∅)) with (@nil NodeDict, ∅ : gset Z) in Hn.
  rewrite <- He in He1, He2. rewrite <- Hn in Hn1, Hn2. done.
Qed.

Lemma filter_none {A} (f : A -> bool) l :
  Forall (fun a => f a = false) l -> List.filter f l = [].
Proof. induction 1 as [|a l Ha _ IH]; [done |]. cbn. by rewrite Ha. Qed.

Lemma get_subgraph_unknown g root_id depth :
  unknown g root_id -> _get_subgraph g root_id depth = ([], []).
Proof.
  intros Hu. unfold _get_subgraph, subgraph_query.
  by rewrite (filter_none _ _ Hu).
Qed.

End Retrieve.

Section RetrieveClaims.

(** C4: in the result of [_get_subgraph] no two edges have the same
    (source, target) pair; the type is no part of the key, so of the
    relationships between one ordered pair of nodes met along the paths,
    the first in the order of the traversal alone is kept, with its type.
    No two nodes have the same [node.id], and the first met is the one
    kept. *)
Theorem get_subgraph_dedup (g : Store) (root_id : string) (depth : Z) :
  let records := subgraph_query g root_id depth in
  let out := _get_subgraph g root_id depth in
  NoDup ((fun e => (source e, target e)) <$> out.2)
  /\ (forall s t,
        List.find (fun e => bool_decide ((source e, target e) = (s, t))) out.2
        = (fun rel => mkEdgeDict (start_id rel) (end_id rel) (rel_type rel))
          <$> List.find (fun rel => bool_decide ((start_id rel, end_id rel) = (s, t)))
                        (concat (path_rels <$> records)))
  /\ NoDup (nd_id <$> out.1)
  /\ (forall i,
        List.find (fun n => bool_decide (nd_id n = i)) out.1
        = (fun node => mkNodeDict (node_id node) (_extract_node_features node))
          <$> List.find (fun node => bool_decide (node_id node = i))
                        (concat (path_nodes <$> records))).
Proof.
  intros records out.
  destruct (collect_first records) as (H1 & H2 & H3 & H4).
  split; [exact H1 |]. split; [intros s t; exact (H2 (s, t)) |].
  split; [exact H3 | exact H4].
Qed.

End RetrieveClaims.

Section RetrieveExamples.
Import Samples.

(** Two relationships of different types between one ordered pair of nodes:
    the one met first is kept, the other is not in the result. *)
Example get_subgraph_parallel_types :
  _get_subgraph store_parallel "T1" 2
  = ([mkNodeDict 0 [f1]; mkNodeDict 1 [half]], [mkEdgeDict 0 1 "BELONGS_TO"]).
Proof. vm_compute. reflexivity. Qed.

(** Every relationship of a chain is met, each once, however many paths
    run over it. *)
Example get_subgraph_chain :
  _get_subgraph store_chain "T1" 2
  = ([mkNodeDict 0 [f1]; mkNodeDict 1 [half];
      mkNodeDict 2 [float_of_Z 3]; mkNodeDict 3 [f0]],
     [mkEdgeDict 0 1 "BELONGS_TO"; mkEdgeDict 0 2 "CONNECTED_TO";
      mkEdgeDict 2 3 "BELONGS_TO"]).
Proof. vm_compute. reflexivity. Qed.

(** A transaction without relationships lies on no path of length one or
    more: the query returns no record for it. *)
Example get_subgraph_isolated :
  _get_subgraph (mkStore [node_T1] [] [] 1 0) "T1" 2 = ([], []).
Proof. reflexivity. Qed.

End RetrieveExamples.

(** ** Graph mutation *)

Section Update.

Lemma create_rows t rows g :
  foldl (create_row t) g rows
  = mkStore (nodes g) (rels g ++ created (next_rel_id g) t rows) (unique g)
            (next_node_id g) (next_rel_id g + Z.of_nat (length rows)).
Proof.
  revert g. induction rows as [|[rel related] rows IH]; intros g.
  - cbn. rewrite app_nil_r, Z.add_0_r. by destruct g.
  - cbn [foldl]. rewrite IH. unfold create_row at 2, create_rel. cbn.
    rewrite <- app_assoc. f_equal. lia.
Qed.

Lemma update_rows t ns relationships g :
  foldl (fun g' rel =>
           foldl (fun g'' related => create_rel g'' "CONNECTED_TO" (properties rel) t related)
                 g' (List.filter (has_id (related_id rel)) ns))
        g relationships
  = foldl (create_row t) g (matched ns relationships).
Proof.
  revert g. induction relationships as [|rel rest IH]; intros g; [done |].
  cbn [foldl]. rewrite IH. unfold matched. cbn [mbind list_bind].
  rewrite foldl_app. f_equal.
  generalize (List.filter (has_id (related_id rel)) ns). intros l. revert g.
  induction l as [|n l IHl]; intros g; [done |]. cbn. by rewrite <- IHl.
Qed.

(** The update query as one equation. *)
Lemma update_graph_ok g transaction_data relationships :
  let t := mkNode (next_node_id g) ["Transaction"] transaction_data in
  let rows := matched (nodes g ++ [t]) relationships in
  violates g t = false ->
  update_graph g transaction_data relationships
  = Ok (mkStore (nodes g ++ [t]) (rels g ++ created (next_rel_id g) t rows) (unique g)
                (next_node_id g + 1) (next_rel_id g + Z.of_nat (length rows))).
Proof.
  intros t rows Hv. unfold update_graph, update_query. fold t. rewrite Hv.
  f_equal. rewrite update_rows, create_rows. done.
Qed.

Lemma created_type next t rows :
  Forall (fun r => rel_type r = "CONNECTED_TO") (created next t rows).
Proof.
  revert next. induction rows as [|[rel related] rows IH]; intros next; cbn.
  - constructor.
  - constructor; [done | apply IH].
Qed.

Lemma created_ends next t rows :
  end_id <$> created next t rows = (fun row => node_id row.2) <$> rows.
Proof.
  revert next. induction rows as [|[rel related] rows IH]; intros next; [done |].
  cbn. f_equal. apply IH.
Qed.

Lemma matched_nil ns relationships :
  Forall (fun rel => Forall (fun n => has_id (related_id rel) n = false) ns) relationships ->
  matched ns relationships = [].
Proof.
  induction 1 as [|rel rest Hrel _ IH]; [done |].
  unfold matched in *. cbn [mbind list_bind]. rewrite IH.
  by rewrite (filter_none _ _ Hrel).
Qed.

End Update.

Section UpdateClaims.
Import Samples.

Lemma matched_spec ns relationships row :
  row ∈ matched ns relationships
  <-> row.1 ∈ relationships /\ row.2 ∈ ns /\ has_id (related_id row.1) row.2 = true.
Proof.
  unfold matched. rewrite list_elem_of_bind. split.
  - intros (rel & Hrow & Hrel). apply list_elem_of_bind in Hrow as (n & Hrow & Hn).
    apply list_elem_of_singleton in Hrow. subst row. cbn.
    apply list_elem_of_In, filter_In in Hn as [Hn Hid].
    apply list_elem_of_In in Hn. done.
  - intros (Hrel & Hn & Hid). exists row.1. split; [| done].
    apply list_elem_of_bind. exists row.2. split.
    + destruct row. cbn. by apply list_elem_of_singleton.
    + apply list_elem_of_In, filter_In. by rewrite <- list_elem_of_In.
Qed.

(** C3 (as the code has it): [update_graph] knows no
    [DanglingReferenceError].  A call that breaks no uniqueness constraint
    and declares a relationship whose target identifier is on no node of the
    store returns without an error, and the write is kept: afterwards the
    nodes are the old ones and the new transaction node, so the transaction
    is there and no stub stands in for the missing target; the relationships
    created are those of the rows the [MATCH] found; the relationship to the
    missing target is left out without a word (unless the identifier is the
    new transaction's own). *)
Theorem update_graph_missing_target g transaction_data relationships rel :
  let t := mkNode (next_node_id g) ["Transaction"] transaction_data in
  violates g t = false ->
  rel ∈ relationships ->
  Forall (fun n => has_id (related_id rel) n = false) (nodes g) ->
  exists g',
    update_graph g transaction_data relationships = Ok g'
    /\ nodes g' = nodes g ++ [t]
    /\ rels g' = rels g ++ created (next_rel_id g) t (matched (nodes g') relationships)
    /\ (has_id (related_id rel) t = false ->
        Forall (fun row => row.1 <> rel) (matched (nodes g') relationships)).
Proof.
  intros t Hv Hrel Hmiss. eexists. split; [by apply update_graph_ok |].
  cbn [nodes rels]. fold t. split; [done |]. split; [done |].
  intros Ht. apply Forall_forall. intros row Hrow Heq.
  apply matched_spec in Hrow as (_ & Hn & Hid). rewrite Heq in Hid.
  apply elem_of_app in Hn as [Hn|Hn].
  - rewrite Forall_forall in Hmiss. specialize (Hmiss _ Hn). congruence.
  - apply list_elem_of_singleton in Hn. congruence.
Qed.

Lemma update_graph_missing_target_witness :
  let t := mkNode 0 ["Transaction"] T1_data in
  exists g',
    update_graph empty_store T1_data [belongs_to_U1] = Ok g'
    /\ nodes g' = [] ++ [t]
    /\ rels g' = [] ++ created 0 t (matched (nodes g') [belongs_to_U1])
    /\ (has_id (VStr "U1") t = false ->
        Forall (fun row => row.1 <> belongs_to_U1)
               (matched (nodes g') [belongs_to_U1])).
Proof.
  apply (update_graph_missing_target empty_store T1_data [belongs_to_U1] belongs_to_U1).
  - reflexivity.
  - apply list_elem_of_here.
  - constructor.
Defined.

(** C3 fails as stated: the store is empty, so the target ["U1"] of the
    declared relationship exists nowhere.  The call returns, and the
    transaction node is in the store. *)
Lemma update_graph_dangling_written :
  update_graph empty_store T1_data [belongs_to_U1]
  = Ok (mkStore [mkNode 0 ["Transaction"] T1_data] [] [] 1 0).
Proof. reflexivity. Qed.

(** C9: every relationship [update_graph] writes has the type
    [CONNECTED_TO]; what the caller declared travels in the properties of
    the relationship, so none has the type [BELONGS_TO]. *)
Theorem update_graph_connected_to g transaction_data relationships g' :
  update_graph g transaction_data relationships = Ok g' ->
  exists news,
    rels g' = rels g ++ news
    /\ Forall (fun r => rel_type r = "CONNECTED_TO") news
    /\ Forall (fun r => rel_type r <> "BELONGS_TO") news
    /\ Forall (fun r => exists rel, rel ∈ relationships
                                   /\ rel_props r = set_props (properties rel)) news.
Proof.
  intros Hup.
  set (t := mkNode (next_node_id g) ["Transaction"] transaction_data).
  destruct (violates g t) eqn:Hv.
  { unfold update_graph, update_query in Hup. fold t in Hup. by rewrite Hv in Hup. }
  rewrite (update_graph_ok _ _ _ Hv) in Hup. injection Hup as <-. fold t.
  eexists. split; [reflexivity |].
  set (rows := matched (nodes g ++ [t]) relationships).
  assert (Forall (fun row => row.1 ∈ relationships) rows) as Hrows.
  { apply Forall_forall. intros row Hrow. by apply matched_spec in Hrow as (? & _). }
  split; [apply created_type |]. split.
  - eapply Forall_impl; [apply created_type |]. by intros r ->.
  - clearbody rows. generalize (next_rel_id g).
    induction Hrows as [|[rel related] rows Hrel _ IH]; intros next; cbn.
    + constructor.
    + constructor; [by exists rel | apply IH].
Qed.

(** The call of [api/routes.py]: a relationship meant as [BELONGS_TO]. *)
Lemma update_graph_connected_to_witness :
  exists news,
    [mkRel 0 1 0 "CONNECTED_TO" [("type", VStr "BELONGS_TO")]] = [] ++ news
    /\ Forall (fun r => rel_type r = "CONNECTED_TO") news
    /\ Forall (fun r => rel_type r <> "BELONGS_TO") news
    /\ Forall (fun r => exists rel, rel ∈ [belongs_to_U1]
                                   /\ rel_props r = set_props (properties rel)) news.
Proof.
  apply (update_graph_connected_to store_U1 T1_data [belongs_to_U1]
           (mkStore [user_U1; mkNode 1 ["Transaction"] T1_data]
                    [mkRel 0 1 0 "CONNECTED_TO" [("type", VStr "BELONGS_TO")]]
                    [("User", "id"); ("Transaction", "id")] 2 1)).
  reflexivity.
Defined.

(** The store after the call of [api/routes.py]. *)
Example update_graph_routes :
  update_graph store_U1 T1_data [belongs_to_U1]
  = Ok (mkStore [user_U1; mkNode 1 ["Transaction"] T1_data]
                [mkRel 0 1 0 "CONNECTED_TO" [("type", VStr "BELONGS_TO")]]
                [("User", "id"); ("Transaction", "id")] 2 1).
Proof. reflexivity. Qed.

(** A second transaction with the identifier of the first breaks the
    uniqueness constraint: nothing is written. *)
Example update_graph_duplicate :
  (update_graph store_U1 T1_data [belongs_to_U1]
   ≫= fun g => update_graph g T1_data [belongs_to_U1])
  = Raise ConstraintError.
Proof. reflexivity. Qed.

End UpdateClaims.

(** ** The model *)

Section Model.
Context {L : TorchLib}.

Lemma bind_ok {A B} (f : A -> M B) (m : M A) w a w' :
  m w = (Ok a, w') -> (m ≫= f) w = f a w'.
Proof. intros Hm. unfold mbind, M_bind. by rewrite Hm. Qed.

Lemma bind_raise {A B} (f : A -> M B) (m : M A) w e w' :
  m w = (Raise e, w') -> (m ≫= f) w = (Raise e, w').
Proof. intros Hm. unfold mbind, M_bind. by rewrite Hm. Qed.

Lemma bind_lift {A B} (f : A -> M B) (r : result A) w :
  (lift r ≫= f) w = match r with Ok a => f a w | Raise e => (Raise e, w) end.
Proof. unfold mbind, M_bind, lift. by destruct r. Qed.

Lemma dropout_eval x p w :
  F_dropout x p false w = (dropout_off x p, w).
Proof. unfold F_dropout, dropout_off. by destruct (_ || _)%bool. Qed.

Lemma convs_eval_ok p ei cs x0 w :
  for_each (fun x conv =>
              x ← lift (gcn_conv conv x ei);
              let x := relu x in
              F_dropout x p false) x0 cs w
  = (convs_eval p ei x0 cs, w).
Proof.
  revert x0. induction cs as [|c cs IH]; intros x0; [done |].
  cbn [for_each convs_eval]. unfold mbind at 1, M_bind at 1. rewrite bind_lift.
  destruct (gcn_conv c x0 ei) as [x1|e]; [| done]. cbn [mbind result_bind].
  rewrite dropout_eval. destruct (dropout_off (relu x1) p) as [x2|e]; [| done].
  cbn [mbind result_bind]. apply IH.
Qed.

(** In eval mode the forward pass is a function of the model and the input,
    and touches nothing. *)
Lemma forward_eval_ok data w :
  training (model w) = false -> forward data w = (forward_eval (model w) data, w).
Proof.
  intros Ht. unfold forward, forward_eval.
  unfold mbind at 1, M_bind at 1, get. cbv zeta. rewrite Ht.
  unfold mbind at 1, M_bind at 1. rewrite convs_eval_ok.
  destruct (convs_eval _ _ _ _) as [x1|e]; [| done]. cbn [mbind result_bind].
  rewrite bind_lift. destruct (global_mean_pool x1) as [x2|e]; [| done].
  cbn [mbind result_bind].
  rewrite bind_lift. destruct (linear (fc1 (model w)) x2) as [x3|e]; [| done].
  cbn [mbind result_bind].
  unfold mbind at 1, M_bind at 1. rewrite dropout_eval.
  destruct (dropout_off (relu x3) _) as [x4|e]; [| done]. cbn [mbind result_bind].
  rewrite bind_lift. by destruct (linear (fc2 (model w)) x4) as [x5|e].
Qed.

Lemma forward_eval_training b m data :
  forward_eval (set_training b m) data = forward_eval m data.
Proof. done. Qed.

(** [predict] as one equation. *)
Lemma predict_eq data threshold w :
  predict data threshold w
  = (thresholded threshold <$> forward_eval (model w) data,
     with_model (set_training false (model w)) w).
Proof.
  unfold predict, no_grad, modify. unfold mbind at 1, M_bind at 1.
  unfold mbind at 1, M_bind at 1.
  rewrite forward_eval_ok by done. cbn [model with_grad with_model].
  rewrite forward_eval_training.
  destruct (forward_eval (model w) data) as [p|e]; destruct w; reflexivity.
Qed.

End Model.

Section PredictClaims.
Context {L : TorchLib}.


End PredictClaims.

Section PredictCounterexample.
Import Samples.


End PredictCounterexample.

(** ** Persistence *)

Section Persistence.
Context {L : TorchLib}.

Lemma sd_lookup_app k a b :
  sd_lookup k (a ++ b)
  = match sd_lookup k a with Some t => Some t | None => sd_lookup k b end.
Proof.
  unfold sd_lookup. induction a as [|kv a IH]; [done |].
  cbn. destruct (bool_decide _); [done | exact IH].
Qed.

Lemma conv_dict_bias cs i j :
  sd_lookup (ConvBias j) (conv_dict i cs)
  = if decide (i <= j)%nat then conv_bias <$> cs !! (j - i)%nat else None.
Proof.
  revert i. induction cs as [|c cs IH]; intros i.
  - cbn. by destruct (decide _).
  - cbn [conv_dict conv_entries app]. unfold sd_lookup in *. cbn [List.find fst].
    case_bool_decide as Hk.
    + injection Hk as ->. rewrite decide_True by lia. by rewrite Nat.sub_diag.
    + case_bool_decide; [done |]. rewrite IH.
      destruct (decide (S i <= j)%nat), (decide (i <= j)%nat); try lia; try done.
      * replace (j - i)%nat with (S (j - S i)) by lia. done.
      * destruct Hk. f_equal. lia.
Qed.

Lemma conv_dict_weight cs i j :
  sd_lookup (ConvLinWeight j) (conv_dict i cs)
  = if decide (i <= j)%nat then lin_weight <$> cs !! (j - i)%nat else None.
Proof.
  revert i. induction cs as [|c cs IH]; intros i.
  - cbn. by destruct (decide _).
  - cbn [conv_dict conv_entries app]. unfold sd_lookup in *. cbn [List.find fst].
    case_bool_decide; [done |]. case_bool_decide as Hk.
    + injection Hk as ->. rewrite decide_True by lia. by rewrite Nat.sub_diag.
    + rewrite IH.
      destruct (decide (S i <= j)%nat), (decide (i <= j)%nat); try lia; try done.
      * replace (j - i)%nat with (S (j - S i)) by lia. done.
      * destruct Hk. f_equal. lia.
Qed.

Lemma conv_dict_fc cs i k : is_fc k -> sd_lookup k (conv_dict i cs) = None.
Proof.
  intros Hk. revert i. induction cs as [|c cs IH]; intros i; [done |].
  cbn [conv_dict conv_entries app]. unfold sd_lookup in *. cbn [List.find fst].
  case_bool_decide; [by subst k |]. case_bool_decide; [by subst k |]. apply IH.
Qed.

Lemma state_dict_bias m j c :
  conv_layers m !! j = Some c -> sd_lookup (ConvBias j) (state_dict m) = Some (conv_bias c).
Proof.
  intros Hc. unfold state_dict. rewrite sd_lookup_app, conv_dict_bias.
  rewrite decide_True by lia. by rewrite Nat.sub_0_r, Hc.
Qed.

Lemma state_dict_weight m j c :
  conv_layers m !! j = Some c -> sd_lookup (ConvLinWeight j) (state_dict m) = Some (lin_weight c).
Proof.
  intros Hc. unfold state_dict. rewrite sd_lookup_app, conv_dict_weight.
  rewrite decide_True by lia. by rewrite Nat.sub_0_r, Hc.
Qed.

Lemma state_dict_fc m :
  sd_lookup Fc1Weight (state_dict m) = Some (weight (fc1 m))
  /\ sd_lookup Fc1Bias (state_dict m) = Some (bias (fc1 m))
  /\ sd_lookup Fc2Weight (state_dict m) = Some (weight (fc2 m))
  /\ sd_lookup Fc2Bias (state_dict m) = Some (bias (fc2 m)).
Proof.
  unfold state_dict. rewrite !sd_lookup_app, !conv_dict_fc by done. done.
Qed.

Lemma loaded_found sd k own t :
  sd_lookup k sd = Some t -> shape t = shape own -> loaded sd k own = t.
Proof. intros Hk Hs. unfold loaded. rewrite Hk. by rewrite decide_True. Qed.

Lemma drop_cons_inv {A} (l : list A) i a rest :
  drop i l = a :: rest -> l !! i = Some a /\ drop (S i) l = rest.
Proof.
  intros Hd. assert (l !! i = Some a) as Ha.
  { rewrite <- (Nat.add_0_r i), <- lookup_drop, Hd. done. }
  split; [done |]. rewrite (drop_S _ _ _ Ha) in Hd. by injection Hd.
Qed.

Lemma load_convs_state_dict m cs' i :
  Forall2 same_conv (drop i (conv_layers m)) cs' ->
  load_convs (state_dict m) i cs' = drop i (conv_layers m).
Proof.
  revert i. induction cs' as [|c' cs' IH]; intros i Hf.
  - by apply Forall2_nil_inv_r in Hf as ->.
  - apply Forall2_cons_inv_r in Hf as (c & rest & [Hw Hb] & Hrest & Hd).
    apply drop_cons_inv in Hd as [Hc Hd']. rewrite (drop_S _ _ _ Hc).
    cbn [load_convs]. subst rest.
    rewrite (loaded_found _ _ _ _ (state_dict_weight m i c Hc) Hw).
    rewrite (loaded_found _ _ _ _ (state_dict_bias m i c Hc) Hb).
    rewrite (IH (S i) Hrest). by destruct c.
Qed.

(** Loading the state of [m] into a model of the same architecture gives it
    the parameters of [m]. *)
Lemma load_parameters_state_dict m m' :
  same_architecture m m' ->
  load_parameters (state_dict m) m' = set_parameters m' m.
Proof.
  intros (Hc & [Hw1 Hb1] & [Hw2 Hb2] & _). unfold load_parameters, set_parameters.
  destruct (state_dict_fc m) as (H1 & H2 & H3 & H4).
  rewrite (load_convs_state_dict m (conv_layers m') 0 Hc). cbn [drop].
  rewrite (loaded_found _ _ _ _ H1 Hw1), (loaded_found _ _ _ _ H2 Hb1).
  rewrite (loaded_found _ _ _ _ H3 Hw2), (loaded_found _ _ _ _ H4 Hb2).
  by destruct (fc1 m), (fc2 m).
Qed.

Lemma conv_dict_keys cs cs' i :
  Forall2 same_conv cs cs' -> (conv_dict i cs).*1 = (conv_dict i cs').*1.
Proof.
  intros Hf. revert i. induction Hf as [|c c' cs cs' _ _ IH]; intros i; [done |].
  cbn. by rewrite IH.
Qed.

Lemma state_dict_keys m m' :
  same_architecture m m' -> (state_dict m).*1 = (state_dict m').*1.
Proof.
  intros (Hc & _). unfold state_dict. rewrite !fmap_app.
  by rewrite (conv_dict_keys _ _ 0 Hc).
Qed.

Lemma conv_dict_fits m cs' i :
  Forall2 same_conv (drop i (conv_layers m)) cs' ->
  forallb (fits (state_dict m)) (conv_dict i cs') = true.
Proof.
  revert i. induction cs' as [|c' cs' IH]; intros i Hf; [done |].
  apply Forall2_cons_inv_r in Hf as (c & rest & [Hw Hb] & Hrest & Hd).
  apply drop_cons_inv in Hd as [Hc Hd']. subst rest.
  cbn [conv_dict conv_entries app forallb]. unfold fits at 1 2. cbn [fst snd].
  rewrite (state_dict_bias m i c Hc), (state_dict_weight m i c Hc).
  rewrite !bool_decide_eq_true_2 by done. cbn. by apply IH.
Qed.

Lemma load_ok_state_dict m m' :
  same_architecture m m' -> load_ok (state_dict m) m' = true.
Proof.
  intros Hs. pose proof Hs as (Hc & [Hw1 Hb1] & [Hw2 Hb2] & _).
  unfold load_ok. apply andb_true_intro. split.
  - change (forallb (fits (state_dict m)) (state_dict m') = true).
    unfold state_dict at 2. rewrite forallb_app.
    rewrite (conv_dict_fits m (conv_layers m') 0 Hc).
    destruct (state_dict_fc m) as (H1 & H2 & H3 & H4).
    cbn [forallb andb]. unfold fits. cbn [fst snd]. rewrite H1, H2, H3, H4.
    by rewrite !bool_decide_eq_true_2.
  - apply forallb_forall. intros kv Hkv. apply bool_decide_eq_true_2.
    rewrite <- (state_dict_keys m m' Hs). apply list_elem_of_fmap.
    exists kv. split; [done | by apply list_elem_of_In].
Qed.

Lemma load_state_dict_ok m (w : World) :
  same_architecture m (model w) ->
  load_state_dict (state_dict m) w = (Ok tt, with_model (set_parameters (model w) m) w).
Proof.
  intros Hs. unfold load_state_dict, get, modify.
  unfold mbind at 1, M_bind at 1. unfold mbind at 1, M_bind at 1.
  rewrite (load_ok_state_dict _ _ Hs), (load_parameters_state_dict _ _ Hs). done.
Qed.

Lemma forward_eval_parameters m m' data :
  dropout m = dropout m' -> forward_eval (set_parameters m' m) data = forward_eval m data.
Proof. intros Hd. unfold forward_eval, set_parameters. cbn. by rewrite Hd. Qed.

End Persistence.

Section PersistenceClaims.
Context {L : TorchLib}.

(** C8: [save_model] writes the state of the model; [load_model] in a
    process whose model has the same architecture and whose disk holds that
    file returns, and the loaded model predicts on every input what the
    saved one does: the same probabilities and flags, or the same error. *)
Theorem save_load_round_trip (path : string) (data : Data) (threshold : float)
    (w1 w2 : World) :
  same_architecture (model w1) (model w2) ->
  disk w2 = disk (save_model path w1).2 ->
  (save_model path w1).1 = Ok tt
  /\ exists w2',
       load_model path w2 = (Ok tt, w2')
       /\ (predict data threshold w2').1 = (predict data threshold w1).1.
Proof.
  intros Hs Hd. split; [done |].
  assert (disk w2 !! path = Some (state_dict (model w1))) as Hfile.
  { rewrite Hd. cbn. apply lookup_insert_eq. }
  eexists. split.
  - unfold load_model, get. unfold mbind, M_bind. rewrite Hfile.
    by apply load_state_dict_ok.
  - rewrite !predict_eq. cbn [fst model with_model].
    destruct Hs as (_ & _ & _ & Hdrop).
    by rewrite (forward_eval_parameters _ _ _ Hdrop).
Qed.

End PersistenceClaims.

Section PersistenceWitness.
Import Samples.

Lemma save_load_round_trip_witness :
  let l := ConstLib.lib half half in
  let w1 := world l gnn' empty_store 0%nat in
  let w2 := @with_disk l (disk (@save_model l "model.pt" w1).2) (world l gnn empty_store 7%nat) in
  (@save_model l "model.pt" w1).1 = Ok tt
  /\ exists w2',
       @load_model l "model.pt" w2 = (Ok tt, w2')
       /\ (@predict l example half w2').1 = (@predict l example half w1).1.
Proof.
  intros l w1 w2. apply (@save_load_round_trip l "model.pt" example half w1 w2).
  - repeat split; repeat constructor.
  - reflexivity.
Defined.

(** The parameters after the load are those that were saved. *)
Example load_gives_saved_weights :
  let l := ConstLib.lib half half in
  let w1 := world l gnn' empty_store 0%nat in
  let w2 := @with_disk l (disk (@save_model l "model.pt" w1).2) (world l gnn empty_store 7%nat) in
  conv_layers (model (@load_model l "model.pt" w2).2) = conv_layers gnn'
  /\ training (model (@load_model l "model.pt" w2).2) = false.
Proof. vm_compute. done. Qed.

End PersistenceWitness.

(** ** Training *)

Section Training.
Context {L : TorchLib}.

Lemma rng_only_refl w : rng_only w w.
Proof. by destruct w. Qed.

Lemma rng_only_trans w1 w2 w3 : rng_only w1 w2 -> rng_only w2 w3 -> rng_only w1 w3.
Proof. unfold rng_only. intros -> ->. by destruct w1. Qed.

Lemma F_dropout_rng_only x p b w : rng_only w (F_dropout x p b w).2.
Proof.
  unfold F_dropout. destruct (_ || _)%bool; [apply rng_only_refl |].
  destruct b; [| apply rng_only_refl].
  destruct (dropout_mask p x (rng w)) as [x' r']. by destruct w.
Qed.

Lemma lift_rng_only {A} (r : result A) w : rng_only w (lift r w).2.
Proof. apply rng_only_refl. Qed.

Lemma bind_rng_only {A B} (m : M A) (f : A -> M B) w :
  rng_only w (m w).2 ->
  (forall a w', rng_only w' (f a w').2) ->
  rng_only w ((m ≫= f) w).2.
Proof.
  intros Hm Hf. unfold mbind, M_bind. destruct (m w) as [[a|e] w1]; [| done].
  eapply rng_only_trans; [exact Hm | apply Hf].
Qed.

Lemma for_each_rng_only {A B} (body : B -> A -> M B) (l : list A) :
  (forall acc a w, rng_only w (body acc a w).2) ->
  forall acc w, rng_only w (for_each body acc l w).2.
Proof.
  intros Hb. induction l as [|a l IH]; intros acc w; [apply rng_only_refl |].
  cbn [for_each]. apply bind_rng_only; [apply Hb | intros; apply IH].
Qed.

Lemma forward_rng_only data w : rng_only w (forward data w).2.
Proof.
  unfold forward. apply bind_rng_only; [apply rng_only_refl |]. intros w0 w1.
  apply bind_rng_only.
  { apply for_each_rng_only. intros acc c w2.
    apply bind_rng_only; [apply lift_rng_only |]. intros. apply F_dropout_rng_only. }
  intros x1 w2. apply bind_rng_only; [apply lift_rng_only |]. intros x2 w3.
  apply bind_rng_only; [apply lift_rng_only |]. intros x3 w4.
  apply bind_rng_only; [apply F_dropout_rng_only |]. intros x4 w5.
  apply bind_rng_only; [apply lift_rng_only |]. intros x5 w6. apply rng_only_refl.
Qed.

Lemma forward_history data w : history (forward data w).2 = history w.
Proof. rewrite (forward_rng_only data w). done. Qed.

Lemma forward_model data w : model (forward data w).2 = model w.
Proof. rewrite (forward_rng_only data w). done. Qed.

(** One pass of the inner loop, case by case. *)
Lemma train_batch_eq optimizer total_loss batch w :
  train_batch (optimizer, total_loss) batch w
  = match forward batch w with
    | (Ok output, w1) =>
        match target_of batch ≫= bce_loss output with
        | Ok v =>
            if grad_enabled w
            then match backward (model w) batch (rng w)
                       ≫= fun g => adam_step optimizer g (model w) with
                 | Ok (optimizer', m') =>
                     (Ok (optimizer', PrimFloat.add total_loss v),
                      record_event EvStep
                        (with_model (set_parameters (model w) m')
                           (record_event (EvLoss v) w1)))
                 | Raise e => (Raise e, record_event (EvLoss v) w1)
                 end
            else (Raise RuntimeError, record_event (EvLoss v) w1)
        | Raise e => (Raise e, w1)
        end
    | (Raise e, w1) => (Raise e, w1)
    end.
Proof.
  unfold train_batch.
  unfold mbind at 1, M_bind at 1, get.
  unfold mbind at 1, M_bind at 1.
  pose proof (forward_model batch w) as Hm.
  destruct (forward batch w) as [[output|e] w1]; [| done]. cbn [snd] in Hm.
  rewrite bind_lift. destruct (target_of batch) as [target|e]; [| done].
  rewrite bind_lift. cbn [mbind result_bind].
  destruct (bce_loss output target) as [v|e]; [| done].
  unfold mbind at 1, M_bind at 1, modify.
  unfold mbind at 1, M_bind at 1.
  destruct (grad_enabled w); [| done]. unfold mret at 1, M_ret at 1.
  rewrite bind_lift. destruct (backward (model w) batch (rng w)) as [g|e]; [| done].
  unfold mbind at 1, M_bind at 1, get. cbn [model record_event]. rewrite Hm.
  rewrite bind_lift. cbn [mbind result_bind].
  by destruct (adam_step optimizer g (model w)) as [[optimizer' m']|e].
Qed.

Lemma pairs_app l1 l2 : pairs (l1 ++ l2) = pairs l1 ++ pairs l2.
Proof. unfold pairs. apply bind_app. Qed.

Lemma observed_app l1 l2 last : observed (l1 ++ l2) last = pairs l1 ++ observed l2 last.
Proof. unfold observed. by rewrite pairs_app, <- app_assoc. Qed.

Lemma observed_nil l : observed l None = pairs l.
Proof. unfold observed. cbn. by rewrite app_nil_r. Qed.

(** What one pass adds to the history: nothing, the loss and its step, or
    the loss alone when [backward] or the step raised. *)
Lemma train_batch_history st batch w :
  exists losses last,
    history (train_batch st batch w).2 = history w ++ observed losses last
    /\ Forall returned (losses ++ option_list last)
    /\ (is_ok (train_batch st batch w).1 = true -> last = None /\ length losses = 1%nat).
Proof.
  destruct st as [optimizer total_loss]. rewrite train_batch_eq.
  pose proof (forward_history batch w) as Hh.
  destruct (forward batch w) as [[output|e] w1]; cbn [snd] in Hh.
  2: { exists [], None. cbn. rewrite app_nil_r. by repeat split. }
  destruct (target_of batch ≫= bce_loss output) as [v|e] eqn:Hv.
  2: { exists [], None. cbn. rewrite app_nil_r. by repeat split. }
  assert (returned v) as Hr.
  { destruct (target_of batch) as [target|]; [| done]. by exists output, target. }
  destruct (grad_enabled w).
  - destruct (backward (model w) batch (rng w) ≫= _) as [[optimizer' m']|e].
    + exists [v], None. cbn. rewrite Hh, <- app_assoc. split; [done |].
      split; [by repeat constructor | done].
    + exists [], (Some v). cbn. rewrite Hh. split; [done |].
      split; [by repeat constructor | done].
  - exists [], (Some v). cbn. rewrite Hh. split; [done |].
    split; [by repeat constructor | done].
Qed.

(** A loop over bodies that each add [k] losses, each with its step, when
    they return. *)
Lemma for_each_history {A B} (P : float -> Prop) (body : B -> A -> M B) (k : nat) :
  (forall acc a w, exists losses last,
      history (body acc a w).2 = history w ++ observed losses last
      /\ Forall P (losses ++ option_list last)
      /\ (is_ok (body acc a w).1 = true -> last = None /\ length losses = k)) ->
  forall l acc w, exists losses last,
      history (for_each body acc l w).2 = history w ++ observed losses last
      /\ Forall P (losses ++ option_list last)
      /\ (is_ok (for_each body acc l w).1 = true ->
          last = None /\ length losses = (k * length l)%nat).
Proof.
  intros Hb. induction l as [|a l IH]; intros acc w.
  - exists [], None. cbn. rewrite app_nil_r. split; [done |].
    split; [constructor | split; [done | lia]].
  - cbn [for_each]. unfold mbind, M_bind.
    destruct (Hb acc a w) as (l1 & last1 & Hh1 & Hp1 & Hn1).
    destruct (body acc a w) as [[acc'|e] w1]; cbn [fst snd] in *.
    + destruct (Hn1 eq_refl) as [-> Hk1]. rewrite observed_nil in Hh1.
      cbn in Hp1. rewrite app_nil_r in Hp1.
      destruct (IH acc' w1) as (l2 & last2 & Hh2 & Hp2 & Hn2).
      exists (l1 ++ l2), last2. rewrite Hh2, Hh1, observed_app, app_assoc.
      split; [done |]. split.
      * rewrite <- app_assoc. by apply Forall_app.
      * intros Hok. destruct (Hn2 Hok) as [-> Hk2]. split; [done |].
        rewrite length_app, Hk1, Hk2. cbn [length]. lia.
    + exists l1, last1. by repeat split.
Qed.

(** One pass of the outer loop, case by case. *)
Lemma train_epoch_eq train_data epochs optimizer epoch w :
  train_epoch train_data epochs optimizer epoch w
  = match for_each train_batch (optimizer, PrimFloat.zero) train_data w with
    | (Ok (optimizer', total_loss), w1) =>
        match div_len total_loss (length train_data) with
        | Ok avg_loss =>
            (Ok optimizer',
             if decide ((Z.of_nat epoch + 1) mod 10 = 0)
             then with_stdout (stdout w1 ++ [(Z.of_nat epoch + 1, epochs, avg_loss)]) w1
             else w1)
        | Raise e => (Raise e, w1)
        end
    | (Raise e, w1) => (Raise e, w1)
    end.
Proof.
  unfold train_epoch. unfold mbind at 1, M_bind at 1.
  destruct (for_each train_batch _ train_data w) as [[[opt' total]|e] w1]; [| done].
  rewrite bind_lift. destruct (div_len total (length train_data)) as [avg|e]; [| done].
  unfold mbind, M_bind, modify. by destruct (decide _).
Qed.

(** [train], case by case. *)
Lemma train_eq train_data epochs learning_rate batch_size w :
  train train_data epochs learning_rate batch_size w
  = let w0 := with_model (set_training true (model w)) w in
    match adam (model w0) learning_rate with
    | Ok optimizer =>
        match for_each (train_epoch train_data epochs) optimizer
                       (seq 0 (Z.to_nat epochs)) w0 with
        | (Ok _, w1) => (Ok tt, w1)
        | (Raise e, w1) => (Raise e, w1)
        end
    | Raise e => (Raise e, w0)
    end.
Proof.
  unfold train. unfold mbind at 1, M_bind at 1, modify.
  unfold mbind at 1, M_bind at 1, get. rewrite bind_lift. cbv zeta.
  destruct (adam _ learning_rate) as [optimizer|e]; [| done].
  unfold mbind, M_bind. by destruct (for_each _ optimizer _ _) as [[opt'|e] w1].
Qed.

Lemma train_epoch_history train_data epochs optimizer epoch w :
  exists losses last,
    history (train_epoch train_data epochs optimizer epoch w).2
    = history w ++ observed losses last
    /\ Forall returned (losses ++ option_list last)
    /\ (is_ok (train_epoch train_data epochs optimizer epoch w).1 = true ->
        last = None /\ length losses = (length train_data * 1)%nat).
Proof.
  rewrite train_epoch_eq.
  destruct (for_each_history returned train_batch 1 train_batch_history train_data
              (optimizer, PrimFloat.zero) w) as (losses & last & Hh & Hp & Hn).
  destruct (for_each train_batch _ train_data w) as [[[opt' total]|e] w1];
    cbn [fst snd] in *.
  2: { exists losses, last. by repeat split. }
  destruct (Hn eq_refl) as [-> Hk]. exists losses, None.
  destruct (div_len total (length train_data)) as [avg|e]; cbn [fst snd].
  - split; [by destruct (decide _) |]. split; [done |]. intros _. split; [done | lia].
  - by repeat split.
Qed.

(** The history of a whole run: losses the criterion returned, each
    followed by its step, but for the last one when [backward] or the step
    raised on it; a run that returns has made one step for each example of
    each epoch. *)
Lemma train_history train_data epochs learning_rate batch_size w :
  exists losses last,
    history (train train_data epochs learning_rate batch_size w).2
    = history w ++ observed losses last
    /\ Forall returned (losses ++ option_list last)
    /\ ((train train_data epochs learning_rate batch_size w).1 = Ok tt ->
        last = None /\ length losses = (length train_data * Z.to_nat epochs)%nat).
Proof.
  rewrite train_eq. cbv zeta.
  destruct (adam _ learning_rate) as [optimizer|e].
  2: { exists [], None. cbn. rewrite app_nil_r. by repeat split. }
  destruct (for_each_history returned (train_epoch train_data epochs)
              (length train_data * 1)
              (train_epoch_history train_data epochs) (seq 0 (Z.to_nat epochs))
              optimizer (with_model (set_training true (model w)) w))
    as (losses & last & Hh & Hp & Hn).
  exists losses, last. rewrite length_seq in Hn.
  destruct (for_each _ optimizer _ _) as [[opt'|e] w1]; cbn [fst snd] in *.
  - split; [done |]. split; [done |]. intros _.
    destruct (Hn eq_refl) as [-> Hk]. split; [done | lia].
  - by repeat split.
Qed.

(** A loss in what a run added is one of those it is made of. *)
Lemma observed_loss losses last v :
  EvLoss v ∈ observed losses last -> v ∈ losses ++ option_list last.
Proof.
  unfold observed, pairs. rewrite !elem_of_app. intros [Hin|Hin].
  - left. apply list_elem_of_bind in Hin as (v' & Hin & Hv').
    rewrite !elem_of_cons in Hin. rewrite elem_of_nil in Hin.
    destruct Hin as [[= ->]|[[=]|[]]]. done.
  - right. apply list_elem_of_fmap in Hin as (v' & [= ->] & Hv'). done.
Qed.

Lemma finite_never_stepped_after losses last :
  Forall (fun v => PrimFloat.is_finite v = true) (losses ++ option_list last) ->
  ~ steps_after_nonfinite_loss (observed losses last).
Proof.
  intros Hfin (i & j & v & Hi & Hv & _ & _).
  apply list_elem_of_lookup_2, observed_loss in Hi.
  rewrite Forall_forall in Hfin. specialize (Hfin v Hi). congruence.
Qed.

End Training.

Section TrainingClaims.
Context {L : TorchLib}.


(** C10: with no training example and at least one epoch, [train] raises
    [ZeroDivisionError] as soon as the optimizer is built: the first epoch
    divides the total loss by the number of examples. *)
Theorem train_empty_zero_division epochs learning_rate batch_size (w : World) optimizer :
  1 <= epochs ->
  adam (set_training true (model w)) learning_rate = Ok optimizer ->
  (train [] epochs learning_rate batch_size w).1 = Raise ZeroDivisionError.
Proof.
  intros He Ha. rewrite train_eq. cbv zeta. cbn [model with_model]. rewrite Ha.
  destruct (Z.to_nat epochs) as [|n] eqn:Hn; [lia |].
  cbn [seq for_each]. unfold mbind, M_bind. rewrite train_epoch_eq. done.
Qed.

End TrainingClaims.

Section TrainingWitnesses.
Import Samples.

Lemma const_bce_finite prob loss_value : @finite_losses (ConstLib.lib prob loss_value).
Proof.
  intros output target v. cbn. unfold ConstLib.const_bce.
  destruct (forallb _ _); [| done]. intros [= <-].
  by destruct (PrimFloat.is_finite loss_value) eqn:Hf.
Qed.


(** A run with that library: two examples, one epoch, two losses of one
    half, each with its step. *)
Example train_two_examples :
  let l := ConstLib.lib half half in
  let w := world l gnn empty_store 0%nat in
  (@train l [example; example] 1 lr 32 w).1 = Ok tt
  /\ history (@train l [example; example] 1 lr 32 w).2
     = [EvLoss half; EvStep; EvLoss half; EvStep].
Proof. vm_compute. done. Qed.

(** A model that puts out NaN: the criterion refuses the output, the run
    ends with its error on the first example, and no step was made. *)
Example train_aborts_on_nan_output :
  let l := ConstLib.lib fnan half in
  let w := world l gnn empty_store 0%nat in
  (@train l [example; example] 1 lr 32 w).1 = Raise RuntimeError
  /\ history (@train l [example; example] 1 lr 32 w).2 = [].
Proof. vm_compute. done. Qed.

(** With the grad mode off, [backward] has no graph: the loss is seen and
    no step follows it. *)
Example train_without_grad :
  let l := ConstLib.lib half half in
  let w := with_grad false (world l gnn empty_store 0%nat) in
  (@train l [example; example] 1 lr 32 w).1 = Raise RuntimeError
  /\ history (@train l [example; example] 1 lr 32 w).2 = [EvLoss half].
Proof. vm_compute. done. Qed.

Lemma train_empty_zero_division_witness :
  let l := ConstLib.lib half half in
  (@train l [] 100 lr 32 (world l gnn empty_store 0%nat)).1 = Raise ZeroDivisionError.
Proof.
  intros l.
  apply (@train_empty_zero_division l 100 lr 32 (world l gnn empty_store 0%nat) 0%nat).
  - lia.
  - reflexivity.
Defined.

End TrainingWitnesses.

(** ** Scoring an unknown transaction *)

Section ScoringClaims.
Context {L : TorchLib}.

Lemma retrieve_context_unknown root_id depth (w : World) :
  unknown (store w) root_id ->
  retrieve_context root_id depth w = (Ok empty_data, w).
Proof.
  intros Hu. unfold retrieve_context, get. unfold mbind, M_bind.
  by rewrite (get_subgraph_unknown _ _ _ Hu).
Qed.

Lemma explanation_unknown root_id (w : World) :
  unknown (store w) root_id ->
  _get_explanation_context root_id w = (Ok None, w).
Proof.
  intros Hu. unfold _get_explanation_context, get, explanation_query.
  unfold mbind at 1, M_bind at 1. by rewrite (filter_none _ _ Hu).
Qed.

Lemma predict_fraud_unknown_eq root_id threshold (w : World) :
  unknown (store w) root_id ->
  (predict_fraud root_id threshold w).1
  = (thresholded threshold <$> forward_eval (model w) empty_data) ≫= scoring_of root_id.
Proof.
  intros Hu. unfold predict_fraud.
  rewrite (bind_ok _ _ _ _ _ (retrieve_context_unknown root_id 2 w Hu)).
  assert (unknown (store (with_model (set_training false (model w)) w)) root_id) as Hu'
    by done.
  unfold mbind at 1, M_bind at 1. rewrite predict_eq.
  destruct (forward_eval (model w) empty_data) as [p|e]; [| done].
  cbn [fmap result_fmap]. unfold thresholded at 1.
  rewrite (bind_ok _ _ _ _ _ (explanation_unknown root_id _ Hu')).
  rewrite bind_lift. unfold scoring_of, thresholded. cbn [fst snd mbind result_bind].
  destruct (index0 p ≫= float_) as [p0|e]; [| done].
  cbn [mbind result_bind]. rewrite bind_lift.
  by destruct (index0 _ ≫= bool_).
Qed.

Context {S : Session.Server}.

(** On a server that refuses the bound, the three functions raise its
    error for every identifier, and nothing is changed. *)
Lemma session_refused transaction_id depth threshold (w : World) :
  Session.takes_parameter_bound = false ->
  Session._get_subgraph (store w) transaction_id depth = Raise CypherSyntaxError
  /\ Session.retrieve_context transaction_id depth w = (Raise CypherSyntaxError, w)
  /\ Session.predict_fraud transaction_id threshold w = (Raise CypherSyntaxError, w).
Proof.
  intros Hs.
  assert (forall d, Session._get_subgraph (store w) transaction_id d
                    = Raise CypherSyntaxError) as Hg.
  { intros d. unfold Session._get_subgraph, Session.session_run. by rewrite Hs. }
  assert (forall d, Session.retrieve_context transaction_id d w
                    = (Raise CypherSyntaxError, w)) as Hr.
  { intros d. unfold Session.retrieve_context, get. unfold mbind at 1, M_bind at 1.
    by rewrite Hg. }
  split; [apply Hg |]. split; [apply Hr |].
  unfold Session.predict_fraud. unfold mbind at 1, M_bind at 1. by rewrite Hr.
Qed.

(** On a server that takes the bound, they are the functions of the
    store. *)
Lemma session_taken transaction_id depth threshold (w : World) :
  Session.takes_parameter_bound = true ->
  Session._get_subgraph (store w) transaction_id depth
    = Ok (_get_subgraph (store w) transaction_id depth)
  /\ Session.retrieve_context transaction_id depth w = retrieve_context transaction_id depth w
  /\ Session.predict_fraud transaction_id threshold w = predict_fraud transaction_id threshold w.
Proof.
  intros Hs.
  assert (forall d, Session._get_subgraph (store w) transaction_id d
                    = Ok (_get_subgraph (store w) transaction_id d)) as Hg.
  { intros d. unfold Session._get_subgraph, Session.session_run. by rewrite Hs. }
  assert (forall d, Session.retrieve_context transaction_id d w
                    = retrieve_context transaction_id d w) as Hr.
  { intros d. unfold Session.retrieve_context, retrieve_context, get.
    unfold mbind, M_bind, lift. rewrite Hg.
    by destruct (_get_subgraph (store w) transaction_id d) as [nodes edges]. }
  split; [apply Hg |]. split; [apply Hr |].
  unfold Session.predict_fraud, predict_fraud.
  unfold mbind at 1, M_bind at 1. rewrite Hr. done.
Qed.


End ScoringClaims.

Section ScoringWitnesses.
Import Samples.



End ScoringWitnesses.

(** * Further properties *)

(** ** The tensor builder: when it fails *)

Section BuildErrors.

Lemma to_long_overflow z : ~ in_long z -> to_long z = Raise Overflow.
Proof. intros Hz. unfold to_long. by destruct (decide (- 2 ^ 63 <= z < 2 ^ 63)). Qed.

Lemma in_long_dec z : {in_long z} + {~ in_long z}.
Proof. exact (decide (- 2 ^ 63 <= z < 2 ^ 63)). Qed.

Lemma long_list_overflow (l : list Z) :
  ~ Forall in_long l -> mapM to_long l = Raise Overflow.
Proof.
  induction l as [|z l IH]; intros Hn.
  - destruct Hn. constructor.
  - cbn. destruct (in_long_dec z) as [Hz|Hz].
    + rewrite (to_long_ok _ Hz). cbn. rewrite IH; [done |].
      intros Hl. apply Hn. by constructor.
    + by rewrite (to_long_overflow _ Hz).
Qed.

Lemma edge_rows_overflow edges :
  ~ Forall (fun e => in_long (source e) /\ in_long (target e)) edges ->
  edge_rows edges = Raise Overflow.
Proof.
  induction edges as [|e l IH]; intros Hn.
  - destruct Hn. constructor.
  - unfold edge_rows in *. cbn.
    destruct (in_long_dec (source e)) as [Hs|Hs];
      [| by rewrite (to_long_overflow _ Hs)].
    rewrite (to_long_ok _ Hs). cbn.
    destruct (in_long_dec (target e)) as [Ht|Ht];
      [| by rewrite (to_long_overflow _ Ht)].
    rewrite (to_long_ok _ Ht). cbn.
    rewrite IH; [done |]. intros Hl. apply Hn. by constructor.
Qed.

Lemma endpoints_dec edges :
  {Forall (fun e => in_long (source e) /\ in_long (target e)) edges}
  + {~ Forall (fun e => in_long (source e) /\ in_long (target e)) edges}.
Proof.
  apply Forall_dec. intros e.
  destruct (in_long_dec (source e)), (in_long_dec (target e)); [left | right ..]; tauto.
Qed.

(** X1: [_create_graph_data] fails in two ways only.  Feature rows of
    different lengths raise [ValueError], before anything else is looked
    at; with rows of one length, an edge identifier or a label outside 64
    bits raises the overflow error of torch, whose class depends on the
    version of torch; in every other case the build returns. *)
Theorem create_graph_data_errors nodes edges labels :
  (uniform (List.map nd_features nodes) = false ->
   _create_graph_data nodes edges labels = Raise ValueError)
  /\ (uniform (List.map nd_features nodes) = true ->
      ~ (Forall (fun e => in_long (source e) /\ in_long (target e)) edges
         /\ Forall in_long (default [] labels)) ->
      _create_graph_data nodes edges labels = Raise Overflow)
  /\ (uniform (List.map nd_features nodes) = true ->
      Forall (fun e => in_long (source e) /\ in_long (target e)) edges ->
      Forall in_long (default [] labels) ->
      is_ok (_create_graph_data nodes edges labels) = true).
Proof.
  split; [| split].
  - intros Hu. unfold _create_graph_data, tensor_of_rows.
    change (nd_features <$> nodes) with (List.map nd_features nodes).
    destruct (List.map nd_features nodes) as [|r rows]; [done |]. by rewrite Hu.
  - intros Hu Hn. unfold _create_graph_data.
    assert (tensor_of_rows (nd_features <$> nodes) = Ok (features_tensor nodes)) as ->.
    { destruct nodes as [|n ns]; [done |]. unfold tensor_of_rows.
      change (nd_features <$> n :: ns) with (List.map nd_features (n :: ns)).
      by rewrite Hu. }
    cbn [mbind result_bind].
    destruct (endpoints_dec edges) as [He|He].
    + rewrite (edge_rows_ok _ He). cbn [mbind result_bind].
      pose proof (edge_index_raw edges) as Hei.
      destruct (tensor_of_rows (raw_rows edges)) as [ei|]; [| discriminate].
      cbn [mbind result_bind] in *.
      destruct labels as [[|z l]|].
      * destruct Hn. split; [done | constructor].
      * unfold long_tensor. rewrite long_list_overflow; [done |].
        intros Hl. apply Hn. by split.
      * destruct Hn. split; [done | constructor].
    + by rewrite (edge_rows_overflow _ He).
  - intros Hu He Hl. by rewrite (create_graph_data_ok _ _ _ Hu He Hl).
Qed.

End BuildErrors.

(** ** Retrieval: what the subgraph holds *)

Section RetrieveMore.

Lemma keep_from {X Y K : Type} `{Countable K} (key : X -> K) (mk : X -> Y) xs y :
  y ∈ (foldl (keep key mk) ([], ∅) xs).1 -> exists x', x' ∈ xs /\ y = mk x'.
Proof.
  induction xs as [|x' xs IH] using rev_ind; [by intros ?%elem_of_nil |].
  rewrite foldl_snoc. unfold keep at 1. destruct (decide _).
  - intros (x0 & Hx & ->)%IH. exists x0. split; [| done]. apply elem_of_app. by left.
  - cbn [fst]. intros [Hy|Hy]%elem_of_app.
    + destruct (IH Hy) as (x0 & Hx & ->). exists x0. split; [| done].
      apply elem_of_app. by left.
    + apply list_elem_of_singleton in Hy. exists x'. split; [| done].
      apply elem_of_app. right. by apply list_elem_of_singleton.
Qed.

Lemma other_end_ends r cur j :
  other_end r cur = Some j ->
  (start_id r = cur /\ end_id r = j) \/ (start_id r = j /\ end_id r = cur).
Proof.
  unfold other_end. destruct (Z.eqb_spec (start_id r) cur); [intros [= <-]; by left |].
  destruct (Z.eqb_spec (end_id r) cur); [intros [= <-]; by right | done].
Qed.

Lemma find_node_id g j n : find_node g j = Some n -> node_id n = j.
Proof.
  unfold find_node. intros [_ Hn]%find_some. by apply Z.eqb_eq in Hn.
Qed.

Lemma walks_joined g depth : forall cur used w,
  w ∈ walks g depth cur used -> joined cur w.
Proof.
  induction depth as [|d IH]; intros cur used w; [by intros ?%elem_of_nil |].
  cbn [walks]. intros (r & Hw & _)%list_elem_of_bind.
  destruct (bool_decide _); [by apply elem_of_nil in Hw |].
  destruct (other_end r (node_id cur) ≫= find_node g) as [nxt|] eqn:Hnxt;
    [| by apply elem_of_nil in Hw].
  destruct (other_end r (node_id cur)) as [j|] eqn:Hj; [| done]. cbn in Hnxt.
  apply find_node_id in Hnxt. apply other_end_ends in Hj. subst j.
  assert (forall rest, start_id r ∈ node_id cur :: node_id nxt :: rest
                       /\ end_id r ∈ node_id cur :: node_id nxt :: rest) as Hr.
  { intros rest. rewrite !elem_of_cons.
    destruct Hj as [[-> ->]|[-> ->]]; split; auto. }
  apply elem_of_cons in Hw as [->|Hw].
  - constructor; [| constructor]. cbn. apply Hr.
  - apply list_elem_of_fmap in Hw as (w' & -> & Hw').
    apply IH in Hw'. constructor; [cbn; apply Hr |].
    eapply Forall_impl; [exact Hw' |]. cbn. intros [r' n'] [H1 H2]. cbn in *.
    rewrite !elem_of_cons in *. split; tauto.
Qed.

Lemma elem_of_concat {A} (a : A) (ls : list (list A)) :
  a ∈ concat ls <-> exists l, a ∈ l /\ l ∈ ls.
Proof.
  induction ls as [|l ls IH]; cbn.
  - split; [by intros ?%elem_of_nil | by intros (l & _ & ?%elem_of_nil)].
  - rewrite elem_of_app, IH. split.
    + intros [Ha|(l' & Ha & Hl)]; [exists l | exists l']; rewrite elem_of_cons; auto.
    + intros (l' & Ha & [->|Hl]%elem_of_cons); [by left | right; by exists l'].
Qed.

Lemma subgraph_query_joined g root_id depth p :
  p ∈ subgraph_query g root_id depth ->
  Forall (fun r => start_id r ∈ node_id <$> path_nodes p
                   /\ end_id r ∈ node_id <$> path_nodes p) (path_rels p).
Proof.
  unfold subgraph_query. intros (start & Hp & _)%list_elem_of_bind.
  apply list_elem_of_fmap in Hp as (w & -> & Hw). cbn.
  apply walks_joined in Hw. unfold joined in Hw.
  apply Forall_fmap. eapply Forall_impl; [exact Hw |]. by intros [r n].
Qed.

Lemma collect_nodes_ids records i :
  i ∈ nd_id <$> (collect records).1 <-> i ∈ node_id <$> concat (path_nodes <$> records).
Proof.
  unfold collect. cbn [fst].
  pose proof (visit_records_nodes records (mkAcc [] [] ∅ ∅)) as Hn.
  pose proof (keep_inv_fold node_id nd_id node_of (fun _ => eq_refl)
                (concat (path_nodes <$> records))) as (H1 & H2 & _).
  change (nodes_state (mkAcc [] [] ∅ ∅)) with (@nil NodeDict, ∅ : gset Z) in Hn.
  rewrite <- Hn in H1, H2. cbn [nodes_state fst snd] in H1, H2.
  by rewrite H2, H1.
Qed.

Lemma collect_edges_from records e :
  e ∈ (collect records).2 ->
  exists rel, rel ∈ concat (path_rels <$> records) /\ e = edge_of rel.
Proof.
  unfold collect. cbn [snd].
  pose proof (visit_records_edges records (mkAcc [] [] ∅ ∅)) as He.
  change (edges_state (mkAcc [] [] ∅ ∅)) with (@nil EdgeDict, ∅ : gset (Z * Z)) in He.
  intros Hin. apply (keep_from edge_key edge_of). rewrite <- He. exact Hin.
Qed.

(** X2: every edge of a retrieved subgraph joins two of its nodes: its
    source and its target are [node.id]s of the node list. *)
Theorem get_subgraph_edges_closed (g : Store) (root_id : string) (depth : Z) :
  Forall (fun e => source e ∈ nd_id <$> (_get_subgraph g root_id depth).1
                   /\ target e ∈ nd_id <$> (_get_subgraph g root_id depth).1)
         (_get_subgraph g root_id depth).2.
Proof.
  unfold _get_subgraph. apply Forall_forall. intros e He.
  apply collect_edges_from in He as (rel & Hrel & ->).
  apply elem_of_concat in Hrel as (rs & Hrel & Hrs).
  apply list_elem_of_fmap in Hrs as (p & -> & Hp).
  pose proof (subgraph_query_joined _ _ _ _ Hp) as Hj.
  rewrite Forall_forall in Hj. destruct (Hj rel Hrel) as [Hs Ht].
  assert (forall i, i ∈ node_id <$> path_nodes p ->
                    i ∈ nd_id <$> (collect (subgraph_query g root_id depth)).1) as Hsub.
  { intros i Hi. apply collect_nodes_ids.
    apply list_elem_of_fmap in Hi as (n & -> & Hn). apply list_elem_of_fmap.
    exists n. split; [done |]. apply elem_of_concat. exists (path_nodes p).
    split; [done |]. apply list_elem_of_fmap. by exists p. }
  split; apply Hsub; assumption.
Qed.

End RetrieveMore.

(** ** Features *)

Section Features.

Lemma features_filter ps :
  omap (fun kv : string * value =>
          match kv.2 with
          | VInt z => Some (float_of_Z z)
          | VFloat f => Some f
          | VBool b => Some (float_of_Z (if b then 1 else 0))
          | _ => None
          end) (List.filter (fun kv => is_number kv.2) ps)
  = omap (fun kv : string * value =>
            match kv.2 with
            | VInt z => Some (float_of_Z z)
            | VFloat f => Some f
            | VBool b => Some (float_of_Z (if b then 1 else 0))
            | _ => None
            end) ps.
Proof.
  induction ps as [|[k v] ps IH]; [done |].
  destruct v; cbn; rewrite ?IH; done.
Qed.

Lemma features_length ps :
  length (omap (fun kv : string * value =>
                  match kv.2 with
                  | VInt z => Some (float_of_Z z)
                  | VFloat f => Some f
                  | VBool b => Some (float_of_Z (if b then 1 else 0))
                  | _ => None
                  end) ps)
  = length (List.filter (fun kv => is_number kv.2) ps).
Proof.
  induction ps as [|[k v] ps IH]; [done |].
  destruct v; cbn; rewrite ?IH; done.
Qed.

(** X4: [_extract_node_features] keeps the properties that are numbers and
    nothing else: strings, nulls and lists leave no trace, so the vector
    has one entry for each number the node carries.  For the node written
    from a request of [/predict] this is the amount alone: the [features]
    list of the request is a list, and does not reach the tensor. *)
Theorem extract_features_numbers_only :
  (forall node,
      _extract_node_features node
      = _extract_node_features
          (mkNode (node_id node) (labels node)
                  (List.filter (fun kv => is_number kv.2) (node_props node))))
  /\ (forall node,
        length (_extract_node_features node)
        = length (List.filter (fun kv => is_number kv.2) (node_props node)))
  /\ (forall (t : Transaction) i lbls,
        _extract_node_features (mkNode i lbls (dict_ t)) = [tx_amount t]).
Proof.
  split; [| split].
  - intros node. unfold _extract_node_features. cbn [node_props].
    symmetry. apply features_filter.
  - intros node. apply features_length.
  - done.
Qed.

End Features.

(** ** Scoring *)

Section ScoringMore.
Context {L : TorchLib}.

Lemma retrieve_context_eq transaction_id depth (w : World) :
  retrieve_context transaction_id depth w
  = (context_tensor (store w) transaction_id depth, w).
Proof.
  unfold retrieve_context, context_tensor, get. unfold mbind, M_bind.
  by destruct (_get_subgraph (store w) transaction_id depth).
Qed.

Lemma explanation_eq transaction_id (w : World) :
  _get_explanation_context transaction_id w
  = (Ok (explanation_of (store w) transaction_id), w).
Proof.
  unfold _get_explanation_context, explanation_of, get. unfold mbind, M_bind.
  by destruct (explanation_query (store w) transaction_id) as [|[[t u] r] rows].
Qed.

(** [predict_fraud], case by case. *)
Lemma predict_fraud_eq transaction_id threshold (w : World) :
  predict_fraud transaction_id threshold w
  = match context_tensor (store w) transaction_id 2 with
    | Raise e => (Raise e, w)
    | Ok graph_data =>
        (forward_eval (model w) graph_data
         ≫= fun p => scoring_with transaction_id
                       (explanation_of (store w) transaction_id)
                       (thresholded threshold p),
         with_model (set_training false (model w)) w)
    end.
Proof.
  unfold predict_fraud. unfold mbind at 1, M_bind at 1. rewrite retrieve_context_eq.
  destruct (context_tensor (store w) transaction_id 2) as [d|e]; [| done].
  unfold mbind at 1, M_bind at 1. rewrite predict_eq.
  destruct (forward_eval (model w) d) as [p|e]; [| done].
  cbn [fmap result_fmap mbind result_bind]. unfold thresholded at 1.
  unfold mbind at 1, M_bind at 1. rewrite explanation_eq. cbn [store with_model].
  rewrite bind_lift. unfold scoring_with, thresholded. cbn [fst snd].
  destruct (index0 p ≫= float_) as [p0|e]; [| done].
  cbn [mbind result_bind]. rewrite bind_lift.
  by destruct (index0 _ ≫= bool_).
Qed.

Lemma predict_fraud_store transaction_id threshold (w : World) :
  store (predict_fraud transaction_id threshold w).2 = store w.
Proof.
  rewrite predict_fraud_eq. by destruct (context_tensor _ _ _).
Qed.

Lemma flag_of_probability threshold (p : tensor float) p0 b :
  index0 p ≫= float_ = Ok p0 ->
  index0 (tmap (fun q => if gt q threshold then PrimFloat.one else PrimFloat.zero) p)
    ≫= bool_ = Ok b ->
  b = gt p0 threshold.
Proof.
  destruct p as [[|a v]|[|r rows]]; try done; cbn.
  - intros [= <-]. destruct (gt a threshold); by intros [= <-].
  - destruct r as [|a [|a' r]]; try done. cbn. intros [= <-].
    destruct (gt a threshold); by intros [= <-].
Qed.

(** X5: when [predict_fraud] returns, the dictionary carries the
    identifier it was called with, its flag says whether its probability is
    above the threshold, and its context is the explanation of the store.
    Whether it returns or raises, the store is as before: the score is
    written nowhere. *)
Theorem predict_fraud_result (tid : string) threshold (w : World) r :
  (predict_fraud tid threshold w).1 = Ok r ->
  transaction_id r = tid
  /\ is_fraudulent r = gt (fraud_probability r) threshold
  /\ context r = explanation_of (store w) tid
  /\ (predict_fraud tid threshold w).2 = with_model (set_training false (model w)) w
  /\ (forall t d, store (predict_fraud t d w).2 = store w).
Proof.
  intros Hr. rewrite predict_fraud_eq in Hr |- *.
  destruct (context_tensor (store w) tid 2) as [d|e]; [| done]. cbn [fst snd] in *.
  destruct (forward_eval (model w) d) as [p|e]; [| done].
  cbn [mbind result_bind] in Hr. unfold scoring_with, thresholded in Hr.
  cbn [fst snd] in Hr.
  destruct (index0 p ≫= float_) as [p0|e] eqn:Hp; [| done].
  cbn [mbind result_bind] in Hr.
  destruct (index0 _ ≫= bool_) as [b|e] eqn:Hb; [| done].
  cbn [mbind result_bind] in Hr. injection Hr as <-. cbn.
  split; [done |]. split; [by apply (flag_of_probability threshold p) |].
  split; [done |]. split; [done |]. intros. apply predict_fraud_store.
Qed.

(** A model that raises on the first example, or an example without
    labels: the pass of the loop raises and leaves the history as it was. *)
Lemma train_batch_unlabelled st batch (w : World) :
  y batch = None ->
  is_ok (train_batch st batch w).1 = false
  /\ history (train_batch st batch w).2 = history w
  /\ model (train_batch st batch w).2 = model w
  /\ (is_ok (forward batch w).1 = true -> (train_batch st batch w).1 = Raise AttributeError).
Proof.
  intros Hy. destruct st as [optimizer total]. rewrite train_batch_eq.
  pose proof (forward_history batch w) as Hh. pose proof (forward_model batch w) as Hm.
  destruct (forward batch w) as [[output|e] w1]; cbn [fst snd] in *; [| done].
  unfold target_of. rewrite Hy. done.
Qed.

(** X6: [retrieve_context] never sets labels, and [train] needs them: on
    examples without labels, as [retrieve_context] returns them, a run of
    one epoch or more never returns; it raises at the first example
    ([AttributeError] when the forward pass returned), having applied no
    step of the optimizer, and the parameters are those it started with. *)
Theorem train_unlabelled_raises train_data epochs learning_rate batch_size (w : World) :
  train_data <> [] ->
  Forall (fun d => y d = None) train_data ->
  1 <= epochs ->
  is_ok (train train_data epochs learning_rate batch_size w).1 = false
  /\ history (train train_data epochs learning_rate batch_size w).2 = history w
  /\ model (train train_data epochs learning_rate batch_size w).2
     = set_training true (model w)
  /\ (forall t depth d, (retrieve_context t depth w).1 = Ok d -> y d = None).
Proof.
  intros Hne Hy He. rewrite train_eq. cbv zeta. cbn [model with_model].
  split; [| split; [| split]].
  4: { intros t depth d. rewrite retrieve_context_eq. cbn [fst]. unfold context_tensor.
       unfold _create_graph_data. intros Hd.
       destruct (tensor_of_rows _) as [nf|]; [| done]. cbn [mbind result_bind] in Hd.
       destruct (edge_rows _) as [rows|]; [| done]. cbn [mbind result_bind] in Hd.
       destruct (tensor_of_rows rows) as [ei|]; [| done]. cbn [mbind result_bind] in Hd.
       by injection Hd as <-. }
  all: destruct (adam _ learning_rate) as [optimizer|e]; [| done].
  all: destruct (Z.to_nat epochs) as [|n] eqn:Hn; [lia |].
  all: cbn [seq for_each]; unfold mbind, M_bind; rewrite train_epoch_eq.
  all: destruct train_data as [|batch rest]; [done |].
  all: apply Forall_cons in Hy as [Hb _].
  all: cbn [for_each]; unfold mbind, M_bind.
  all: destruct (train_batch_unlabelled (optimizer, PrimFloat.zero) batch
                   (with_model (set_training true (model w)) w) Hb)
         as (Hok & Hh & Hm & _).
  all: destruct (train_batch _ batch _) as [[st'|e] w1]; cbn [fst snd] in *; done.
Qed.

End ScoringMore.

Section ScoringMoreWitnesses.
Import Samples.

Lemma predict_fraud_result_witness :
  let l := ConstLib.lib half half in
  let w := world l gnn store_parallel 0%nat in
  let r := mkScoring "T1" half false (explanation_of store_parallel "T1") in
  transaction_id r = "T1"
  /\ is_fraudulent r = @gt l (fraud_probability r) half
  /\ context r = explanation_of (store w) "T1"
  /\ (@predict_fraud l "T1" half w).2 = with_model (set_training false (model w)) w
  /\ (forall t d, store (@predict_fraud l t d w).2 = store w).
Proof.
  intros l w r. apply (@predict_fraud_result l "T1" half w r). reflexivity.
Defined.

Lemma train_unlabelled_raises_witness :
  let l := ConstLib.lib half half in
  let w := world l gnn store_parallel 0%nat in
  let data := [mkData (T2 [[f1]]) (T2 [[0]; [0]]) None] in
  is_ok (@train l data 5 lr 32 w).1 = false
  /\ history (@train l data 5 lr 32 w).2 = history w
  /\ model (@train l data 5 lr 32 w).2 = set_training true (model w)
  /\ (forall t depth d, (@retrieve_context l t depth w).1 = Ok d -> y d = None).
Proof.
  intros l w data. apply (@train_unlabelled_raises l data 5 lr 32 w).
  - done.
  - repeat constructor.
  - lia.
Defined.

End ScoringMoreWitnesses.

(** ** Writing, then explaining *)

Section UpdateThenExplain.
Import Samples.

Lemma update_graph_inv g transaction_data relationships g' :
  update_graph g transaction_data relationships = Ok g' ->
  let t := mkNode (next_node_id g) ["Transaction"] transaction_data in
  violates g t = false
  /\ nodes g' = nodes g ++ [t]
  /\ rels g' = rels g ++ created (next_rel_id g) t (matched (nodes g ++ [t]) relationships)
  /\ unique g' = unique g.
Proof.
  intros Hup t. destruct (violates g t) eqn:Hv.
  { unfold update_graph, update_query in Hup. fold t in Hup. by rewrite Hv in Hup. }
  rewrite (update_graph_ok _ _ _ Hv) in Hup. by injection Hup as <-.
Qed.

Lemma filter_app_list {A} (f : A -> bool) l1 l2 :
  List.filter f (l1 ++ l2) = List.filter f l1 ++ List.filter f l2.
Proof. apply List.filter_app. Qed.

Lemma created_not_belongs next t rows :
  List.filter (fun r => Z.eqb (start_id r) (node_id t) && String.eqb (rel_type r) "BELONGS_TO")
              (created next t rows) = [].
Proof.
  apply filter_none. eapply Forall_impl; [apply created_type |].
  cbn. intros r ->. by rewrite andb_false_r.
Qed.

(** X7: the explanation of a transaction that [update_graph] has just
    written never names a user.  The relationship to the owner is stored
    with the type [CONNECTED_TO], and the explanation query looks for
    [BELONGS_TO]: the context holds the transaction's own properties and no
    user, whatever relationships were declared. *)
Theorem explanation_after_update_has_no_user g transaction_data relationships g' tid :
  unknown g tid ->
  prop "id" transaction_data = VStr tid ->
  next_id_free g ->
  update_graph g transaction_data relationships = Ok g' ->
  exists ex,
    explanation_of g' tid = Some ex
    /\ ex_transaction ex = transaction_data
    /\ ex_user ex = None.
Proof.
  intros Hu Hid Hfree Hup.
  destruct (update_graph_inv _ _ _ _ Hup) as (_ & Hn & Hr & _).
  set (t := mkNode (next_node_id g) ["Transaction"] transaction_data) in *.
  unfold explanation_of, explanation_query. rewrite Hn, filter_app_list.
  rewrite (filter_none _ _ Hu). cbn [app List.filter].
  assert (has_label "Transaction" t && has_id (VStr tid) t = true)%bool as ->.
  { unfold has_id. cbn [t node_props]. rewrite Hid. cbn. apply String.eqb_refl. }
  cbn [mbind list_bind].
  assert (out_neighbours g' t "BELONGS_TO" "User" = []) as ->.
  { unfold out_neighbours. rewrite Hr, filter_app_list, created_not_belongs, app_nil_r.
    rewrite filter_none; [done |]. eapply Forall_impl; [exact Hfree |].
    cbn. intros r [Hs _]. by rewrite (proj2 (Z.eqb_neq _ _) Hs). }
  cbn. eexists. split; [reflexivity |]. done.
Qed.

Lemma explanation_after_update_has_no_user_witness :
  exists ex,
    explanation_of (mkStore [user_U1; mkNode 1 ["Transaction"] T1_data]
                            [mkRel 0 1 0 "CONNECTED_TO" [("type", VStr "BELONGS_TO")]]
                            [("User", "id"); ("Transaction", "id")] 2 1) "T1" = Some ex
    /\ ex_transaction ex = T1_data
    /\ ex_user ex = None.
Proof.
  apply (explanation_after_update_has_no_user store_U1 T1_data [belongs_to_U1]).
  - repeat constructor.
  - reflexivity.
  - constructor.
  - reflexivity.
Defined.

End UpdateThenExplain.

(** ** The handlers *)

Section HandlersMore.
Context {L : TorchLib}.
Variable order_by_desc : string -> list Node -> list Node.

(** [POST /predict], case by case. *)
Lemma route_predict_fraud_eq (transaction : Transaction) (w : World) :
  route_predict_fraud transaction w
  = match update_graph (store w) (dict_ transaction)
            [mkRelSpec (VStr (tx_user_id transaction)) [("type", VStr "BELONGS_TO")]] with
    | Raise e => (HTTPException500 (Lib e), w)
    | Ok g =>
        match predict_fraud (tx_id transaction) Samples.half (with_store g w) with
        | (Ok r, w') => (Answer r, w')
        | (Raise e, w') => (HTTPException500 (Lib e), w')
        end
    end.
Proof.
  unfold route_predict_fraud, handler, run, graphrag_update_graph. cbv zeta.
  unfold mbind, R_bind.
  destruct (update_graph (store w) _ _) as [g|e]; [| done].
  by destruct (predict_fraud _ _ (with_store g w)) as [[r|e] w'].
Qed.

Lemma route_predict_fraud_store (transaction : Transaction) (w : World) :
  store (route_predict_fraud transaction w).2 = store w
  \/ update_graph (store w) (dict_ transaction)
       [mkRelSpec (VStr (tx_user_id transaction)) [("type", VStr "BELONGS_TO")]]
     = Ok (store (route_predict_fraud transaction w).2).
Proof.
  rewrite route_predict_fraud_eq.
  destruct (update_graph (store w) _ _) as [g|e]; [| by left]. right.
  pose proof (predict_fraud_store (tx_id transaction) Samples.half (with_store g w)) as Hs.
  destruct (predict_fraud _ _ (with_store g w)) as [[r|e] w']; cbn [snd] in *;
    by rewrite Hs.
Qed.

Lemma retrieve_context_by_frame id depth (w : World) :
  (retrieve_context_by id depth w).2 = w.
Proof.
  unfold retrieve_context_by, get. unfold mbind, M_bind.
  by destruct (collect _).
Qed.

(** The loop of [/train] never gets past its first pass. *)
Lemma labelled_data_eq (w : World) :
  labelled_data w
  = match labelled_rows (store w) with
    | [] => (Returns [], w)
    | transaction :: _ =>
        match node_get "id" transaction with
        | Raise e => (Raises (Lib e), w)
        | Ok id =>
            match (retrieve_context_by id 2 w).1 with
            | Raise e => (Raises (Lib e), w)
            | Ok _ => (Raises NameError, w)
            end
        end
    end.
Proof.
  unfold labelled_data. unfold mbind at 1, R_bind at 1, run at 1, get.
  destruct (labelled_rows (store w)) as [|t rest]; [done |].
  cbn [for_each_R]. unfold mbind at 1, R_bind at 1.
  unfold mbind at 1, R_bind at 1, run at 1, lift.
  destruct (node_get "id" t) as [id|e]; [| done].
  unfold mbind at 1, R_bind at 1, run at 1.
  pose proof (retrieve_context_by_frame id 2 w) as Hf.
  destruct (retrieve_context_by id 2 w) as [[d|e] w']; cbn [fst snd] in *; by subst w'.
Qed.

Lemma train_empty_eq epochs learning_rate batch_size (w : World) :
  1 <= epochs ->
  train [] epochs learning_rate batch_size w
  = (match adam (set_training true (model w)) learning_rate with
     | Ok _ => Raise ZeroDivisionError
     | Raise e => Raise e
     end,
     with_model (set_training true (model w)) w).
Proof.
  intros He. rewrite train_eq. cbv zeta. cbn [model with_model].
  destruct (adam _ learning_rate) as [optimizer|e]; [| done].
  destruct (Z.to_nat epochs) as [|n] eqn:Hn; [lia |].
  cbn [seq for_each]. unfold mbind, M_bind. rewrite train_epoch_eq. done.
Qed.

(** [POST /train], case by case. *)
Lemma route_train_model_eq (epochs : Z) (w : World) :
  route_train_model epochs w
  = match labelled_data w with
    | (Raises e, w') => (HTTPException500 e, w')
    | (Returns training_data, w') =>
        match train training_data epochs Samples.lr 32 w' with
        | (Ok _, w'') => (Answer "Model training completed successfully", w'')
        | (Raise e, w'') => (HTTPException500 (Lib e), w'')
        end
    end.
Proof.
  unfold route_train_model, handler. unfold mbind at 1, R_bind at 1.
  destruct (labelled_data w) as [[d|e] w']; [| done].
  unfold mbind, R_bind, run. by destruct (train d epochs Samples.lr 32 w') as [[[]|e] w''].
Qed.

(** X9: [POST /train] with one epoch or more never trains.  When a
    labelled transaction exists, the loop that collects the examples raises
    on the first one, at the latest where it names [torch], which
    [routes.py] does not import; when none exists, [train] is called with no
    example and divides by zero.  The handler answers with
    [HTTPException(500)], no step of the optimizer is applied, and the
    parameters and the store are as before. *)
Theorem route_train_model_fails (epochs : Z) (w : World) :
  1 <= epochs ->
  (exists detail, (route_train_model epochs w).1 = HTTPException500 detail)
  /\ history (route_train_model epochs w).2 = history w
  /\ conv_layers (model (route_train_model epochs w).2) = conv_layers (model w)
  /\ fc1 (model (route_train_model epochs w).2) = fc1 (model w)
  /\ fc2 (model (route_train_model epochs w).2) = fc2 (model w)
  /\ store (route_train_model epochs w).2 = store w
  /\ (forall transaction rest id,
        labelled_rows (store w) = transaction :: rest ->
        node_get "id" transaction = Ok id ->
        is_ok (retrieve_context_by id 2 w).1 = true ->
        (route_train_model epochs w).1 = HTTPException500 NameError)
  /\ (forall optimizer,
        labelled_rows (store w) = [] ->
        adam (set_training true (model w)) Samples.lr = Ok optimizer ->
        (route_train_model epochs w).1 = HTTPException500 (Lib ZeroDivisionError)).
Proof.
  intros He. rewrite route_train_model_eq, labelled_data_eq.
  destruct (labelled_rows (store w)) as [|t rest] eqn:Hrows.
  - rewrite (train_empty_eq _ _ _ _ He).
    destruct (adam (set_training true (model w)) Samples.lr) as [optimizer|e] eqn:Ha.
    + cbn. repeat split; try done. by eexists.
    + cbn. repeat split; try done. by eexists.
  - destruct (node_get "id" t) as [id|e] eqn:Hid.
    + destruct (retrieve_context_by id 2 w).1 as [d|e] eqn:Hd.
      * cbn. repeat split; try done. by eexists.
      * cbn. repeat split; try done; [by eexists |].
        intros ? ? id0 [= <- <-] Hid0. rewrite Hid in Hid0. injection Hid0 as <-.
        by rewrite Hd.
    + cbn. repeat split; try done; [by eexists |].
      intros ? ? id0 [= <- <-] Hid0. by rewrite Hid in Hid0.
Qed.

Lemma find_node_app g t i :
  i <> node_id t ->
  List.find (fun n => Z.eqb (node_id n) i) (nodes g ++ [t]) = find_node g i.
Proof.
  intros Hi. unfold find_node. rewrite find_snoc.
  destruct (List.find _ (nodes g)); [done |].
  by rewrite (proj2 (Z.eqb_neq _ _) (not_eq_sym Hi)).
Qed.

Lemma created_not_owned next t rows :
  List.filter (fun r => String.eqb (rel_type r) "BELONGS_TO") (created next t rows) = [].
Proof.
  apply filter_none. eapply Forall_impl; [apply created_type |]. by intros r ->.
Qed.

Lemma user_rows_after_update g transaction_data relationships g' user_id :
  next_id_free g ->
  update_graph g transaction_data relationships = Ok g' ->
  user_transaction_rows g' user_id = user_transaction_rows g user_id.
Proof.
  intros Hfree Hup. destruct (update_graph_inv _ _ _ _ Hup) as (_ & Hn & Hr & _).
  set (t := mkNode (next_node_id g) ["Transaction"] transaction_data) in *.
  unfold user_transaction_rows. rewrite Hr, filter_app_list, created_not_owned, app_nil_r.
  unfold find_node. rewrite Hn. unfold next_id_free in Hfree.
  revert Hfree. generalize (rels g). intros rs Hfree.
  induction Hfree as [|r rs [Hs He] _ IH]; [done |].
  cbn [List.filter]. destruct (String.eqb (rel_type r) "BELONGS_TO"); [| exact IH].
  cbn [mbind list_bind]. rewrite IH. f_equal.
  rewrite (find_node_app g t (start_id r) Hs), (find_node_app g t (end_id r) He). done.
Qed.

(** X10: the transactions of a user, as [GET /user/{id}/transactions]
    lists them, are those joined to the user by [BELONGS_TO]; what
    [update_graph] writes is joined by [CONNECTED_TO].  So on a store where
    no relationship points at the identifier of the node to come, a write
    of [update_graph] changes the answer for no user: the new transaction
    is in nobody's list. *)
Theorem user_transactions_ignore_update transaction_data relationships g' user_id
    (w : World) :
  next_id_free (store w) ->
  update_graph (store w) transaction_data relationships = Ok g' ->
  (route_get_user_transactions order_by_desc user_id (with_store g' w)).1
  = (route_get_user_transactions order_by_desc user_id w).1.
Proof.
  intros Hfree Hup. unfold route_get_user_transactions, handler, run, get.
  unfold mbind, R_bind. cbn [fst store with_store].
  by rewrite (user_rows_after_update _ _ _ _ user_id Hfree Hup).
Qed.

(** X11: [POST /predict] never changes what [GET /alerts] answers: the
    node it writes carries no [fraud_probability], and the score it
    computes is written nowhere. *)
Theorem alerts_ignore_predict (transaction : Transaction) (threshold : float) (w : World) :
  (route_get_fraud_alerts order_by_desc threshold (route_predict_fraud transaction w).2).1
  = (route_get_fraud_alerts order_by_desc threshold w).1.
Proof.
  unfold route_get_fraud_alerts, handler, run, get. unfold mbind, R_bind. cbn [fst].
  destruct (route_predict_fraud_store transaction w) as [Hs|Hs]; [by rewrite Hs |].
  destruct (update_graph_inv _ _ _ _ Hs) as (_ & Hn & _).
  assert (alert_rows (store (route_predict_fraud transaction w).2) threshold
          = alert_rows (store w) threshold) as ->; [| done].
  unfold alert_rows. rewrite Hn, filter_app_list. cbn. by rewrite app_nil_r.
Qed.

End HandlersMore.

Section HandlersWitnesses.
Import Samples.

Lemma route_train_model_fails_witness :
  let l := ConstLib.lib half half in
  let w := world l gnn store_chain 0%nat in
  (exists detail, (@route_train_model l 100 w).1 = HTTPException500 detail)
  /\ history (@route_train_model l 100 w).2 = history w
  /\ conv_layers (model (@route_train_model l 100 w).2) = conv_layers (model w)
  /\ fc1 (model (@route_train_model l 100 w).2) = fc1 (model w)
  /\ fc2 (model (@route_train_model l 100 w).2) = fc2 (model w)
  /\ store (@route_train_model l 100 w).2 = store w
  /\ (forall transaction rest id,
        labelled_rows (store w) = transaction :: rest ->
        node_get "id" transaction = Ok id ->
        is_ok (@retrieve_context_by l id 2 w).1 = true ->
        (@route_train_model l 100 w).1 = HTTPException500 NameError)
  /\ (forall optimizer,
        labelled_rows (store w) = [] ->
        @adam l (set_training true (model w)) lr = Ok optimizer ->
        (@route_train_model l 100 w).1 = HTTPException500 (Lib ZeroDivisionError)).
Proof.
  intros l w. apply (@route_train_model_fails l 100 w). lia.
Defined.

Lemma user_transactions_ignore_update_witness :
  let l := ConstLib.lib half half in
  let w := world l gnn store_U1 0%nat in
  let g' := mkStore [user_U1; mkNode 1 ["Transaction"] T1_data]
                    [mkRel 0 1 0 "CONNECTED_TO" [("type", VStr "BELONGS_TO")]]
                    [("User", "id"); ("Transaction", "id")] 2 1 in
  (@route_get_user_transactions l (fun _ rows => rows) "U1" (with_store g' w)).1
  = (@route_get_user_transactions l (fun _ rows => rows) "U1" w).1.
Proof.
  intros l w g'.
  apply (@user_transactions_ignore_update l (fun _ rows => rows) T1_data [belongs_to_U1]
           g' "U1" w).
  - constructor.
  - reflexivity.
Defined.

(** A labelled transaction whose context can be built: the handler stops
    at the name [torch]. *)
Example route_train_model_name_error :
  let l := ConstLib.lib half half in
  let labelled := mkNode 0 ["Transaction"] [("id", VStr "T1"); ("label", VInt 1)] in
  (@route_train_model l 100 (world l gnn (mkStore [labelled] [] [] 1 0) 0%nat)).1
  = HTTPException500 NameError.
Proof. vm_compute. reflexivity. Qed.

End HandlersWitnesses.

(** ** gnn.py: evaluation *)

Section EvaluateMore.
Context {L : TorchLib}.
Variable accuracy_score : list (list Z) -> list Z -> result float.
Variable roc_auc_score : list (list Z) -> list (list float) -> result float.

Lemma eval_mode_fixed w :
  training (model w) = false -> with_model (set_training false (model w)) w = w.
Proof. destruct w as [[] ? ? ? ? ? ?]. cbn. by intros ->. Qed.

Lemma evaluate_batch_eq acc batch w :
  evaluate_batch acc batch w
  = (probabilities ← forward_eval (model w) batch;
     labels ← labels_of batch;
     Ok (acc.1 ++ items probabilities, acc.2 ++ labels),
     with_model (set_training false (model w)) w).
Proof.
  destruct acc as [all_preds all_labels]. unfold evaluate_batch.
  unfold mbind at 1, M_bind at 1. rewrite predict_eq.
  destruct (forward_eval (model w) batch) as [p|e]; [| done].
  cbn. unfold mbind at 1, M_bind at 1, lift.
  by destruct (labels_of batch).
Qed.

Lemma gathered_eq test_data :
  forall acc w,
    training (model w) = false ->
    for_each evaluate_batch acc test_data w = (gathered (model w) acc test_data, w).
Proof.
  induction test_data as [|batch rest IH]; intros acc w Hw; [done |].
  cbn [for_each gathered]. unfold mbind at 1, M_bind at 1.
  rewrite evaluate_batch_eq, (eval_mode_fixed w Hw).
  destruct (forward_eval (model w) batch) as [p|e]; [| done].
  destruct (labels_of batch) as [l|e]; [| done].
  cbn. by apply IH.
Qed.

Lemma gathered_training b m test_data :
  forall acc, gathered (set_training b m) acc test_data = gathered m acc test_data.
Proof.
  induction test_data as [|batch rest IH]; intros acc; [done |].
  cbn [gathered]. rewrite forward_eval_training.
  destruct (forward_eval m batch) as [p|e]; [| done].
  destruct (labels_of batch) as [l|e]; [| done].
  cbn. apply IH.
Qed.

(** [evaluate] as one equation. *)
Lemma evaluate_eq test_data w :
  evaluate accuracy_score roc_auc_score test_data w
  = (gathered (model w) ([], []) test_data ≫= metrics accuracy_score roc_auc_score,
     with_model (set_training false (model w)) w).
Proof.
  unfold evaluate, modify, no_grad. unfold mbind at 1, M_bind at 1.
  unfold mbind at 1, M_bind at 1.
  rewrite gathered_eq by done. cbn [model with_grad with_model].
  rewrite gathered_training.
  destruct (gathered _ _ test_data) as [acc|e]; destruct w; reflexivity.
Qed.

(** X12: [FraudDetector.evaluate] touches nothing but the mode flag, which
    it leaves off: the parameters, the random generator, the grad mode, the
    store, the disk and the output are as before, whether it returns or
    raises.  What it returns does not depend on the state of the random
    generator, on the grad mode or on the mode the model was in.  And test
    data whose first example carries no labels makes it raise
    AttributeError once the forward pass of that example is through. *)
Theorem evaluate_frame (test_data : list Data) (w : World) :
  (evaluate accuracy_score roc_auc_score test_data w).2
    = with_model (set_training false (model w)) w
  /\ (forall r g b,
        (evaluate accuracy_score roc_auc_score test_data
           (with_model (set_training b (model w)) (with_grad g (with_rng r w)))).1
        = (evaluate accuracy_score roc_auc_score test_data w).1)
  /\ (forall batch rest,
        test_data = batch :: rest ->
        y batch = None ->
        is_ok (forward_eval (model w) batch) = true ->
        (evaluate accuracy_score roc_auc_score test_data w).1 = Raise AttributeError).
Proof.
  rewrite evaluate_eq. split; [done |]. split.
  - intros r g b. rewrite evaluate_eq. cbn [fst model with_model].
    by rewrite gathered_training.
  - intros batch rest -> Hy Hok. cbn [fst gathered].
    destruct (forward_eval (model w) batch) as [p|e]; [| done].
    unfold labels_of. rewrite Hy. done.
Qed.

End EvaluateMore.

(** ** gnn.py: construction *)

Section ConstructionMore.
Context {L : TorchLib}.
Variable new_conv : Z -> Z -> float -> rng_t -> result (GCNConv * rng_t).
Variable new_linear : Z -> Z -> rng_t -> result (Linear * rng_t).

Lemma hidden_convs_length n hidden_dim dropout :
  forall r cs r',
    hidden_convs new_conv n hidden_dim dropout r = Ok (cs, r') -> length cs = n.
Proof.
  induction n as [|n IH]; intros r cs r'; cbn [hidden_convs].
  - by intros [= <- _].
  - destruct (new_conv hidden_dim hidden_dim dropout r) as [[c r1]|e]; [| done]. cbn.
    destruct (hidden_convs new_conv n hidden_dim dropout r1) as [[cs1 r2]|e] eqn:Hcs; [| done].
    cbn. intros [= <- _]. cbn. f_equal. by eapply IH.
Qed.

(** What a construction that returns went through. *)
Lemma FraudGNN_init_inv input_dim hidden_dim output_dim num_layers dropout r m r' :
  FraudGNN_init new_conv new_linear input_dim hidden_dim output_dim num_layers dropout r
    = Ok (m, r') ->
  exists first middle last l1 l2 r1 r2 r3 r4 r1' r2' r3' r4',
    new_conv input_dim hidden_dim dropout r = Ok (first, r1')
    /\ hidden_convs new_conv (Z.to_nat (num_layers - 2)) hidden_dim dropout r1 = Ok (middle, r2')
    /\ new_conv hidden_dim hidden_dim dropout r2 = Ok (last, r3')
    /\ new_linear hidden_dim (hidden_dim / 2) r3 = Ok (l1, r4')
    /\ new_linear (hidden_dim / 2) output_dim r4 = Ok (l2, r')
    /\ m = mkFraudGNN num_layers dropout ([first] ++ middle ++ [last]) l1 l2 true.
Proof.
  unfold FraudGNN_init.
  destruct (new_conv input_dim hidden_dim dropout r) as [[first r1]|e] eqn:H1; [| done]. cbn.
  destruct (hidden_convs new_conv _ hidden_dim dropout r1) as [[middle r2]|e] eqn:H2; [| done].
  cbn.
  destruct (new_conv hidden_dim hidden_dim dropout r2) as [[last r3]|e] eqn:H3; [| done]. cbn.
  destruct (new_linear hidden_dim (hidden_dim / 2) r3) as [[l1 r4]|e] eqn:H4; [| done]. cbn.
  destruct (new_linear (hidden_dim / 2) output_dim r4) as [[l2 r5]|e] eqn:H5; [| done]. cbn.
  intros [= <- <-]. by exists first, middle, last, l1, l2, r1, r2, r3, r4, r1, r2, r3, r4.
Qed.

(** X13: a [FraudGNN] that [__init__] has built holds [max 2 num_layers]
    graph layers: two of them even when [num_layers] is 1, 0 or negative,
    while its attribute [num_layers] keeps the argument as given.  It starts
    in training mode and with the dropout rate given. *)
Theorem FraudGNN_init_layers (input_dim hidden_dim output_dim num_layers : Z)
    (dropout : float) (r r' : rng_t) (m : FraudGNN) :
  FraudGNN_init new_conv new_linear input_dim hidden_dim output_dim num_layers dropout r
    = Ok (m, r') ->
  length (conv_layers m) = Z.to_nat (Z.max 2 num_layers)
  /\ GNN.num_layers m = num_layers
  /\ GNN.dropout m = dropout
  /\ training m = true.
Proof.
  intros Hm. apply FraudGNN_init_inv in Hm
    as (first & middle & last & l1 & l2 & r1 & r2 & r3 & r4 & ? & ? & ? & ? & _ & Hmid & _ & _ & _ & ->).
  cbn [conv_layers GNN.num_layers GNN.dropout training]. split; [| done].
  apply hidden_convs_length in Hmid.
  rewrite !length_app, Hmid. cbn [length]. lia.
Qed.

Lemma hidden_convs_same (Hconv : conv_shapes new_conv) n hidden_dim d d' :
  forall r1 r2 cs1 cs2 r1' r2',
    hidden_convs new_conv n hidden_dim d r1 = Ok (cs1, r1') ->
    hidden_convs new_conv n hidden_dim d' r2 = Ok (cs2, r2') ->
    Forall2 same_conv cs1 cs2.
Proof.
  induction n as [|n IH]; intros r1 r2 cs1 cs2 r1' r2'; cbn [hidden_convs].
  - intros [= <- _] [= <- _]. constructor.
  - destruct (new_conv hidden_dim hidden_dim d r1) as [[c1 s1]|e] eqn:H1; [| done]. cbn.
    destruct (hidden_convs new_conv n hidden_dim d s1) as [[t1 u1]|e] eqn:G1; [| done]. cbn.
    intros [= <- _].
    destruct (new_conv hidden_dim hidden_dim d' r2) as [[c2 s2]|e] eqn:H2; [| done]. cbn.
    destruct (hidden_convs new_conv n hidden_dim d' s2) as [[t2 u2]|e] eqn:G2; [| done]. cbn.
    intros [= <- _]. constructor; [by eapply Hconv | by eapply IH].
Qed.

(** X14: two models built with the same dimensions and dropout rate, and
    with layer counts that agree once both are raised to two, have one
    architecture, whatever the random generator gave their weights: the
    state saved from one loads into the other, which then holds the saved
    parameters.  So a checkpoint of a model built with [num_layers=1] loads
    into one built with [num_layers=2]. *)
Theorem FraudGNN_init_loadable (input_dim hidden_dim output_dim k k' : Z) (dropout : float)
    (r1 r2 r1' r2' : rng_t) (m1 m2 : FraudGNN) (w : World) :
  conv_shapes new_conv ->
  linear_shapes new_linear ->
  Z.max 2 k = Z.max 2 k' ->
  FraudGNN_init new_conv new_linear input_dim hidden_dim output_dim k dropout r1
    = Ok (m1, r1') ->
  FraudGNN_init new_conv new_linear input_dim hidden_dim output_dim k' dropout r2
    = Ok (m2, r2') ->
  model w = m2 ->
  same_architecture m1 m2
  /\ load_state_dict (state_dict m1) w = (Ok tt, with_model (set_parameters m2 m1) w).
Proof.
  intros Hconv Hlin Hk H1 H2 Hw.
  assert (same_architecture m1 m2) as Hs.
  { apply FraudGNN_init_inv in H1
      as (a1 & b1 & c1 & d1 & e1 & ? & ? & ? & ? & ? & ? & ? & ? & A1 & B1 & C1 & D1 & E1 & ->).
    apply FraudGNN_init_inv in H2
      as (a2 & b2 & c2 & d2 & e2 & ? & ? & ? & ? & ? & ? & ? & ? & A2 & B2 & C2 & D2 & E2 & ->).
    replace (Z.to_nat (k' - 2)) with (Z.to_nat (k - 2)) in B2 by lia.
    unfold same_architecture. cbn [conv_layers fc1 fc2 GNN.dropout].
    split; [| split; [by eapply Hlin | split; [by eapply Hlin | done]]].
    apply Forall2_app; [constructor; [by eapply Hconv | constructor] |].
    apply Forall2_app; [by eapply hidden_convs_same |].
    constructor; [by eapply Hconv | constructor]. }
  split; [done |]. subst m2. by apply load_state_dict_ok.
Qed.

End ConstructionMore.

Section ConstructionWitnesses.

Lemma const_conv_shapes : conv_shapes (L := ConstLib.lib Samples.f0 Samples.f0) ConstInit.new_conv.
Proof.
  intros i o d d' r1 r2 c1 c2 r1' r2'. unfold ConstInit.new_conv.
  destruct (_ || _)%bool; [done |]. by intros [= <- _] [= <- _].
Qed.

Lemma const_linear_shapes :
  linear_shapes (L := ConstLib.lib Samples.f0 Samples.f0) ConstInit.new_linear.
Proof.
  intros i o r1 r2 l1 l2 r1' r2'. unfold ConstInit.new_linear.
  destruct (_ || _)%bool; [done |]. by intros [= <- _] [= <- _].
Qed.

End ConstructionWitnesses.

Section ConstructionWitnesses2.
Import Samples.

Lemma FraudGNN_init_layers_witness :
  let m := mkFraudGNN 1 f0 (conv_layers gnn) (fc1 gnn) (fc2 gnn) true in
  length (conv_layers m) = Z.to_nat (Z.max 2 1)
  /\ GNN.num_layers m = 1
  /\ GNN.dropout m = f0
  /\ training m = true.
Proof.
  intros m.
  apply (@FraudGNN_init_layers (ConstLib.lib f0 f0) ConstInit.new_conv ConstInit.new_linear
           1 2 1 1 f0 0%nat 4%nat m).
  vm_compute. reflexivity.
Defined.

Lemma FraudGNN_init_loadable_witness :
  let l := ConstLib.lib f0 f0 in
  let m1 := set_training true gnn in
  let m2 := mkFraudGNN 1 f0 (conv_layers gnn) (fc1 gnn) (fc2 gnn) true in
  let w := world l m2 empty_store 0%nat in
  same_architecture m1 m2
  /\ @load_state_dict l (state_dict m1) w = (Ok tt, with_model (set_parameters m2 m1) w).
Proof.
  intros l m1 m2 w.
  apply (@FraudGNN_init_loadable l ConstInit.new_conv ConstInit.new_linear
           1 2 1 2 1 f0 0%nat 0%nat 4%nat 4%nat m1 m2 w
           const_conv_shapes const_linear_shapes).
  - lia.
  - vm_compute. reflexivity.
  - vm_compute. reflexivity.
  - reflexivity.
Defined.

End ConstructionWitnesses2.

(** ** gnn.py: what a training run leaves alone, and what it prints *)

Section TrainMore.
Context {L : TorchLib}.

Lemma train_kept_refl w : train_kept w w.
Proof. by repeat split. Qed.

Lemma train_kept_trans w1 w2 w3 : train_kept w1 w2 -> train_kept w2 w3 -> train_kept w1 w3.
Proof.
  intros (A1 & A2 & A3 & A4 & A5 & A6) (B1 & B2 & B3 & B4 & B5 & B6).
  unfold train_kept. by rewrite B1, B2, B3, B4, B5, B6.
Qed.

Lemma for_each_kept {A B} (P : World -> World -> Prop) (body : B -> A -> M B) :
  (forall w, P w w) ->
  (forall w1 w2 w3, P w1 w2 -> P w2 w3 -> P w1 w3) ->
  (forall acc a w, P w (body acc a w).2) ->
  forall l acc w, P w (for_each body acc l w).2.
Proof.
  intros Hrefl Htrans Hbody. induction l as [|a l IH]; intros acc w; [apply Hrefl |].
  cbn [for_each]. unfold mbind, M_bind.
  pose proof (Hbody acc a w) as Ha.
  destruct (body acc a w) as [[acc'|e] w1]; [| done].
  eapply Htrans; [exact Ha | apply IH].
Qed.

Lemma train_batch_kept st batch w :
  train_kept w (train_batch st batch w).2 /\ stdout (train_batch st batch w).2 = stdout w.
Proof.
  destruct st as [optimizer total_loss]. rewrite train_batch_eq.
  pose proof (forward_rng_only batch w) as Hr.
  destruct (forward batch w) as [[output|e] w1]; cbn [snd] in Hr; rewrite Hr.
  - destruct (target_of batch ≫= bce_loss output); [| done].
    destruct (grad_enabled w) eqn:Hg; [| done].
    by destruct (backward _ _ _ ≫= _) as [[optimizer' m']|].
  - done.
Qed.

Lemma train_batches_kept train_data st w :
  train_kept w (for_each train_batch st train_data w).2
  /\ stdout (for_each train_batch st train_data w).2 = stdout w.
Proof.
  apply (for_each_kept (fun w w' => train_kept w w' /\ stdout w' = stdout w)).
  - intros w0. split; [apply train_kept_refl | done].
  - intros w1 w2 w3 [A1 A2] [B1 B2]. split; [by eapply train_kept_trans | congruence].
  - intros. apply train_batch_kept.
Qed.

(** One pass: the frame, and the line it prints if it is a tenth pass that
    got through. *)
Lemma train_epoch_kept train_data epochs optimizer epoch w :
  let r := train_epoch train_data epochs optimizer epoch w in
  train_kept w r.2
  /\ exists lines,
       stdout r.2 = stdout w ++ lines
       /\ Forall (fun line => line.1.2 = epochs) lines
       /\ line_epochs lines `prefix_of` due epoch 1
       /\ (is_ok r.1 = true -> line_epochs lines = due epoch 1).
Proof.
  cbv zeta. rewrite train_epoch_eq.
  destruct (train_batches_kept train_data (optimizer, PrimFloat.zero) w) as [Hk Ho].
  assert (forall w1 : World, stdout w1 = stdout w ->
            exists lines : list (Z * Z * float),
              stdout w1 = stdout w ++ lines
              /\ Forall (fun line => line.1.2 = epochs) lines
              /\ line_epochs lines `prefix_of` due epoch 1
              /\ (is_ok (Raise ValueError : result opt_t) = true ->
                  line_epochs lines = due epoch 1)) as Hnone.
  { intros w1 Hw1. exists []. rewrite app_nil_r. repeat split; try done.
    apply prefix_nil. }
  destruct (for_each train_batch _ train_data w) as [[[opt' total]|e] w1];
    cbn [fst snd] in *.
  - destruct (div_len total (length train_data)) as [avg|e]; cbn [fst snd].
    + unfold due. cbn [seq filter list_filter].
      unfold decide, tenth_dec, decide, decide_rel.
      destruct (Z.eq_dec _ 0) as [Ht|Ht].
      * split; [done |]. exists [(Z.of_nat epoch + 1, epochs, avg)].
        cbn. rewrite Ho. repeat split; try done. by repeat constructor.
      * split; [done |]. exists []. rewrite app_nil_r. by repeat split.
    + split; [done |]. destruct (Hnone w1 Ho) as (lines & ? & ? & ? & _).
      exists lines. by repeat split.
  - split; [done |]. destruct (Hnone w1 Ho) as (lines & ? & ? & ? & _).
    exists lines. by repeat split.
Qed.

Lemma due_cons start len : due start (S len) = due start 1 ++ due (S start) len.
Proof.
  unfold due. change (seq start (S len)) with ([start] ++ seq (S start) len).
  by rewrite filter_app, fmap_app.
Qed.

Lemma train_epochs_kept train_data epochs len :
  forall start optimizer w,
    let r := for_each (train_epoch train_data epochs) optimizer (seq start len) w in
    train_kept w r.2
    /\ exists lines,
         stdout r.2 = stdout w ++ lines
         /\ Forall (fun line => line.1.2 = epochs) lines
         /\ line_epochs lines `prefix_of` due start len
         /\ (is_ok r.1 = true -> line_epochs lines = due start len).
Proof.
  induction len as [|len IH]; intros start optimizer w; cbv zeta.
  - cbn [seq for_each]. split; [apply train_kept_refl |].
    exists []. rewrite app_nil_r. by repeat split.
  - rewrite due_cons. cbn [seq for_each]. unfold mbind, M_bind.
    destruct (train_epoch_kept train_data epochs optimizer start w)
      as (Hk & lines & Ho & Hall & Hpre & Hok).
    destruct (train_epoch train_data epochs optimizer start w) as [[opt'|e] w1];
      cbn [fst snd] in *.
    + destruct (IH (S start) opt' w1) as (Hk' & lines' & Ho' & Hall' & Hpre' & Hok').
      split; [by eapply train_kept_trans |].
      exists (lines ++ lines'). unfold line_epochs in *. rewrite fmap_app.
      rewrite Ho', Ho, <- app_assoc, (Hok eq_refl). repeat split.
      * by apply Forall_app.
      * by apply prefix_app.
      * intros Hr. by rewrite (Hok' Hr).
    + split; [done |]. exists lines. repeat split; try done.
      by apply prefix_app_r.
Qed.

Lemma count_tens n : Z.of_nat (length (due 0 n)) = Z.of_nat n / 10.
Proof.
  unfold due. rewrite length_fmap.
  induction n as [|n IH]; [done |].
  rewrite seq_S, filter_app, length_app, Nat2Z.inj_add, IH. cbn [plus filter list_filter].
  destruct (decide _) as [H|H]; unfold tenth in H; cbn [length];
    Z.to_euclidean_division_equations; lia.
Qed.

(** X15: whatever the data, the arguments and the outcome, [train] leaves
    the model in training mode and touches neither the attributes
    [num_layers] and [dropout] nor the grad mode, the graph store or the
    files: a run writes no checkpoint, also not when it dies half way with
    the weights already moved. *)
Theorem train_frame (train_data : list Data) (epochs : Z) (learning_rate : float)
    (batch_size : Z) (w : World) :
  let w' := (train train_data epochs learning_rate batch_size w).2 in
  training (model w') = true
  /\ GNN.num_layers (model w') = GNN.num_layers (model w)
  /\ GNN.dropout (model w') = GNN.dropout (model w)
  /\ grad_enabled w' = grad_enabled w
  /\ store w' = store w
  /\ disk w' = disk w.
Proof.
  cbv zeta. rewrite train_eq. cbv zeta.
  destruct (adam _ learning_rate) as [optimizer|e]; [| done].
  destruct (train_epochs_kept train_data epochs (Z.to_nat epochs) 0 optimizer
              (with_model (set_training true (model w)) w)) as [Hk _].
  cbv zeta in Hk.
  destruct (for_each _ optimizer _ _) as [[opt'|e] w1]; cbn [fst snd] in *;
    destruct Hk as (-> & -> & -> & -> & -> & ->); done.
Qed.

(** X16: the output of [train] is one line for every tenth pass it gets
    through, with the numbers 10, 20, ... in order and the total [epochs]
    in each line: a run that returns has printed [epochs / 10] lines (none
    for fewer than ten epochs), a run that raises a first part of them. *)
Theorem train_prints (train_data : list Data) (epochs : Z) (learning_rate : float)
    (batch_size : Z) (w : World) :
  let r := train train_data epochs learning_rate batch_size w in
  exists lines,
    stdout r.2 = stdout w ++ lines
    /\ Forall (fun line => line.1.2 = epochs /\ line.1.1 mod 10 = 0) lines
    /\ line_epochs lines `prefix_of` due 0 (Z.to_nat epochs)
    /\ (is_ok r.1 = true ->
        line_epochs lines = due 0 (Z.to_nat epochs)
        /\ Z.of_nat (length lines) = Z.max 0 epochs / 10).
Proof.
  cbv zeta. rewrite train_eq. cbv zeta.
  assert (forall lines : list (Z * Z * float),
            Forall (fun line => line.1.2 = epochs) lines ->
            line_epochs lines `prefix_of` due 0 (Z.to_nat epochs) ->
            Forall (fun line => line.1.2 = epochs /\ line.1.1 mod 10 = 0) lines) as Hmod.
  { intros lines Hall [rest Hpre]. apply Forall_forall. intros line Hline.
    split; [by eapply Forall_forall in Hall |].
    assert (line.1.1 ∈ due 0 (Z.to_nat epochs)) as Hin.
    { rewrite Hpre. apply elem_of_app. left. unfold line_epochs.
      apply list_elem_of_fmap. by exists line. }
    unfold due in Hin. apply list_elem_of_fmap in Hin as (epoch & -> & Hin).
    by apply list_elem_of_filter in Hin as [Ht _]. }
  destruct (adam _ learning_rate) as [optimizer|e].
  - destruct (train_epochs_kept train_data epochs (Z.to_nat epochs) 0 optimizer
                (with_model (set_training true (model w)) w))
      as (_ & lines & Ho & Hall & Hpre & Hok).
    cbv zeta in *.
    destruct (for_each _ optimizer _ _) as [[opt'|e] w1]; cbn [fst snd] in *.
    + exists lines. repeat split; try done; [by apply Hmod | by apply Hok |].
      rewrite <- (length_fmap (fun line => line.1.1)). fold (line_epochs lines).
      rewrite (Hok eq_refl), count_tens. f_equal. lia.
    + exists lines. repeat split; try done. by apply Hmod.
  - exists []. cbn. rewrite app_nil_r. repeat split; try done. apply prefix_nil.
Qed.

End TrainMore.

(** ** gnn.py: checkpoints *)

Section CheckpointsMore.
Context {L : TorchLib}.

(** X18: a load that fails is not undone.  When the graph layers of the
    stored state fit the model and the weight of [fc2] does not (a
    checkpoint of a model with another [output_dim]), [load_state_dict]
    raises RuntimeError, and the model is left with the graph layers of the
    checkpoint next to its own [fc2] weight. *)
Theorem load_mismatch_not_atomic (m : FraudGNN) (w : World) :
  Forall2 same_conv (conv_layers m) (conv_layers (model w)) ->
  shape (weight (fc2 m)) <> shape (weight (fc2 (model w))) ->
  (load_state_dict (state_dict m) w).1 = Raise RuntimeError
  /\ conv_layers (model (load_state_dict (state_dict m) w).2) = conv_layers m
  /\ weight (fc2 (model (load_state_dict (state_dict m) w).2)) = weight (fc2 (model w)).
Proof.
  intros Hc Hne. destruct (state_dict_fc m) as (_ & _ & H3 & _).
  assert (load_ok (state_dict m) (model w) = false) as Hbad.
  { unfold load_ok. apply andb_false_iff. left.
    destruct (forallb _ (state_dict (model w))) eqn:E; [exfalso | done].
    rewrite forallb_forall in E.
    specialize (E (Fc2Weight, weight (fc2 (model w)))). cbn [fst snd] in E.
    rewrite H3 in E. eapply Hne, bool_decide_eq_true_1, E.
    unfold state_dict. apply in_or_app. right. cbn. tauto. }
  unfold load_state_dict, get, modify. unfold mbind, M_bind. rewrite Hbad.
  cbn [fst snd model with_model raise]. unfold load_parameters.
  cbn [conv_layers fc2 weight]. split; [done |]. split.
  - by rewrite (load_convs_state_dict m (conv_layers (model w)) 0 Hc).
  - unfold loaded. rewrite H3. by rewrite decide_False.
Qed.

End CheckpointsMore.

Section CheckpointsWitnesses.
Import Samples.

Lemma load_mismatch_not_atomic_witness :
  let l := ConstLib.lib f0 f0 in
  let wide :=
    mkFraudGNN 2 f0 (conv_layers gnn') (fc1 gnn') (mkLinear (T2 [[f1]; [f1]]) (T1 [f1; f1]))
      true in
  let w := world l wide empty_store 0%nat in
  (@load_state_dict l (state_dict gnn) w).1 = Raise RuntimeError
  /\ conv_layers (model (@load_state_dict l (state_dict gnn) w).2) = conv_layers gnn
  /\ weight (fc2 (model (@load_state_dict l (state_dict gnn) w).2)) = weight (fc2 (model w)).
Proof.
  intros l wide w. apply (@load_mismatch_not_atomic l gnn w).
  - repeat constructor.
  - cbn. congruence.
Defined.

End CheckpointsWitnesses.

(** ** routes.py: reading a score, and the model status *)

Section ReadingMore.
Context {L : TorchLib}.

Lemma route_get_transaction_eq tid (w : World) :
  route_get_transaction tid w
  = match context_tensor (store w) tid 2 with
    | Raise e => (HTTPException500 (Lib e), w)
    | Ok graph_data =>
        (match forward_eval (model w) graph_data
               ≫= fun p => scoring_with tid (explanation_of (store w) tid)
                             (thresholded Samples.half p) with
         | Ok s => Answer s
         | Raise e => HTTPException500 (Lib e)
         end,
         with_model (set_training false (model w)) w)
    end.
Proof.
  unfold route_get_transaction, handler, run. rewrite predict_fraud_eq.
  destruct (context_tensor (store w) tid 2) as [d|e]; [| done].
  by destruct (forward_eval (model w) d ≫= _).
Qed.

Lemma route_get_transaction_again tid (w : World) :
  route_get_transaction tid (route_get_transaction tid w).2 = route_get_transaction tid w.
Proof.
  rewrite !route_get_transaction_eq.
  destruct (context_tensor (store w) tid 2) as [d|e] eqn:Hd; cbn [snd]; rewrite ?Hd; [| done].
  cbn [store model with_model]. rewrite Hd, forward_eval_training.
  by destruct w as [[] ? ? ? ? ? ?].
Qed.

(** X19: [GET /transaction/{id}] can be repeated: the same request again
    gives the same answer (the same score or the same failure) and leaves
    the state as the first left it; the store, the parameters, the random
    generator and the files it never changes.  And once [POST /predict] has
    written its transaction, the [GET] for that transaction answers what
    the [POST] answered. *)
Theorem route_get_transaction_repeatable (tid : string) (w : World) :
  let w' := (route_get_transaction tid w).2 in
  route_get_transaction tid w' = route_get_transaction tid w
  /\ store w' = store w
  /\ set_training false (model w') = set_training false (model w)
  /\ rng w' = rng w
  /\ disk w' = disk w
  /\ (forall transaction g,
        tx_id transaction = tid ->
        update_graph (store w) (dict_ transaction)
          [mkRelSpec (VStr (tx_user_id transaction)) [("type", VStr "BELONGS_TO")]] = Ok g ->
        route_get_transaction tid (route_predict_fraud transaction w).2
        = route_predict_fraud transaction w).
Proof.
  cbv zeta. split; [apply route_get_transaction_again |].
  rewrite route_get_transaction_eq.
  destruct (context_tensor (store w) tid 2) as [d|e] eqn:Hd; cbn [snd].
  all: repeat (split; [done |]).
  all: intros transaction g <- Hg.
  all: assert (route_predict_fraud transaction w
               = route_get_transaction (tx_id transaction) (with_store g w)) as ->
         by (unfold route_predict_fraud, route_get_transaction, handler;
             unfold mbind at 1, R_bind at 1, run at 1, graphrag_update_graph;
             by rewrite Hg).
  all: apply route_get_transaction_again.
Qed.

End ReadingMore.

Section StatusMore.
Context {L : TorchLib}.
Variable accuracy_score : list (list Z) -> list Z -> result float.
Variable roc_auc_score : list (list Z) -> list (list float) -> result float.
Variable MODEL_PATH : string.

(** The loop of [/model/status] never gets past its first pass. *)
Lemma test_data_eq (w : World) :
  test_data w
  = match labelled_rows (store w) with
    | [] => (Returns [], w)
    | transaction :: _ =>
        match node_get "id" transaction with
        | Raise e => (Raises (Lib e), w)
        | Ok id =>
            match (retrieve_context_by id 2 w).1 with
            | Raise e => (Raises (Lib e), w)
            | Ok _ => (Raises NameError, w)
            end
        end
    end.
Proof.
  unfold test_data. unfold mbind at 1, R_bind at 1, run at 1, get.
  destruct (labelled_rows (store w)) as [|t rest]; [done |].
  change (take 100 (t :: rest)) with (t :: take 99 rest).
  cbn [for_each_R]. unfold mbind at 1, R_bind at 1.
  unfold mbind at 1, R_bind at 1, run at 1, lift.
  destruct (node_get "id" t) as [id|e]; [| done].
  unfold mbind at 1, R_bind at 1, run at 1.
  pose proof (retrieve_context_by_frame id 2 w) as Hf.
  destruct (retrieve_context_by id 2 w) as [[d|e] w']; cbn [fst snd] in *; by subst w'.
Qed.

(** [GET /model/status], case by case. *)
Lemma route_get_model_status_eq (w : World) :
  route_get_model_status accuracy_score roc_auc_score MODEL_PATH w
  = match test_data w with
    | (Returns d, w') =>
        match evaluate accuracy_score roc_auc_score d w' with
        | (Ok (a, u), w2) => (Answer (mkModelStatus a u MODEL_PATH), w2)
        | (Raise e, w2) => (HTTPException500 (Lib e), w2)
        end
    | (Raises e, w') => (HTTPException500 e, w')
    end.
Proof.
  unfold route_get_model_status, handler. unfold mbind at 1, R_bind at 1.
  destruct (test_data w) as [[d|e] w']; [| done].
  unfold mbind, R_bind, run.
  by destruct (evaluate accuracy_score roc_auc_score d w') as [[[a u]|e] w2].
Qed.

(** X20: as soon as one transaction carries a label, [GET /model/status]
    answers with [HTTPException(500)] and has changed nothing, the mode flag
    included: the loop that collects the test data raises on the first row,
    at the latest where it names [torch], so [evaluate] is never reached. *)
Theorem route_get_model_status_fails (w : World) :
  labelled_rows (store w) <> [] ->
  let r := route_get_model_status accuracy_score roc_auc_score MODEL_PATH w in
  (exists detail, r.1 = HTTPException500 detail)
  /\ r.2 = w
  /\ (forall transaction rest id,
        labelled_rows (store w) = transaction :: rest ->
        node_get "id" transaction = Ok id ->
        is_ok (retrieve_context_by id 2 w).1 = true ->
        r.1 = HTTPException500 NameError).
Proof.
  intros Hrows. cbv zeta. rewrite route_get_model_status_eq, test_data_eq.
  destruct (labelled_rows (store w)) as [|t rest]; [done |].
  destruct (node_get "id" t) as [id|e] eqn:Hid.
  - destruct (retrieve_context_by id 2 w).1 as [d|e] eqn:Hd.
    + cbn. repeat split; try done. by eexists.
    + cbn. repeat split; try done; [by eexists |].
      intros ? ? id0 [= <- <-] Hid0. rewrite Hid in Hid0. injection Hid0 as <-.
      by rewrite Hd.
  - cbn. repeat split; try done; [by eexists |].
    intros ? ? id0 [= <- <-] Hid0. by rewrite Hid in Hid0.
Qed.

(** The other case: without labelled transactions the answer is made of the
    metrics of two empty lists. *)
Lemma route_get_model_status_empty (w : World) :
  labelled_rows (store w) = [] ->
  route_get_model_status accuracy_score roc_auc_score MODEL_PATH w
  = (match metrics accuracy_score roc_auc_score ([], []) with
     | Ok (a, u) => Answer (mkModelStatus a u MODEL_PATH)
     | Raise e => HTTPException500 (Lib e)
     end,
     with_model (set_training false (model w)) w).
Proof.
  intros Hrows. rewrite route_get_model_status_eq, test_data_eq, Hrows.
  rewrite evaluate_eq. cbn [gathered mbind result_bind].
  by destruct (metrics _ _ _) as [[a u]|e].
Qed.

End StatusMore.

Section StatusWitnesses.
Import Samples.

Lemma route_get_model_status_fails_witness :
  let l := ConstLib.lib half half in
  let w := world l gnn store_labelled 0%nat in
  let r := @route_get_model_status l (fun _ _ => Ok f1) (fun _ _ => Ok f1) "model.pt" w in
  (exists detail, r.1 = HTTPException500 detail)
  /\ r.2 = w
  /\ (forall transaction rest id,
        labelled_rows (store w) = transaction :: rest ->
        node_get "id" transaction = Ok id ->
        is_ok (@retrieve_context_by l id 2 w).1 = true ->
        r.1 = HTTPException500 NameError).
Proof.
  intros l w.
  apply (@route_get_model_status_fails l (fun _ _ => Ok f1) (fun _ _ => Ok f1) "model.pt" w).
  done.
Defined.

End StatusWitnesses.

(** ** database.py and main.py: the connections of the process *)

Section DatabaseMore.
Variable create_client : result unit.
Variable GraphDatabase_driver : result unit.

Lemma init_supabase_tidy p :
  tidy p -> tidy (init_supabase create_client p).2.
Proof.
  intros Hp. pose proof Hp as [Hd Hc]. unfold init_supabase.
  destruct (supabase (db_manager p)) as [c|] eqn:Hs; [exact Hp |].
  destruct create_client as [[]|e]; [| exact Hp].
  split; [exact Hd |]. cbn. by rewrite Hc.
Qed.

Lemma init_neo4j_tidy p :
  tidy p -> tidy (init_neo4j GraphDatabase_driver p).2.
Proof.
  intros Hp. pose proof Hp as [Hd Hc]. unfold init_neo4j.
  destruct (neo4j_driver (db_manager p)) as [d|] eqn:Hn; [exact Hp |].
  destruct GraphDatabase_driver as [[]|e]; [| exact Hp].
  split; [| exact Hc]. cbn. intros d.
  destruct (decide (d < length (drivers p))%nat) as [Hlt|Hge].
  - rewrite lookup_app_l by done. rewrite Hd. split; [done |]. intros [= <-]. lia.
  - destruct (decide (d = length (drivers p))) as [->|Hne].
    + rewrite lookup_app_r by lia. by rewrite Nat.sub_diag.
    + rewrite lookup_ge_None_2 by (rewrite length_app; cbn; lia).
      split; [done |]. by intros [= <-].
Qed.

Lemma close_neo4j_tidy p : tidy p -> tidy (close_neo4j p).
Proof.
  intros Hp. pose proof Hp as [Hd Hc]. unfold close_neo4j.
  destruct (neo4j_driver (db_manager p)) as [d|] eqn:Hn; [| exact Hp].
  split; [| exact Hc]. cbn. intros i. split; [| done].
  rewrite list_lookup_insert_Some. intros [(_ & [=] & _)|[Hne Hi]].
  apply Hd in Hi. by injection Hi.
Qed.

Lemma print_tidy e p : tidy p -> tidy (print e p).
Proof. by intros [Hd Hc]. Qed.

Lemma verify_connections_tidy table_query count_query p :
  tidy p ->
  tidy (verify_connections create_client GraphDatabase_driver table_query count_query p).2.
Proof.
  intros Hp. unfold verify_connections.
  pose proof (init_supabase_tidy p Hp) as H1.
  destruct (init_supabase create_client p) as [[c|e] p1]; cbn [snd] in *;
    [| by apply print_tidy].
  destruct table_query as [[]|e]; [| by apply print_tidy].
  pose proof (init_neo4j_tidy p1 H1) as H2.
  destruct (init_neo4j GraphDatabase_driver p1) as [[d|e] p2]; cbn [snd] in *;
    [| by apply print_tidy].
  destruct count_query as [[]|e]; [exact H2 | by apply print_tidy].
Qed.

Lemma calls_tidy cs :
  forall p, tidy p -> tidy (calls create_client GraphDatabase_driver cs p).
Proof.
  induction cs as [|c cs IH]; intros p Hp; [exact Hp |].
  cbn [calls foldl]. apply IH. destruct c; cbn [step].
  - by apply init_supabase_tidy.
  - by apply init_neo4j_tidy.
  - by apply close_neo4j_tidy.
  - by apply verify_connections_tidy.
Qed.

Lemma started_tidy : tidy started.
Proof. split; [| done]. intros d. by cbn. Qed.

(** X21: whatever calls a process makes of [get_supabase], [get_neo4j],
    [close_neo4j] and [verify_connections], in whatever order, the manager
    leaks no connection: the drivers that are open are the one it holds and
    no other (none when it holds none), so at most one is open at any time,
    and no more than one Supabase client is ever made. *)
Theorem database_manager_tidy (cs : list call) :
  let p := calls create_client GraphDatabase_driver cs started in
  (forall d, drivers p !! d = Some true <-> neo4j_driver (db_manager p) = Some d)
  /\ (forall d d', drivers p !! d = Some true -> drivers p !! d' = Some true -> d = d')
  /\ (clients p <= 1)%nat.
Proof.
  cbv zeta. destruct (calls_tidy cs started started_tidy) as [Hd Hc].
  split; [exact Hd |]. split.
  - intros d d' H1 H2. apply Hd in H1, H2. congruence.
  - rewrite Hc. destruct (supabase _); lia.
Qed.

(** X22: [get_neo4j] hands out the driver the manager holds, the same one
    at every call and without making another, until [close_neo4j]; after
    that the next [get_neo4j] makes a new driver.  So whoever kept the
    earlier driver, as the [GraphRAG] object made when [routes.py] is
    loaded does, is left with a closed one, while the handlers that call
    [get_neo4j] themselves go on with the new one. *)
Theorem get_neo4j_after_close (cs : list call) (d d' : nat) (p1 p3 : Process) :
  get_neo4j GraphDatabase_driver (calls create_client GraphDatabase_driver cs started)
    = (Ok d, p1) ->
  get_neo4j GraphDatabase_driver (close_neo4j p1) = (Ok d', p3) ->
  get_neo4j GraphDatabase_driver p1 = (Ok d, p1)
  /\ d' <> d
  /\ drivers p3 !! d = Some false
  /\ drivers p3 !! d' = Some true
  /\ neo4j_driver (db_manager p3) = Some d'.
Proof.
  intros H1 H3.
  pose proof (init_neo4j_tidy _ (calls_tidy cs started started_tidy)) as [Hd _].
  unfold get_neo4j in *. rewrite H1 in Hd. cbn [snd] in Hd.
  assert (neo4j_driver (db_manager p1) = Some d) as Hn.
  { revert H1. unfold init_neo4j.
    destruct (neo4j_driver (db_manager (calls _ _ cs started))) as [d0|] eqn:Hn.
    - by intros [= <- <-].
    - destruct GraphDatabase_driver as [[]|e]; [| done]. by intros [= <- <-]. }
  assert (d < length (drivers p1))%nat as Hlt.
  { apply lookup_lt_is_Some. exists true. by apply Hd. }
  split; [by unfold init_neo4j; rewrite Hn |].
  revert H3. unfold close_neo4j, init_neo4j. rewrite Hn. cbn.
  destruct GraphDatabase_driver as [[]|e]; [| done]. intros [= <- <-]. cbn.
  rewrite length_insert. split; [lia |]. split; [| split; [| done]].
  - rewrite lookup_app_l by (rewrite length_insert; lia).
    by apply list_lookup_insert_eq.
  - rewrite lookup_app_r by (rewrite length_insert; lia).
    by rewrite length_insert, Nat.sub_diag.
Qed.

Lemma init_neo4j_held p d p' :
  init_neo4j GraphDatabase_driver p = (Ok d, p') ->
  neo4j_driver (db_manager p') = Some d /\ supabase (db_manager p') = supabase (db_manager p)
  /\ printed p' = printed p.
Proof.
  unfold init_neo4j. destruct (neo4j_driver (db_manager p)) as [d0|] eqn:Hn.
  - by intros [= <- <-].
  - destruct GraphDatabase_driver as [[]|e]; [| done]. by intros [= <- <-].
Qed.

Lemma init_neo4j_raise p e p' :
  init_neo4j GraphDatabase_driver p = (Raise e, p') -> p' = p.
Proof.
  unfold init_neo4j. destruct (neo4j_driver (db_manager p)); [done |].
  destruct GraphDatabase_driver as [[]|e']; [done |]. by intros [= _ <-].
Qed.

Lemma init_supabase_held p c p' :
  init_supabase create_client p = (Ok c, p') ->
  supabase (db_manager p') = Some c /\ printed p' = printed p.
Proof.
  unfold init_supabase. destruct (supabase (db_manager p)) as [c0|] eqn:Hs.
  - by intros [= <- <-].
  - destruct create_client as [[]|e]; [| done]. by intros [= <- <-].
Qed.

(** X23: [startup_event] gets through only with both connections made:
    after it [/health] reports both, and nothing was printed.  When it
    fails, one error was printed; and when it is the Supabase client that
    cannot be made, Neo4j is not tried at all.  After [shutdown_event],
    [/health] reports no Neo4j connection, and it still reports the status
    "healthy", as it always does. *)
Theorem startup_health (table_query count_query : result unit) (p : Process) :
  let r := startup_event create_client GraphDatabase_driver table_query count_query p in
  (r.1 = Up ->
     health_check r.2 = mkHealth "healthy" true true /\ printed r.2 = printed p)
  /\ (r.1 <> Up -> exists e, printed r.2 = printed p ++ [e])
  /\ (is_ok (init_supabase create_client p).1 = false ->
        r.1 <> Up /\ drivers r.2 = drivers p
        /\ neo4j_driver (db_manager r.2) = neo4j_driver (db_manager p))
  /\ health_check (shutdown_event r.2)
     = mkHealth "healthy" false (supabase_ (health_check r.2)).
Proof.
  cbv zeta. unfold startup_event, verify_connections.
  assert (forall q, health_check (shutdown_event q)
                    = mkHealth "healthy" false (supabase_ (health_check q))) as Hshut.
  { intros q. unfold shutdown_event, close_neo4j, health_check.
    destruct (neo4j_driver (db_manager q)) as [d|] eqn:Hq; cbn; [done |].
    by rewrite Hq. }
  pose proof (init_supabase_held p) as H1.
  assert ((init_supabase create_client p).2 = p \/ is_ok (init_supabase create_client p).1 = true)
    as Hsame.
  { unfold init_supabase. destruct (supabase (db_manager p)); [by left |].
    destruct create_client as [[]|e]; [by right | by left]. }
  destruct (init_supabase create_client p) as [[c|e] p1]; cbn [fst snd] in *.
  - destruct (H1 c p1 eq_refl) as [Hs Hp1].
    destruct table_query as [[]|e]; cbn [fst snd].
    + destruct (init_neo4j GraphDatabase_driver p1) as [[d|e] p2] eqn:H2; cbn [fst snd].
      * destruct (init_neo4j_held p1 d p2 H2) as (Hn & Hs2 & Hp2).
        destruct count_query as [[]|e]; cbn [fst snd].
        -- split; [| split; [done | split; [done | apply Hshut]]].
           intros _. split; [| congruence].
           unfold health_check. rewrite Hn, Hs2, Hs. done.
        -- split; [done |]. split; [| split; [done | apply Hshut]].
           intros _. exists e. cbn. congruence.
      * split; [done |]. split; [| split; [done | apply Hshut]].
        intros _. exists e. cbn. apply init_neo4j_raise in H2 as ->. congruence.
    + split; [done |]. split; [| split; [done | apply Hshut]].
      intros _. exists e. cbn. congruence.
  - destruct Hsame as [->|?]; [| done].
    split; [done |]. split; [by intros _; exists e |]. split; [done | apply Hshut].
Qed.

End DatabaseMore.

Section DatabaseWitnesses.

Lemma get_neo4j_after_close_witness :
  let p1 := mkProcess (mkDatabaseManager None (Some 0%nat)) [true] 0 [] in
  let p3 := mkProcess (mkDatabaseManager None (Some 1%nat)) [false; true] 0 [] in
  get_neo4j (Ok tt) p1 = (Ok 0%nat, p1)
  /\ 1%nat <> 0%nat
  /\ drivers p3 !! 0%nat = Some false
  /\ drivers p3 !! 1%nat = Some true
  /\ neo4j_driver (db_manager p3) = Some 1%nat.
Proof.
  intros p1 p3.
  apply (get_neo4j_after_close (Ok tt) (Ok tt) [CloseNeo4j] 0 1 p1 p3); reflexivity.
Defined.

End DatabaseWitnesses.

(** ** kafka_consumer.py: the transaction processor *)

Section ProcessorMore.
Import Kafka.
Variable K : Type.
Variable produce_alert : dict -> K -> result unit * K.
Variable str_ : value -> string.

Local Abbreviation process_transaction := (process_transaction K produce_alert str_).
Local Abbreviation Consumer := (Consumer K).

Lemma statistics_frame (s : Consumer) :
  processor (statistics K s).2 = processor s
  /\ kafka (statistics K s).2 = kafka s
  /\ handed (statistics K s).2 = handed s.
Proof. unfold statistics. by repeat destruct (decide _). Qed.

Lemma statistics_ok (s : Consumer) :
  processed_count (processor s) <> 0 -> (statistics K s).1 = Ok tt.
Proof. intros Hn. unfold statistics. by repeat destruct (decide _). Qed.

Ltac statistics_done :=
  match goal with
  | |- context [statistics _ ?x] =>
      let H1 := fresh in let H2 := fresh in let H3 := fresh in
      destruct (statistics_frame x) as (H1 & H2 & H3); rewrite ?H1, ?H2, ?H3
  end.

(** One call, counter by counter. *)
Lemma process_transaction_counts transaction (s : Consumer) :
  let s' := (process_transaction transaction s).2 in
  processed_count (processor s') = processed_count (processor s) + 1
  /\ fraud_count (processor s) <= fraud_count (processor s') <= fraud_count (processor s) + 1
  /\ running (processor s') = running (processor s)
  /\ (exists l, handed s' = handed s ++ l
                /\ Z.of_nat (length l)
                   <= fraud_count (processor s') - fraud_count (processor s)
                /\ Forall (fun alert => build_alert str_ transaction = Ok alert) l).
Proof.
  cbv zeta. unfold process_transaction.
  destruct (gt_07 _) as [high|e]; cbn [snd processor processed_count fraud_count running handed].
  2: { repeat split; try lia. exists []. rewrite app_nil_r. repeat split; [cbn; lia | done]. }
  destruct (high || _)%bool.
  - destruct (build_alert str_ transaction) as [alert|e] eqn:Ha; cbn [snd].
    2: { cbn. repeat split; try lia. exists []. rewrite app_nil_r.
         repeat split; [cbn; lia | done]. }
    cbn [kafka]. destruct (produce_alert alert (kafka s)) as [[[]|e] k].
    + destruct (getitem "id" transaction) as [id|e].
      * statistics_done.
        cbn. repeat split; try lia. exists [alert].
        repeat split; [cbn; lia | by repeat constructor].
      * cbn. repeat split; try lia. exists [alert].
        repeat split; [cbn; lia | by repeat constructor].
    + cbn. repeat split; try lia. exists [alert].
      repeat split; [cbn; lia | by repeat constructor].
  - statistics_done.
    cbn. repeat split; try lia. exists []. rewrite app_nil_r.
    repeat split; [cbn; lia | done].
Qed.

(** Where an error of a call comes from. *)
Lemma process_transaction_raises transaction (s : Consumer) e :
  0 <= processed_count (processor s) ->
  (process_transaction transaction s).1 = Raise e ->
  gt_07 (get_or_0 "fraud_probability" transaction) = Raise e
  \/ build_alert str_ transaction = Raise e
  \/ exists alert, build_alert str_ transaction = Ok alert
                   /\ (produce_alert alert (kafka s)).1 = Raise e.
Proof.
  intros Hn. unfold process_transaction.
  destruct (gt_07 _) as [high|e0]; [| intros [= <-]; by left].
  destruct (high || _)%bool.
  - destruct (build_alert str_ transaction) as [alert|e0] eqn:Ha;
      [| intros [= <-]; right; by left].
    cbn [kafka]. destruct (produce_alert alert (kafka s)) as [[[]|e0] k] eqn:Hp.
    + assert (getitem "id" transaction <> Raise KeyError) as Hid.
      { revert Ha. unfold build_alert. by destruct (getitem "id" transaction). }
      destruct (getitem "id" transaction) as [id|e0] eqn:Hg.
      * rewrite statistics_ok; [done | cbn; lia].
      * exfalso. revert Hg Hid. unfold getitem. by destruct (_ !! _); intros [= <-].
    + intros [= <-]. right. right. exists alert. by rewrite Hp.
  - rewrite statistics_ok; [done | cbn; lia].
Qed.

Lemma after_snoc (callback : dict -> Consumer -> result unit * Consumer) ts t s :
  after K callback (ts ++ [t]) s = (callback t (after K callback ts s)).2.
Proof. unfold after. by rewrite foldl_snoc. Qed.

(** X24: the counters of the processor, after any calls of
    [process_transaction] on a new processor, whatever each of them did or
    raised: [processed_count] is the number of calls, [fraud_count] lies
    between zero and it, and no more alerts were handed to [produce_alert]
    than [fraud_count] says.  And a call that raises does so in the
    comparison with 0.7, for a key the alert needs, or inside
    [produce_alert]: the statistics never divide by zero. *)
Theorem processor_counts (transactions : list dict) (k : K) :
  let s := after K process_transaction transactions (new K k) in
  processed_count (processor s) = Z.of_nat (length transactions)
  /\ 0 <= fraud_count (processor s) <= processed_count (processor s)
  /\ Z.of_nat (length (handed s)) <= fraud_count (processor s)
  /\ (forall transaction e,
        (process_transaction transaction s).1 = Raise e ->
        gt_07 (get_or_0 "fraud_probability" transaction) = Raise e
        \/ build_alert str_ transaction = Raise e
        \/ exists alert, build_alert str_ transaction = Ok alert
                         /\ (produce_alert alert (kafka s)).1 = Raise e).
Proof.
  cbv zeta.
  assert (processed_count (processor (after K process_transaction transactions (new K k)))
            = Z.of_nat (length transactions)
          /\ 0 <= fraud_count (processor (after K process_transaction transactions (new K k)))
               <= processed_count
                    (processor (after K process_transaction transactions (new K k)))
          /\ Z.of_nat (length (handed (after K process_transaction transactions (new K k))))
             <= fraud_count (processor (after K process_transaction transactions (new K k))))
    as (H1 & H2 & H3).
  { induction transactions as [|t ts IH] using rev_ind; [cbn; lia |].
    rewrite after_snoc, length_app. cbn [length].
    destruct (process_transaction_counts t (after K process_transaction ts (new K k)))
      as (Hp & Hf & _ & l & Hh & Hl & _).
    cbv zeta in *. rewrite Hp, Hh, length_app. lia. }
  repeat split; try lia.
  intros transaction e. apply process_transaction_raises. lia.
Qed.

(** X25: a transaction without the key [fraud_probability] never becomes
    an alert.  When its label is 1 it is counted as fraud and the call then
    raises KeyError where it builds the alert; otherwise it is not counted as
    fraud.  Either way nothing is handed to [produce_alert], and the client
    is left as it was. *)
Theorem process_transaction_without_probability (transaction : dict) (s : Consumer) :
  transaction !! "fraud_probability" = None ->
  let r := process_transaction transaction s in
  handed r.2 = handed s
  /\ kafka r.2 = kafka s
  /\ processed_count (processor r.2) = processed_count (processor s) + 1
  /\ (if eq_1 (get_or_0 "label" transaction)
      then r.1 = Raise KeyError
           /\ fraud_count (processor r.2) = fraud_count (processor s) + 1
           /\ output r.2 = output s
      else fraud_count (processor r.2) = fraud_count (processor s)).
Proof.
  intros Hnone. cbv zeta.
  assert (gt_07 (get_or_0 "fraud_probability" transaction) = Ok false) as Hgt.
  { unfold get_or_0. by rewrite Hnone. }
  assert (build_alert str_ transaction = Raise KeyError) as Hbuild.
  { unfold build_alert, getitem. rewrite Hnone.
    destruct (transaction !! "id"); [| done].
    destruct (transaction !! "user_id"); [| done].
    destruct (transaction !! "amount"); [| done].
    by destruct (transaction !! "timestamp"). }
  unfold process_transaction. rewrite Hgt, Hbuild. cbn [orb].
  destruct (eq_1 (get_or_0 "label" transaction)); [done |].
  statistics_done. done.
Qed.

Lemma build_alert_keys transaction alert :
  build_alert str_ transaction = Ok alert ->
  alert !! "fraud_probability" = None
  /\ alert !! "is_fraudulent" = None
  /\ alert !! "context" = None
  /\ alert !! "transaction_id" = transaction !! "id"
  /\ alert !! "risk_score" = transaction !! "fraud_probability".
Proof.
  unfold build_alert, getitem.
  destruct (transaction !! "id") as [id|]; [| done]. cbn.
  destruct (transaction !! "user_id") as [u|]; [| done]. cbn.
  destruct (transaction !! "amount") as [a|]; [| done]. cbn.
  destruct (transaction !! "timestamp") as [t|]; [| done]. cbn.
  destruct (transaction !! "fraud_probability") as [p|]; [| done]. cbn.
  intros [= <-]. repeat split.
  all: repeat (rewrite lookup_insert_ne by done).
  all: by rewrite ?lookup_insert_eq, ?lookup_empty.
Qed.

(** X26: the alerts of the processor and the Alert schema of the client
    do not fit.  Every alert handed to [produce_alert], after any calls on
    a new processor, lacks the schema's fields [fraud_probability],
    [is_fraudulent] and [context] (the score is there as [risk_score]).  And
    a message that has the fields of the schema and no others makes
    [process_alerts] raise KeyError before it prints a line. *)
Theorem alerts_miss_schema_fields (transactions : list dict) (k : K) :
  let s := after K process_transaction transactions (new K k) in
  Forall (fun alert =>
            alert !! "fraud_probability" = None
            /\ alert !! "is_fraudulent" = None
            /\ alert !! "context" = None
            /\ is_Some (alert !! "risk_score")) (handed s)
  /\ (forall (alert : dict) (c : Consumer),
        (forall key, is_Some (alert !! key) <-> key ∈ alert_schema_fields) ->
        process_alerts K alert c = (Raise KeyError, c)).
Proof.
  cbv zeta. split.
  - induction transactions as [|t ts IH] using rev_ind; [by constructor |].
    rewrite after_snoc.
    destruct (process_transaction_counts t (after K process_transaction ts (new K k)))
      as (_ & _ & _ & l & Hh & _ & Hl).
    cbv zeta in *. rewrite Hh. apply Forall_app. split; [exact IH |].
    eapply Forall_impl; [exact Hl |]. intros alert Ha. cbn beta in Ha.
    pose proof Ha as Ha'. apply build_alert_keys in Ha as (? & ? & ? & _ & Hr).
    repeat split; try done. rewrite Hr.
    revert Ha'. unfold build_alert, getitem.
    destruct (t !! "id"); [| done].
    destruct (t !! "user_id"); [| done].
    destruct (t !! "amount"); [| done].
    destruct (t !! "timestamp"); [| done].
    destruct (t !! "fraud_probability"); [| done]. by eexists.
  - intros alert c Hkeys. unfold process_alerts, getitem.
    destruct (alert !! "id") as [id|] eqn:Hid; [exfalso | done].
    assert ("id" ∈ alert_schema_fields) as Hin by (apply Hkeys; by eexists).
    unfold alert_schema_fields in Hin. rewrite !elem_of_cons in Hin.
    rewrite elem_of_nil in Hin. by repeat destruct Hin as [Hin|Hin].
Qed.

End ProcessorMore.

(** ** kafka_client.py: the consumer loops under the processor *)

Section LoopsMore.
Import Kafka.
Variable K : Type.
Variable produce_alert : dict -> K -> result unit * K.
Variable str_ : value -> string.
Variable transaction_deserializer : string -> result dict.
Variable alert_deserializer : string -> result dict.

Lemma consume_loop_polling deserializer callback polls :
  forall s : Consumer K,
    (consume_loop K deserializer callback polls s).1 = Polling <-> Forall goes_on polls.
Proof.
  induction polls as [|p polls IH]; intros s; [by split; [constructor |] |].
  destruct p as [| |code|payload|e]; cbn [consume_loop].
  - rewrite IH. split; [by constructor | by inversion 1].
  - rewrite IH. split; [by constructor | by inversion 1].
  - split; [done | by inversion 1].
  - destruct (deserializer payload) as [message|e].
    + destruct (callback message s) as [[[]|e] s']; rewrite IH;
        (split; [by constructor | by inversion 1]).
    + rewrite IH. split; [by constructor | by inversion 1].
  - split; [done | by inversion 1].
Qed.

Lemma consume_loop_broke deserializer callback polls :
  forall (s s' : Consumer K) rest,
    consume_loop K deserializer callback polls s = (Broke rest, s') ->
    errors polls = S (errors rest).
Proof.
  induction polls as [|p polls IH]; intros s s' rest; [done |].
  destruct p as [| |code|payload|e]; cbn [consume_loop]; unfold errors;
    cbn [List.filter is_error length]; fold (errors polls).
  - apply IH.
  - apply IH.
  - by intros [= <- _].
  - destruct (deserializer payload) as [message|e]; [| apply IH].
    destruct (callback message s) as [[[]|e] s1]; apply IH.
  - done.
Qed.

Lemma consume_loop_running deserializer callback polls :
  (forall message (s : Consumer K),
     running (processor (callback message s).2) = running (processor s)) ->
  forall s : Consumer K,
    running (processor (consume_loop K deserializer callback polls s).2)
    = running (processor s).
Proof.
  intros Hcb. induction polls as [|p polls IH]; intros s; [done |].
  destruct p as [| |code|payload|e]; cbn [consume_loop]; try done.
  destruct (deserializer payload) as [message|e]; [| by rewrite IH].
  specialize (Hcb message s).
  destruct (callback message s) as [[[]|e] s1]; rewrite IH; exact Hcb.
Qed.

Lemma process_alerts_processor alert (s : Consumer K) :
  processor (process_alerts K alert s).2 = processor s.
Proof.
  unfold process_alerts.
  destruct (getitem "id" alert); [| done].
  destruct (getitem "transaction_id" alert); [| done].
  destruct (getitem "risk_score" alert); [| done].
  by destruct (getitem "status" alert).
Qed.

(** X27: the loop of [consume_transactions] under
    [process_transaction] counts every message it could deserialize before
    the first error of the consumer, once, whether processing it returned
    or raised: an error inside the callback never ends the loop and never
    loses the count.  And the loop is left only by such an error: on polls
    that are messages, timeouts and ends of partitions it is still
    polling. *)
Theorem consume_transactions_counts (polls : list polled) (s : Consumer K) :
  let r := consume_loop K transaction_deserializer
             (process_transaction K produce_alert str_) polls s in
  let n := Z.of_nat (length (delivered transaction_deserializer polls)) in
  processed_count (processor r.2) = processed_count (processor s) + n
  /\ fraud_count (processor s) <= fraud_count (processor r.2) <= fraud_count (processor s) + n
  /\ (r.1 = Polling <-> Forall goes_on polls).
Proof.
  cbv zeta. split; [| split; [| apply consume_loop_polling]].
  - revert s. induction polls as [|p polls IH]; intros s; [cbn; lia |].
    destruct p as [| |code|payload|e]; cbn [consume_loop delivered]; try apply IH.
    1, 3: cbn; lia.
    destruct (transaction_deserializer payload) as [message|e]; [| by rewrite IH].
    destruct (process_transaction_counts K produce_alert str_ message s) as (Hp & _).
    cbv zeta in Hp.
    destruct (process_transaction K produce_alert str_ message s) as [[[]|e] s1];
      rewrite IH; cbn [snd length say processor] in *; lia.
  - revert s. induction polls as [|p polls IH]; intros s; [cbn; lia |].
    destruct p as [| |code|payload|e]; cbn [consume_loop delivered]; try apply IH.
    1, 3: cbn; lia.
    destruct (transaction_deserializer payload) as [message|e];
      [| apply (IH (say K [ErrorProcessingMessage e] s))].
    destruct (process_transaction_counts K produce_alert str_ message s) as (_ & Hf & _).
    cbv zeta in Hf.
    destruct (process_transaction K produce_alert str_ message s) as [[[]|e] s1].
    + specialize (IH s1). cbn [snd length] in *. lia.
    + specialize (IH (say K [ErrorProcessingMessage e] s1)).
      cbn [snd length say processor] in *. lia.
Qed.

(** X28: [start_processing] does not start two consumers side by side.
    It runs the loop of the transactions first, and as long as no poll is an
    error of the consumer it is that loop and nothing else: no alert is
    consumed.  It returns, having printed that the processor started, only
    after two such errors, one that ended each loop.  The flag [running] is
    set throughout. *)
Theorem start_processing_blocks (polls : list polled) (s : Consumer K) :
  let s0 := mkConsumer K (mkTransactionProcessor true (processed_count (processor s))
                                                 (fraud_count (processor s)))
                       (kafka s) (output s) (handed s) in
  let r := start_processing K produce_alert str_ transaction_deserializer
             alert_deserializer polls s in
  running (processor r.2) = true
  /\ (errors polls = 0%nat ->
      r = consume_loop K transaction_deserializer
            (process_transaction K produce_alert str_) polls s0)
  /\ (forall rest,
        r.1 = Broke rest ->
        (2 <= errors polls)%nat /\ exists out, output r.2 = out ++ [ProcessorStarted]).
Proof.
  cbv zeta. unfold start_processing.
  pose proof (consume_loop_running transaction_deserializer
                (process_transaction K produce_alert str_) polls
                (fun m s1 => proj1 (proj2 (proj2 (process_transaction_counts K produce_alert
                                                    str_ m s1))))) as Hrun.
  pose proof (consume_loop_broke transaction_deserializer
                (process_transaction K produce_alert str_) polls) as Hbroke.
  match goal with
  | |- context [consume_loop K transaction_deserializer _ polls ?x] => set (s0 := x) in *
  end.
  specialize (Hrun s0). specialize (Hbroke s0).
  destruct (consume_loop K transaction_deserializer _ polls s0) as [[rest| |] s1];
    cbn [fst snd] in *; unfold s0 in Hrun; cbn [processor running] in Hrun.
  - pose proof (consume_loop_running alert_deserializer (process_alerts K) rest
                  (fun m s2 => f_equal running (process_alerts_processor m s2))) as Hrun2.
    specialize (Hrun2 s1).
    pose proof (consume_loop_broke alert_deserializer (process_alerts K) rest s1) as Hbroke2.
    specialize (Hbroke s1 rest eq_refl).
    destruct (consume_loop K alert_deserializer _ rest s1) as [[rest'| |] s2];
      cbn [fst snd] in *.
    + split; [cbn; congruence |]. split; [lia |].
      intros ? [= <-]. specialize (Hbroke2 s2 rest' eq_refl). split; [lia |].
      by eexists.
    + split; [congruence |]. split; [lia | done].
    + split; [congruence |]. split; [lia | done].
  - by repeat split.
  - by repeat split.
Qed.

End LoopsMore.

Section ProcessorWitnesses.
Import Kafka.

Lemma process_transaction_without_probability_witness :
  let transaction : dict := <["label" := VInt 1]> (<["id" := VStr "T1"]> ∅) in
  let s := new unit tt in
  let r := process_transaction unit (fun _ k => (Ok tt, k)) (fun _ => "") transaction s in
  handed r.2 = handed s
  /\ kafka r.2 = kafka s
  /\ processed_count (processor r.2) = processed_count (processor s) + 1
  /\ (if eq_1 (get_or_0 "label" transaction)
      then r.1 = Raise KeyError
           /\ fraud_count (processor r.2) = fraud_count (processor s) + 1
           /\ output r.2 = output s
      else fraud_count (processor r.2) = fraud_count (processor s)).
Proof.
  intros transaction s.
  apply (process_transaction_without_probability unit (fun _ k => (Ok tt, k)) (fun _ => "")
           transaction s).
  vm_compute. reflexivity.
Defined.

End ProcessorWitnesses.
